(** * jpeg2avif-js: the asynchronous job pipeline

    A shallow embedding of the three service modules of the repository

    - [src/services/redis-service.js]   ([RedisService])
    - [src/services/job-service.js]     ([JobService])
    - [src/services/conversion-worker.js] ([ConversionWorker])

    and of the two handlers of [server.js] that call them ([Server]).

    The JavaScript code is a sequence of calls into external capabilities
    (the Redis client, the file system, exiftool, Jimp, imagemin, the clock)
    glued together by [await], [try]/[catch] and object spreads.  We model
    an [async] function as a program tree [prog]: a leaf returns or throws,
    a node issues one external command and continues with its answer.  What
    the commands do is given separately by [handle], on a [world] holding
    the Redis server, the file system and the behaviour of the libraries. *)

From Stdlib Require Import ZArith String List.
From stdpp Require Import gmap strings list fin_maps pretty.

Local Open Scope string_scope.
Local Open Scope Z_scope.
Local Open Scope list_scope.

(** ** JavaScript values *)

(** The JSON-serialisable values that end up in a job record.  Numbers are
    integers here: the code only moves numbers around, compares none of
    them, and tests them for truthiness. *)
#[warnings="-register-all"]
Inductive value :=
| VNull
| VBool (b : bool)
| VNum (n : Z)
| VStr (s : string)
| VObj (fields : list (string * value)).

(** An object used as a record is a finite map from property names. Reading
    a missing property gives [None], JavaScript's [undefined]. *)
Abbreviation obj := (gmap string value).

(** Truthiness, as tested by [if (x)], [x && y] and [!!x]. *)
Definition truthy (v : value) : bool :=
  match v with
  | VNull => false
  | VBool b => b
  | VNum n => negb (Z.eqb n 0)
  | VStr s => negb (String.eqb s EmptyString)
  | VObj _ => true
  end.

Definition truthy_prop (p : option value) : bool :=
  match p with
  | Some v => truthy v
  | None => false
  end.

(** String coercion inside a template literal [`${x}`]. *)
Definition js_to_string (p : option value) : string :=
  match p with
  | None => "undefined"
  | Some VNull => "null"
  | Some (VBool true) => "true"
  | Some (VBool false) => "false"
  | Some (VNum n) => pretty n
  | Some (VStr s) => s
  | Some (VObj _) => "[object Object]"
  end.

(** ** Promises *)

(** [res X] is how an awaited call ends: rejected with an error (we keep the
    error's [message]) or fulfilled with a value. *)
Definition res (X : Type) : Type := (string + X)%type.

(** A started asynchronous operation, seen from the moment it is started: it
    settles [after] so many milliseconds with a result, or never does. *)
Inductive promise (X : Type) :=
| Settles (after : Z) (r : res X)
| Never.
Arguments Settles {X} after r.
Arguments Never {X}.

(** [Promise.race([p, q])]: the first to settle wins; at equal times the
    first operand does. *)
Definition race {X} (p q : promise X) : promise X :=
  match p, q with
  | Settles d1 _, Settles d2 _ => if Z.leb d1 d2 then p else q
  | Settles _ _, Never => p
  | Never, _ => q
  end.

(** [new Promise((_, reject) => setTimeout(() => reject(new Error(msg)), ms))] *)
Definition rejectAfter {X} (ms : Z) (msg : string) : promise X :=
  Settles ms (inl msg).

(** ** The world *)

(** A queue entry, [{ jobId }]. *)
Record entry := { jobId : string }.

(** A Jimp image. *)
Record jimp := { getWidth : Z; getHeight : Z; bitmap : string }.

(** The tag set handed to [exiftool.write]: a property assigned [undefined]
    is a key bound to [None]. *)
Abbreviation tagset := (gmap string (option value)).

(** A path in the file system is a directory or a file with its bytes. *)
Inductive node :=
| Dir
| File (data : string).

(** A write command the Redis server has applied. *)
Inductive effect :=
| Wrote (key : string) (v : obj) (ttl : option Z)
| Deleted (key : string)
| Pushed (key : string) (e : entry)
| Popped (key : string) (e : entry).

(** The libraries the services call, as functions of their inputs. *)
Record libs := {
  toISOString : Z -> string;
  uuid_of : nat -> string;
  base64_decode : string -> string;
  base64_encode : string -> string;
  path_parse_name : string -> string;
  exiftool_read : string -> promise obj;
  jimp_read : string -> promise jimp;
  jimp_scaleToFit : jimp -> Z -> Z -> jimp;
  jimp_getBuffer : jimp -> promise string;
  imagemin_avif : string -> Z -> Z -> promise string;
  exiftool_write : string -> tagset -> promise string
}.

Record world := {
  (* the Redis server *)
  store : gmap string (obj * option Z);
  lists : gmap string (list entry);
  aof : list effect;
  (* the Redis client *)
  connected : bool;
  faults : list (option string);
  (* the file system *)
  fs : gmap string node;
  (* the process *)
  clock : Z;
  isRunning : bool;
  uuid_count : nat;
  lib : libs
}.

Definition set_store f (w : world) : world :=
  {| store := f (store w); lists := lists w; aof := aof w;
     connected := connected w; faults := faults w; fs := fs w;
     clock := clock w; isRunning := isRunning w;
     uuid_count := uuid_count w; lib := lib w |}.
Definition set_lists f (w : world) : world :=
  {| store := store w; lists := f (lists w); aof := aof w;
     connected := connected w; faults := faults w; fs := fs w;
     clock := clock w; isRunning := isRunning w;
     uuid_count := uuid_count w; lib := lib w |}.
Definition set_aof f (w : world) : world :=
  {| store := store w; lists := lists w; aof := f (aof w);
     connected := connected w; faults := faults w; fs := fs w;
     clock := clock w; isRunning := isRunning w;
     uuid_count := uuid_count w; lib := lib w |}.
Definition set_connected b (w : world) : world :=
  {| store := store w; lists := lists w; aof := aof w;
     connected := b; faults := faults w; fs := fs w;
     clock := clock w; isRunning := isRunning w;
     uuid_count := uuid_count w; lib := lib w |}.
Definition set_faults f (w : world) : world :=
  {| store := store w; lists := lists w; aof := aof w;
     connected := connected w; faults := f (faults w); fs := fs w;
     clock := clock w; isRunning := isRunning w;
     uuid_count := uuid_count w; lib := lib w |}.
Definition set_fs f (w : world) : world :=
  {| store := store w; lists := lists w; aof := aof w;
     connected := connected w; faults := faults w; fs := f (fs w);
     clock := clock w; isRunning := isRunning w;
     uuid_count := uuid_count w; lib := lib w |}.
Definition set_clock f (w : world) : world :=
  {| store := store w; lists := lists w; aof := aof w;
     connected := connected w; faults := faults w; fs := fs w;
     clock := f (clock w); isRunning := isRunning w;
     uuid_count := uuid_count w; lib := lib w |}.
Definition set_isRunning b (w : world) : world :=
  {| store := store w; lists := lists w; aof := aof w;
     connected := connected w; faults := faults w; fs := fs w;
     clock := clock w; isRunning := b;
     uuid_count := uuid_count w; lib := lib w |}.
Definition set_lib f (w : world) : world :=
  {| store := store w; lists := lists w; aof := aof w;
     connected := connected w; faults := faults w; fs := fs w;
     clock := clock w; isRunning := isRunning w;
     uuid_count := uuid_count w; lib := f (lib w) |}.
Definition set_uuid_count f (w : world) : world :=
  {| store := store w; lists := lists w; aof := aof w;
     connected := connected w; faults := faults w; fs := fs w;
     clock := clock w; isRunning := isRunning w;
     uuid_count := f (uuid_count w); lib := lib w |}.

(** ** Commands *)

(** One constructor per external call the services make; the index is the
    type of the answer.  A Redis client command is issued and awaited in one
    step and answers with a [res]; a library operation that the code may
    race against a timer answers with the [promise] it started, which is
    awaited by a separate [Await]. *)
Inductive cmd : Type -> Type :=
(* process *)
| DateNow : cmd Z
| DateISO : cmd string
| Uuidv4 : cmd string
| GetRunning : cmd bool
| SetRunning (b : bool) : cmd unit
| Log (level msg : string) : cmd unit
(* redis client *)
| Connected : cmd bool
| ClientSetEx (key : string) (ttl : Z) (v : obj) : cmd (res unit)
| ClientSet (key : string) (v : obj) : cmd (res unit)
| ClientGet (key : string) : cmd (res (option obj))
| ClientDel (key : string) : cmd (res unit)
| ClientLPush (key : string) (e : entry) : cmd (res unit)
| ClientBrPop (key : string) (timeout : Z) : cmd (res (option entry))
(* fs *)
| ExistsSync (path : string) : cmd bool
| MkdirSync (path : string) : cmd (res unit)
| WriteFileSync (path data : string) : cmd (res unit)
| ReadFileSync (path : string) : cmd (res string)
| UnlinkSync (path : string) : cmd (res unit)
(* Buffer, path *)
| BufferFromBase64 (s : string) : cmd string
| BufferToBase64 (b : string) : cmd string
| PathParseName (s : string) : cmd string
(* exiftool, Jimp, imagemin *)
| ExiftoolRead (path : string) : cmd (promise obj)
| JimpRead (buf : string) : cmd (promise jimp)
| ScaleToFit (img : jimp) (w h : Z) : cmd jimp
| GetBufferAsync (img : jimp) : cmd (promise string)
| ImageminAvif (buf : string) (quality effort : Z) : cmd (promise string)
| ExiftoolWrite (path : string) (tags : tagset) : cmd (promise unit)
(* await *)
| Await {X : Type} (p : promise X) : cmd (res X).

(** The next client command is rejected when the head of [faults] says so. *)
Definition next_fault (w : world) : option string * world :=
  match faults w with
  | [] => (None, w)
  | f :: fs => (f, set_faults (fun _ => fs) w)
  end.

Definition client {X} (w : world) (k : world -> X * world) : option (res X * world) :=
  match next_fault w with
  | (Some e, w') => Some (inl e, w')
  | (None, w') => let '(x, w'') := k w' in Some (inr x, w'')
  end.

Definition list_at (key : string) (w : world) : list entry :=
  default [] (lists w !! key).

(** The answer of the world to a command, and the world afterwards; [None]
    when the answer never comes. *)
Definition handle {X} (c : cmd X) (w : world) : option (X * world) :=
  match c in cmd X return option (X * world) with
  | DateNow => Some (clock w, w)
  | DateISO => Some (toISOString (lib w) (clock w), w)
  | Uuidv4 => Some (uuid_of (lib w) (uuid_count w), set_uuid_count S w)
  | GetRunning => Some (isRunning w, w)
  | SetRunning b => Some (tt, set_isRunning b w)
  | Log _ _ => Some (tt, w)
  | Connected => Some (connected w, w)
  | ClientSetEx key ttl v =>
      client w (fun w =>
        (tt, set_aof (fun l => l ++ [Wrote key v (Some ttl)])
               (set_store <[key := (v, Some ttl)]> w)))
  | ClientSet key v =>
      client w (fun w =>
        (tt, set_aof (fun l => l ++ [Wrote key v None])
               (set_store <[key := (v, None)]> w)))
  | ClientGet key =>
      client w (fun w => (fst <$> store w !! key, w))
  | ClientDel key =>
      client w (fun w =>
        (tt, set_aof (fun l => l ++ [Deleted key]) (set_store (delete key) w)))
  | ClientLPush key e =>
      client w (fun w =>
        (tt, set_aof (fun l => l ++ [Pushed key e])
               (set_lists <[key := e :: list_at key w]> w)))
  | ClientBrPop key timeout =>
      client w (fun w =>
        match rev (list_at key w) with
        | [] => (None, set_clock (fun t => t + 1000 * timeout) w)
        | e :: older =>
            (Some e, set_aof (fun l => l ++ [Popped key e])
                       (set_lists <[key := rev older]> w))
        end)
  | ExistsSync path => Some (bool_decide (is_Some (fs w !! path)), w)
  | MkdirSync path =>
      match fs w !! path with
      | Some Dir => Some (inr tt, w)
      | Some (File _) => Some (inl ("EEXIST: file already exists, mkdir '" +:+ path +:+ "'"), w)
      | None => Some (inr tt, set_fs <[path := Dir]> w)
      end
  | WriteFileSync path data =>
      match fs w !! path with
      | Some Dir => Some (inl ("EISDIR: illegal operation on a directory, open '" +:+ path +:+ "'"), w)
      | _ => Some (inr tt, set_fs <[path := File data]> w)
      end
  | ReadFileSync path =>
      match fs w !! path with
      | Some (File data) => Some (inr data, w)
      | Some Dir => Some (inl "EISDIR: illegal operation on a directory, read", w)
      | None => Some (inl ("ENOENT: no such file or directory, open '" +:+ path +:+ "'"), w)
      end
  | UnlinkSync path =>
      match fs w !! path with
      | Some (File _) => Some (inr tt, set_fs (delete path) w)
      | Some Dir => Some (inl ("EPERM: operation not permitted, unlink '" +:+ path +:+ "'"), w)
      | None => Some (inl ("ENOENT: no such file or directory, unlink '" +:+ path +:+ "'"), w)
      end
  | BufferFromBase64 s => Some (base64_decode (lib w) s, w)
  | BufferToBase64 b => Some (base64_encode (lib w) b, w)
  | PathParseName s => Some (path_parse_name (lib w) s, w)
  | ExiftoolRead path =>
      match fs w !! path with
      | Some (File data) => Some (exiftool_read (lib w) data, w)
      | _ => Some (Settles 0 (inl ("File not found: " +:+ path)), w)
      end
  | JimpRead buf => Some (jimp_read (lib w) buf, w)
  | ScaleToFit img wd ht => Some (jimp_scaleToFit (lib w) img wd ht, w)
  | GetBufferAsync img => Some (jimp_getBuffer (lib w) img, w)
  | ImageminAvif buf quality effort => Some (imagemin_avif (lib w) buf quality effort, w)
  | ExiftoolWrite path tags =>
      match fs w !! path with
      | Some (File data) =>
          match exiftool_write (lib w) data tags with
          | Settles d (inr data') =>
              Some (Settles d (inr tt), set_fs <[path := File data']> w)
          | Settles d (inl e) => Some (Settles d (inl e), w)
          | Never => Some (Never, w)
          end
      | _ => Some (Settles 0 (inl ("File not found: " +:+ path)), w)
      end
  | Await p =>
      match p with
      | Settles d r => Some (r, set_clock (fun t => t + d) w)
      | Never => None
      end
  end.

(** ** Programs *)

Inductive prog (A : Type) : Type :=
| Ret (a : A)
| Throw (e : string)
| Op {X : Type} (c : cmd X) (k : X -> prog A).
Arguments Ret {A} a.
Arguments Throw {A} e.
Arguments Op {A X} c k.

Fixpoint bind {A B} (p : prog A) (f : A -> prog B) : prog B :=
  match p with
  | Ret a => f a
  | Throw e => Throw e
  | Op c k => Op c (fun x => bind (k x) f)
  end.

(** [try { p } catch (error) { h error.message }] *)
Fixpoint try_catch {A} (p : prog A) (h : string -> prog A) : prog A :=
  match p with
  | Ret a => Ret a
  | Throw e => h e
  | Op c k => Op c (fun x => try_catch (k x) h)
  end.

Notation "'let*' x ':=' p 'in' q" := (bind p (fun x => q))
  (at level 10, x name, p at level 200, q at level 200, only parsing).

(** A command whose answer is used as it is. *)
Definition perform {X} (c : cmd X) : prog X := Op c Ret.

(** A command that may fail: a rejection is rethrown. *)
Definition call {X} (c : cmd (res X)) : prog X :=
  Op c (fun r => match r with inl e => Throw e | inr x => Ret x end).

(** [await p] *)
Definition await {X} (p : promise X) : prog X := call (Await p).

(** How a run ends: with a value, with an exception, or not at all (an
    awaited promise that never settles). *)
Inductive outcome (A : Type) :=
| Done (a : A)
| Failed (e : string)
| Stuck.
Arguments Done {A} a.
Arguments Failed {A} e.
Arguments Stuck {A}.

Fixpoint run {A} (p : prog A) (w : world) : outcome A * world :=
  match p with
  | Ret a => (Done a, w)
  | Throw e => (Failed e, w)
  | Op c k =>
      match handle c w with
      | Some (x, w') => run (k x) w'
      | None => (Stuck, w)
      end
  end.

(** [array.forEach(f)] *)
Fixpoint forEach {A} (l : list A) (f : A -> prog unit) : prog unit :=
  match l with
  | [] => Ret tt
  | x :: l' => let* _ := f x in forEach l' f
  end.

(** ** redis-service.js *)

Module RedisService.

Definition isConnected : prog bool := perform Connected.

Definition getClient : prog unit :=
  let* c := isConnected in
  if negb c then Throw "Redis client not connected" else Ret tt.

(** [ttl] is [None] for the default [null]; [if (ttl)] also takes the
    second branch for [0]. *)
Definition set (key : string) (value : obj) (ttl : option Z) : prog unit :=
  let* _ := getClient in
  match ttl with
  | Some t =>
      if negb (Z.eqb t 0) then call (ClientSetEx key t value)
      else call (ClientSet key value)
  | None => call (ClientSet key value)
  end.

Definition get (key : string) : prog (option obj) :=
  let* _ := getClient in
  let* value := call (ClientGet key) in
  match value with
  | Some v => Ret (Some v)
  | None => Ret None
  end.

Definition del (key : string) : prog unit :=
  let* _ := getClient in
  call (ClientDel key).

Definition lpush (key : string) (value : entry) : prog unit :=
  let* _ := getClient in
  call (ClientLPush key value).

Definition brpop (key : string) (timeout : Z) : prog (option entry) :=
  let* _ := getClient in
  let* result := call (ClientBrPop key timeout) in
  match result with
  | Some e => Ret (Some e)
  | None => Ret None
  end.

End RedisService.

(** ** job-service.js *)

Module JobService.

Definition keyPrefix : string := "jpeg2avif:job:".
Definition queueKey : string := "jpeg2avif:queue".

(** [`${this.keyPrefix}${jobId}`] *)
Definition jobKey (jobId : string) : string := keyPrefix +:+ jobId.

(** The defaults of [createJob], before the spread of [jobData]. *)
Definition defaults (jobId createdAt updatedAt : string) : obj :=
  <["id" := VStr jobId]> (<["status" := VStr "queued"]>
    (<["createdAt" := VStr createdAt]> (<["updatedAt" := VStr updatedAt]> ∅))).

Definition createJob (jobData : obj) : prog obj :=
  let* jobId := perform Uuidv4 in
  let* createdAt := perform DateISO in
  let* updatedAt := perform DateISO in
  (* { id, status, createdAt, updatedAt, ...jobData } *)
  let job : obj := jobData ∪ defaults jobId createdAt updatedAt in
  let* c := RedisService.isConnected in
  if negb c then Throw "Redis not connected - cannot create job" else
  try_catch
    (let* _ := RedisService.set (jobKey jobId) job (Some 86400) in
     let* _ := RedisService.lpush queueKey {| jobId := jobId |} in
     let* _ := perform (Log "info" ("Created job " +:+ jobId +:+ " with status: "
                                     +:+ js_to_string (job !! "status"))) in
     Ret job)
    (fun error =>
       let* _ := perform (Log "error" "Failed to create job:") in
       Throw ("Failed to create job: " +:+ error)).

Definition getJobStatus (jobId : string) : prog (option obj) :=
  let* c := RedisService.isConnected in
  if negb c then Throw "Redis not connected - cannot get job status" else
  try_catch
    (let* job := RedisService.get (jobKey jobId) in
     match job with
     | None => Ret None
     | Some job => Ret (Some job)
     end)
    (fun error =>
       let* _ := perform (Log "error" ("Failed to get job status for " +:+ jobId +:+ ":")) in
       Throw ("Failed to get job status: " +:+ error)).

Definition updateJobStatus (jobId : string) (updates : obj) : prog obj :=
  let* c := RedisService.isConnected in
  if negb c then Throw "Redis not connected - cannot update job status" else
  try_catch
    (let* job := getJobStatus jobId in
     match job with
     | None => Throw ("Job " +:+ jobId +:+ " not found")
     | Some job =>
         let* now := perform DateISO in
         (* { ...job, ...updates, updatedAt } *)
         let updatedJob : obj := <["updatedAt" := VStr now]> (updates ∪ job) in
         let* _ := RedisService.set (jobKey jobId) updatedJob (Some 86400) in
         let* _ := perform (Log "info" ("Updated job " +:+ jobId +:+ " status to: "
                                         +:+ js_to_string (updatedJob !! "status"))) in
         Ret updatedJob
     end)
    (fun error =>
       let* _ := perform (Log "error" ("Failed to update job status for " +:+ jobId +:+ ":")) in
       Throw ("Failed to update job status: " +:+ error)).

Definition getNextJob : prog (option obj) :=
  let* c := RedisService.isConnected in
  if negb c then Throw "Redis not connected - cannot get next job" else
  try_catch
    (let* result := RedisService.brpop queueKey 30 in
     match result with
     | None => Ret None
     | Some e =>
         let* job := getJobStatus (jobId e) in
         match job with
         | None =>
             let* _ := perform (Log "warn" ("Job " +:+ jobId e +:+ " not found in Redis, skipping")) in
             Ret None
         | Some job => Ret (Some job)
         end
     end)
    (fun error =>
       let* _ := perform (Log "error" "Failed to get next job:") in
       Throw ("Failed to get next job: " +:+ error)).

Definition deleteJob (jobId : string) : prog unit :=
  let* c := RedisService.isConnected in
  if negb c then Throw "Redis not connected - cannot delete job" else
  try_catch
    (let* _ := RedisService.del (jobKey jobId) in
     perform (Log "info" ("Deleted job " +:+ jobId)))
    (fun error =>
       let* _ := perform (Log "error" ("Failed to delete job " +:+ jobId +:+ ":")) in
       Throw ("Failed to delete job: " +:+ error)).

End JobService.

(** ** conversion-worker.js *)

Module ConversionWorker.

(** [path.join(__dirname, '../../temp')] and [path.join(tempDir, name)] *)
Definition tempDir : string := "temp".
Definition path_join (dir name : string) : string := dir +:+ "/" +:+ name.

Definition tempOriginal (id : string) : string :=
  path_join tempDir (id +:+ "_original.jpg").
Definition tempThumb (id originalName : string) : string :=
  path_join tempDir (id +:+ "_" +:+ originalName +:+ "_thumb.avif").
Definition tempFull (id originalName : string) : string :=
  path_join tempDir (id +:+ "_" +:+ originalName +:+ ".avif").

(** [Buffer.from(x, 'base64')] throws a [TypeError] unless [x] is a
    string (array-like objects are not told apart here). *)
Definition bufferFrom (x : option value) : prog string :=
  match x with
  | Some (VStr s) => perform (BufferFromBase64 s)
  | _ => Throw "The first argument must be of type string or an instance of Buffer, ArrayBuffer, or Array or an Array-like Object."
  end.

(** [path.parse(x).name] throws a [TypeError] unless [x] is a string. *)
Definition parseName (x : option value) : prog string :=
  match x with
  | Some (VStr s) => perform (PathParseName s)
  | _ => Throw "The 'path' argument must be of type string."
  end.

Definition cleanupTempFiles (files : list string) : prog unit :=
  forEach files (fun file =>
    try_catch
      (let* e := perform (ExistsSync file) in
       if e then call (UnlinkSync file) else Ret tt)
      (fun cleanupError => perform (Log "warn" "Failed to cleanup temp file"))).

Definition withTimeout {X} (p : promise X) (timeoutMs : Z)
    (description : string) : promise X :=
  race p
    (rejectAfter timeoutMs
       (description +:+ " timed out after " +:+ pretty timeoutMs +:+ "ms")).

(** A promise that settles [d] milliseconds later than [p]. *)
Definition delay {X} (d : Z) (p : promise X) : promise X :=
  match p with
  | Settles d' r => Settles (d + d') r
  | Never => Never
  end.

(** The [async () => { ... }] block of the thumbnail: its promise is that
    of its second [await], started when the first one is fulfilled. *)
Definition thumbnailTask (image : jimp) : prog (promise string) :=
  let* thumbnail := perform (ScaleToFit image 200 200) in
  let* p := perform (GetBufferAsync thumbnail) in
  match p with
  | Settles d (inr thumbBuffer) =>
      let* q := perform (ImageminAvif thumbBuffer 80 4) in
      Ret (delay d q)
  | Settles d (inl e) => Ret (Settles d (inl e))
  | Never => Ret Never
  end.

Definition timestampToPreserve (originalMetadata : obj) (m : tagset) : tagset :=
  if truthy_prop (originalMetadata !! "DateTimeOriginal") then
    <["DateTimeOriginal" := originalMetadata !! "DateTimeOriginal"]> m
  else if truthy_prop (originalMetadata !! "DateTime") then
    <["DateTime" := originalMetadata !! "DateTime"]> m
  else if truthy_prop (originalMetadata !! "CreateDate") then
    <["CreateDate" := originalMetadata !! "CreateDate"]> m
  else m.

Definition gpsToPreserve (originalMetadata : obj) (m : tagset) : tagset :=
  if truthy_prop (originalMetadata !! "GPSLatitude")
     && truthy_prop (originalMetadata !! "GPSLongitude") then
    <["GPSLongitudeRef" := originalMetadata !! "GPSLongitudeRef"]>
      (<["GPSLatitudeRef" := originalMetadata !! "GPSLatitudeRef"]>
        (<["GPSLongitude" := originalMetadata !! "GPSLongitude"]>
          (<["GPSLatitude" := originalMetadata !! "GPSLatitude"]> m)))
  else m.

Definition metadataToPreserve (width height : Z) (originalMetadata : obj) : tagset :=
  gpsToPreserve originalMetadata
    (timestampToPreserve originalMetadata
      (<["ImageHeight" := Some (VNum height)]>
        (<["ImageWidth" := Some (VNum width)]> ∅))).

Definition hasGPS (originalMetadata : obj) : bool :=
  truthy_prop (originalMetadata !! "GPSLatitude")
  && truthy_prop (originalMetadata !! "GPSLongitude").

Definition hasTimestamp (originalMetadata : obj) : bool :=
  truthy_prop (originalMetadata !! "DateTimeOriginal")
  || truthy_prop (originalMetadata !! "DateTime")
  || truthy_prop (originalMetadata !! "CreateDate").

Definition variant (filename data : string) (size : Z) : value :=
  VObj [("filename", VStr filename); ("data", VStr data);
        ("size", VNum size); ("format", VStr "avif")].

Definition results (originalName thumbData fullData : string)
    (thumbSize fullSize originalSize width height : Z)
    (originalMetadata : obj) : value :=
  VObj [("thumbnail", variant (originalName +:+ "_thumb.avif") thumbData thumbSize);
        ("fullSize", variant (originalName +:+ ".avif") fullData fullSize);
        ("originalSize", VNum originalSize);
        ("metadataPreserved", VBool true);
        ("preservedMetadata",
         VObj [("hasGPS", VBool (hasGPS originalMetadata));
               ("hasTimestamp", VBool (hasTimestamp originalMetadata));
               ("dimensions", VStr (pretty width +:+ "x" +:+ pretty height))])].

Definition completed (processingTime : Z) (r : value) : obj :=
  <["status" := VStr "completed"]> (<["processingTime" := VNum processingTime]>
    (<["results" := r]> ∅)).

Definition failed (message : string) (processingTime : Z) : obj :=
  <["status" := VStr "failed"]> (<["error" := VStr message]>
    (<["processingTime" := VNum processingTime]> ∅)).

Definition byteLength (b : string) : Z := Z.of_nat (String.length b).

(** [const metadata = { width, height, format: 'jpeg', channels: 3 }] *)
Record metadata := { width : Z; height : Z; format : string; channels : Z }.

(** What the stages of the inner [try] block leave for the assembly of the
    result. *)
Record staged := {
  originalMetadata : obj;
  imageMetadata : metadata;
  finalThumbnailBuffer : string;
  finalFullSizeBuffer : string
}.

(** Provenance extraction, lines 100-109: the original is written to a
    temporary file and its metadata read from there. *)
Definition extract (id inputBuffer : string) : prog obj :=
  let* _ := call (WriteFileSync (tempOriginal id) inputBuffer) in
  try_catch
    (let* p := perform (ExiftoolRead (tempOriginal id)) in await p)
    (fun exifError => Throw ("Metadata extraction failed: " +:+ exifError)).

(** Decoding, lines 111-112. *)
Definition decode (inputBuffer : string) : prog jimp :=
  let* p := perform (JimpRead inputBuffer) in
  await p.

(** The two conversions, the two metadata writes and the reading back of
    the two variants, lines 113-205. *)
Definition derive (id inputBuffer originalName : string) (originalMetadata : obj)
    (image : jimp) : prog staged :=
  let metadata := {| width := getWidth image; height := getHeight image;
                     format := "jpeg"; channels := 3 |} in
  let* t := thumbnailTask image in
  let* thumbnailBuffer := await (withTimeout t 30000 "Thumbnail conversion") in
  let* f := perform (ImageminAvif inputBuffer 85 4) in
  let* fullSizeBuffer := await (withTimeout f 60000 "Full-size conversion") in
  let* _ := call (WriteFileSync (tempThumb id originalName) thumbnailBuffer) in
  let* _ := call (WriteFileSync (tempFull id originalName) fullSizeBuffer) in
  let tags := metadataToPreserve (width metadata) (height metadata) originalMetadata in
  let* wt := perform (ExiftoolWrite (tempThumb id originalName) tags) in
  let* _ := await (withTimeout wt 10000 "Thumbnail metadata copy") in
  let* wf := perform (ExiftoolWrite (tempFull id originalName) tags) in
  let* _ := await (withTimeout wf 10000 "Full-size metadata copy") in
  let* finalThumbnailBuffer := call (ReadFileSync (tempThumb id originalName)) in
  let* finalFullSizeBuffer := call (ReadFileSync (tempFull id originalName)) in
  Ret {| originalMetadata := originalMetadata; imageMetadata := metadata;
         finalThumbnailBuffer := finalThumbnailBuffer;
         finalFullSizeBuffer := finalFullSizeBuffer |}.

(** The inner [try] block of [processJob] up to the reading back of the two
    variants, lines 100-205. *)
Definition stages (id inputBuffer originalName : string) : prog staged :=
  let* originalMetadata := extract id inputBuffer in
  let* image := decode inputBuffer in
  derive id inputBuffer originalName originalMetadata image.

(** The update that reports success. *)
Definition success (originalName inputBuffer thumbData fullData : string)
    (st : staged) (processingTime : Z) : obj :=
  completed processingTime
    (results originalName thumbData fullData
       (byteLength (finalThumbnailBuffer st)) (byteLength (finalFullSizeBuffer st))
       (byteLength inputBuffer)
       (width (imageMetadata st)) (height (imageMetadata st)) (originalMetadata st)).

(** The rest of the inner [try] block, lines 207-244: cleanup, and the
    update that reports the results. *)
Definition assemble (id : string) (startTime : Z) (inputBuffer originalName : string)
    (st : staged) : prog unit :=
  let* _ := cleanupTempFiles
              [tempOriginal id; tempThumb id originalName; tempFull id originalName] in
  let* now := perform DateNow in
  let processingTime := now - startTime in
  let* thumbData := perform (BufferToBase64 (finalThumbnailBuffer st)) in
  let* fullData := perform (BufferToBase64 (finalFullSizeBuffer st)) in
  let* _ := JobService.updateJobStatus id
              (success originalName inputBuffer thumbData fullData st processingTime) in
  perform (Log "info" ("Job " +:+ id +:+ " completed successfully")).

(** The inner [try] block of [processJob], lines 100-244. *)
Definition convert (id : string) (startTime : Z) (inputBuffer originalName : string)
    : prog unit :=
  let* st := stages id inputBuffer originalName in
  assemble id startTime inputBuffer originalName st.

(** The outer [try] block of [processJob], lines 69-249. *)
Definition attempt (job : obj) (startTime : Z) : prog unit :=
  let id := js_to_string (job !! "id") in
  let* _ := JobService.updateJobStatus id {["status" := VStr "processing"]} in
  let* inputBuffer := bufferFrom (job !! "imageData") in
  let* e := perform (ExistsSync tempDir) in
  let* _ := (if negb e then call (MkdirSync tempDir) else Ret tt) in
  let* originalName := parseName (job !! "originalName") in
  try_catch
    (convert id startTime inputBuffer originalName)
    (fun conversionError =>
       let* _ := cleanupTempFiles
                   [tempOriginal id; tempThumb id originalName; tempFull id originalName] in
       Throw conversionError).

Definition processJob (job : obj) : prog unit :=
  let* startTime := perform DateNow in
  let* _ := perform (Log "info" ("Processing job " +:+ js_to_string (job !! "id"))) in
  try_catch
    (attempt job startTime)
    (fun error =>
       let* _ := perform (Log "error" ("Job " +:+ js_to_string (job !! "id") +:+ " failed:")) in
       let* now := perform DateNow in
       let* _ := JobService.updateJobStatus (js_to_string (job !! "id"))
                   (failed error (now - startTime)) in
       Ret tt).

(** One turn of the [while] loop of [start]. *)
Definition iteration : prog unit :=
  try_catch
    (let* job := JobService.getNextJob in
     match job with
     | None => Ret tt
     | Some job => processJob job
     end)
    (fun error => perform (Log "error" "Worker error:")).

(** [while (this.isRunning) { ... }], for at most [n] turns. *)
Fixpoint loop (n : nat) : prog unit :=
  match n with
  | O => Ret tt
  | S n' =>
      let* r := perform GetRunning in
      if r then let* _ := iteration in loop n' else Ret tt
  end.

Definition start (n : nat) : prog unit :=
  let* r := perform GetRunning in
  if r then perform (Log "warn" "Worker already running") else
  let* _ := perform (SetRunning true) in
  let* _ := perform (Log "info" "Starting conversion worker") in
  loop n.

Definition stop : prog unit :=
  let* _ := perform (SetRunning false) in
  perform (Log "info" "Stopping conversion worker").


(** The temporary files of a job: [[tempOriginal, tempThumb, tempFull]]. *)
Definition tempFiles (id originalName : string) : list string :=
  [tempOriginal id; tempThumb id originalName; tempFull id originalName].

End ConversionWorker.

(** ** Interleaving *)

(** The commands at which an [async] function is suspended: other tasks of
    the process, and other clients of the Redis server, run there. *)
Definition suspends {X} (c : cmd X) : bool :=
  match c with
  | ClientSetEx _ _ _ | ClientSet _ _ | ClientGet _ | ClientDel _
  | ClientLPush _ _ | ClientBrPop _ _ | Await _ => true
  | _ => false
  end.

(** [run_env env p w] runs [p] like [run], except that the environment acts
    on the world while [p] is suspended: its next action, if it has one
    left, takes place just before the awaited command does. *)
Fixpoint run_env {A} (env : list (world -> world)) (p : prog A) (w : world)
    : outcome A * world :=
  match p with
  | Ret a => (Done a, w)
  | Throw e => (Failed e, w)
  | Op c k =>
      let '(env', w1) :=
        if suspends c then
          match env with
          | [] => ([], w)
          | f :: env' => (env', f w)
          end
        else (env, w) in
      match handle c w1 with
      | Some (x, w') => run_env env' (k x) w'
      | None => (Stuck, w1)
      end
  end.

(** What another task does to the world by running [p] to its end. *)
Definition meanwhile {A} (p : prog A) : world -> world :=
  fun w => snd (run p w).

(** ** Specifications *)

Definition triple {A} (P : world -> Prop) (p : prog A)
    (Q : outcome A -> world -> Prop) : Prop :=
  forall w, P w -> Q (fst (run p w)) (snd (run p w)).

(** [within G p]: every command [p] can issue, whatever the answers, is one
    that [G] allows. *)
Inductive within (G : forall X, cmd X -> bool) {A} : prog A -> Prop :=
| within_Ret a : within G (Ret a)
| within_Throw e : within G (Throw e)
| within_Op X (c : cmd X) k :
    G X c = true -> (forall x, within G (k x)) -> within G (Op c k).

(** [catches p]: no exception leaves [p]. *)
Inductive catches {A} : prog A -> Prop :=
| catches_Ret a : catches (Ret a)
| catches_Op X (c : cmd X) k : (forall x, catches (k x)) -> catches (Op c k).

(** Commands that leave the Redis server, the client and the identifier
    supply alone. *)
Definition quiet X (c : cmd X) : bool :=
  match c with
  | ClientSetEx _ _ _ | ClientSet _ _ | ClientGet _ | ClientDel _
  | ClientLPush _ _ | ClientBrPop _ _ | Uuidv4 => false
  | _ => true
  end.

(** Commands that create or change files only at the paths [S]. *)
Definition files_in (S : list string) X (c : cmd X) : bool :=
  match c with
  | WriteFileSync path _ | ExiftoolWrite path _ => bool_decide (path ∈ S)
  | _ => true
  end.

(** Commands that never wait for a promise that may not settle. *)
Definition prompt X (c : cmd X) : bool :=
  match c with
  | @Await _ Never => false
  | _ => true
  end.

(** The Redis server, the identifier supply and the libraries of [w] are
    those of [w0]. *)
Definition same_server (w0 w : world) : Prop :=
  store w = store w0 /\ lists w = lists w0 /\ aof w = aof w0 /\
  uuid_count w = uuid_count w0 /\ lib w = lib w0.

(** ... and so is the state of the client. *)
Definition same_redis (w0 w : world) : Prop :=
  same_server w0 w /\ connected w = connected w0 /\ faults w = faults w0.

Definition is_file (n : option node) : Prop :=
  exists data, n = Some (File data).

(** Every file of [w] outside [S] is a file of [w0], with the same bytes. *)
Definition no_new_files (S : list string) (w0 w : world) : Prop :=
  forall path data,
    path ∉ S -> fs w !! path = Some (File data) -> fs w0 !! path = Some (File data).

Definition no_files_at (S : list string) (w : world) : Prop :=
  forall path, path ∈ S -> ~ is_file (fs w !! path).

(** The two operations that are awaited without a timer settle, whatever
    their input. *)
Definition responsive (L : libs) : Prop :=
  forall input, exiftool_read L input <> Never /\ jimp_read L input <> Never.

(** A program that comes to an end in every world whose libraries are
    responsive. *)
Definition settles {A} (p : prog A) : Prop :=
  forall w, responsive (lib w) -> fst (run p w) <> Stuck.

(** ** Timeouts *)

(** The promise does not settle within [ms] milliseconds. *)
Definition exceeds {X} (p : promise X) (ms : Z) : Prop :=
  match p with
  | Settles d _ => ms < d
  | Never => True
  end.

(** The promise is fulfilled with [x] within [ms] milliseconds. *)
Definition in_time {X} (p : promise X) (ms : Z) (x : X) : Prop :=
  exists d, p = Settles d (inr x) /\ d <= ms.

(** The message of the error [withTimeout] rejects with. *)
Definition timed_out (description : string) (ms : Z) : string :=
  description +:+ " timed out after " +:+ pretty ms +:+ "ms".

(** The promise of the thumbnail, as [thumbnailTask] computes it. *)
Definition thumbnailPromise (L : libs) (image : jimp) : promise string :=
  match jimp_getBuffer L (jimp_scaleToFit L image 200 200) with
  | Settles d (inr thumbBuffer) =>
      ConversionWorker.delay d (imagemin_avif L thumbBuffer 80 4)
  | Settles d (inl e) => Settles d (inl e)
  | Never => Never
  end.

(** The world in which the metadata of the variants is written. *)
Definition variants_written (id originalName thumbnailBuffer fullSizeBuffer : string)
    (d1 d2 : Z) (w : world) : world :=
  set_fs <[ConversionWorker.tempFull id originalName := File fullSizeBuffer]>
    (set_fs <[ConversionWorker.tempThumb id originalName := File thumbnailBuffer]>
       (set_clock (fun t => t + d2) (set_clock (fun t => t + d1) w))).

(** The run has not returned: it has thrown, or is stuck. *)
Definition unfinished {A} (o : outcome A) : Prop :=
  match o with
  | Done _ => False
  | _ => True
  end.

(** ** Job records *)

Definition processing : option value := Some (VStr "processing").

(** A status is terminal when it is [completed] or [failed]. *)
Definition terminal (s : option value) : Prop :=
  s = Some (VStr "completed") \/ s = Some (VStr "failed").

(** [results] is there exactly when the status is [completed], [error]
    exactly when it is [failed]. *)
Definition exclusive (r : obj) : Prop :=
  (is_Some (r !! "results") <-> r !! "status" = Some (VStr "completed")) /\
  (is_Some (r !! "error") <-> r !! "status" = Some (VStr "failed")).

(** The statuses written under [key], oldest first. *)
Fixpoint history (key : string) (l : list effect) : list (option value) :=
  match l with
  | [] => []
  | Wrote k v _ :: l' =>
      if String.eqb k key then (v !! "status") :: history key l'
      else history key l'
  | _ :: l' => history key l'
  end.

(** The store is reachable and answers every command. *)
Definition healthy (w : world) : Prop :=
  connected w = true /\ faults w = [].

(** ** What the job service writes *)

(** [{ ...job, ...updates, updatedAt: now }] *)
Definition merged (job updates : obj) (now : string) : obj :=
  <["updatedAt" := VStr now]> (updates ∪ job).

Definition updated (id : string) (r : obj) (w : world) : world :=
  set_aof (fun l => l ++ [Wrote (JobService.jobKey id) r (Some 86400)])
    (set_store <[JobService.jobKey id := (r, Some 86400)]> w).

(** The record [createJob] builds in the world [w]. *)
Definition created (jobData : obj) (w : world) : obj :=
  jobData ∪ JobService.defaults (uuid_of (lib w) (uuid_count w))
              (toISOString (lib w) (clock w)) (toISOString (lib w) (clock w)).

Definition enqueued (jobData : obj) (w : world) : world :=
  let id := uuid_of (lib w) (uuid_count w) in
  set_aof (fun l => l ++ [Pushed JobService.queueKey {| jobId := id |}])
    (set_lists <[JobService.queueKey :=
                   {| jobId := id |} :: list_at JobService.queueKey w]>
       (set_aof (fun l => l ++ [Wrote (JobService.jobKey id) (created jobData w) (Some 86400)])
          (set_store <[JobService.jobKey id := (created jobData w, Some 86400)]>
             (set_uuid_count S w)))).

(** ** What the worker writes *)

(** The record of the job with the status [processing]. *)
Definition started (r : obj) (w : world) : obj :=
  merged r {["status" := VStr "processing"]} (toISOString (lib w) (clock w)).

(** The world in which the inner [try] block of [processJob] begins, when
    the job was started in [w]: the record says [processing] and the
    directory of the temporary files exists. *)
Definition entering (id : string) (r : obj) (w : world) : world :=
  if bool_decide (is_Some (fs w !! ConversionWorker.tempDir))
  then updated id (started r w) w
  else set_fs <[ConversionWorker.tempDir := Dir]> (updated id (started r w) w).

(** The world after the report of a failure in [w]. *)
Definition reported_failure (id : string) (r : obj) (e : string) (startTime : Z)
    (w : world) : world :=
  updated id
    (merged r (ConversionWorker.failed e (clock w - startTime))
       (toISOString (lib w) (clock w))) w.

(** The world after the report of the results in [w]. *)
Definition reported_success (id : string) (r : obj) (inputBuffer originalName : string)
    (st : ConversionWorker.staged) (startTime : Z) (w : world) : world :=
  updated id
    (merged r
       (ConversionWorker.success originalName inputBuffer
          (base64_encode (lib w) (ConversionWorker.finalThumbnailBuffer st))
          (base64_encode (lib w) (ConversionWorker.finalFullSizeBuffer st))
          st (clock w - startTime))
       (toISOString (lib w) (clock w))) w.

(** [w'] is [w] after the write of the record [r] of the job [id]. *)
Definition wrote (id : string) (r : obj) (w w' : world) : Prop :=
  store w' = <[JobService.jobKey id := (r, Some 86400)]> (store w) /\
  lists w' = lists w /\
  aof w' = aof w ++ [Wrote (JobService.jobKey id) r (Some 86400)] /\
  uuid_count w' = uuid_count w /\ lib w' = lib w.

(** The updates of [processJob]. *)
Definition toProcessing : obj := {["status" := VStr "processing"]}.

Definition reports_success (u : obj) : Prop :=
  exists processingTime r, u = ConversionWorker.completed processingTime r.

Definition reports_failure (u : obj) : Prop :=
  exists message processingTime, u = ConversionWorker.failed message processingTime.

(** ** The system *)

(** What [POST /convert] passes to [createJob] (server.js). *)
Definition request (originalName imageData : string) (fileSize : Z)
    (requestId : string) : obj :=
  <["originalName" := VStr originalName]> (<["imageData" := VStr imageData]>
    (<["fileSize" := VNum fileSize]> (<["requestId" := VStr requestId]> ∅))).

(** What happens outside the job service: the connection drops or comes
    back, commands start or stop failing, files, the clock and the
    libraries change; the Redis server and the supply of identifiers stay. *)
Definition elsewhere (w w' : world) : Prop :=
  store w' = store w /\ lists w' = lists w /\ aof w' = aof w /\
  uuid_count w' = uuid_count w /\ uuid_of (lib w') = uuid_of (lib w).

(** The worlds the service can be in: it starts on an empty Redis server,
    with identifiers that do not repeat; then requests come in, the status
    of jobs is polled, the worker takes its turns, records expire. *)
Inductive reachable : world -> Prop :=
| reach_start w :
    store w = ∅ -> lists w = ∅ -> aof w = [] ->
    Inj (=) (=) (uuid_of (lib w)) ->
    reachable w
| reach_elsewhere w w' :
    reachable w -> elsewhere w w' -> reachable w'
| reach_expire w key :
    reachable w -> reachable (set_store (delete key) w)
| reach_convert w originalName imageData fileSize requestId :
    reachable w ->
    reachable (snd (run (JobService.createJob
                           (request originalName imageData fileSize requestId)) w))
| reach_status w id :
    reachable w -> reachable (snd (run (JobService.getJobStatus id) w))
| reach_work w :
    reachable w -> reachable (snd (run ConversionWorker.iteration w)).

(** A record that has not reached a terminal state: no results, no error. *)
Definition unsettled (r : obj) : Prop :=
  r !! "results" = None /\ r !! "error" = None /\ ~ terminal (r !! "status").

(** The entries of the work queue, newest first. *)
Definition queue (w : world) : list entry := list_at JobService.queueKey w.

(** What holds of every reachable world. *)
Definition consistent (w : world) : Prop :=
  Inj (=) (=) (uuid_of (lib w)) /\
  (forall k r t,
     store w !! k = Some (r, t) ->
     exists i, (i < uuid_count w)%nat /\
               k = JobService.jobKey (uuid_of (lib w) i) /\
               r !! "id" = Some (VStr (uuid_of (lib w) i)) /\
               exclusive r) /\
  (forall e, e ∈ queue w ->
     exists i, (i < uuid_count w)%nat /\ jobId e = uuid_of (lib w) i) /\
  NoDup (queue w) /\
  (forall e r t,
     e ∈ queue w -> store w !! JobService.jobKey (jobId e) = Some (r, t) ->
     unsettled r) /\
  (forall k r t, In (Wrote k r t) (aof w) -> exclusive r).

(** ** Producers and consumers of a queue *)

(** A producer pushing the entries [es] one after the other. *)
Fixpoint pushAll (key : string) (es : list entry) : prog unit :=
  match es with
  | [] => Ret tt
  | e :: es' => let* _ := RedisService.lpush key e in pushAll key es'
  end.

(** A consumer popping [n] times, with what each pop returned. *)
Fixpoint popMany (key : string) (timeout : Z) (n : nat) : prog (list (option entry)) :=
  match n with
  | O => Ret []
  | S n' =>
      let* e := RedisService.brpop key timeout in
      let* es := popMany key timeout n' in
      Ret (e :: es)
  end.

(** ** Provenance metadata *)

Definition gpsFields : list string :=
  ["GPSLatitude"; "GPSLongitude"; "GPSLatitudeRef"; "GPSLongitudeRef"].

(** Both coordinates are present in the original's metadata. *)
Definition hasCoordinates (originalMetadata : obj) : Prop :=
  is_Some (originalMetadata !! "GPSLatitude") /\
  is_Some (originalMetadata !! "GPSLongitude").

Definition is_Some_dec {A} (o : option A) : bool :=
  match o with
  | Some _ => true
  | None => false
  end.

(** ** server.js *)

Module Server.

(** [req.file], as multer's memory storage leaves it. *)
Record file := { originalname : string; buffer : string; size : Z }.

(** What a handler sends: [res.status(statusCode).json(body)]; the status
    is 200 when the handler sets none. *)
Record response := { statusCode : Z; body : obj }.

(** The body [res.json] sends for an object literal with distinct keys: a
    property whose value is [undefined] is left out by [JSON.stringify]. *)
Fixpoint json (fields : list (string * option value)) : obj :=
  match fields with
  | [] => ∅
  | (k, Some v) :: l => <[k := v]> (json l)
  | (_, None) :: l => json l
  end.

(** [`req_${Date.now()}_${Math.random().toString(36).substr(2, 9)}`]; the
    digits drawn from [Math.random] are given. *)
Definition requestId (now : Z) (random : string) : string :=
  "req_" +:+ pretty now +:+ "_" +:+ random.

(** [POST /convert], lines 510-573. *)
Definition postConvert (reqFile : option file) (random : string) : prog response :=
  let* startTime := perform DateNow in
  let* now := perform DateNow in
  let requestId := requestId now random in
  let* _ := perform (Log "info" "Conversion request received") in
  try_catch
    (match reqFile with
     | None =>
         Ret {| statusCode := 400;
                body := json [("error", Some (VStr "No image file provided"))] |}
     | Some f =>
         let* c := RedisService.isConnected in
         if negb c then
           Ret {| statusCode := 503;
                  body := json [("error", Some (VStr "Service temporarily unavailable - job queue not ready"))] |}
         else
         let* imageData := perform (BufferToBase64 (buffer f)) in
         let* job := JobService.createJob
                       (request (originalname f) imageData (size f) requestId) in
         let* finish := perform DateNow in
         let processingTime := finish - startTime in
         let* _ := perform (Log "info" "Job created successfully") in
         Ret {| statusCode := 200;
                body := json [("success", Some (VBool true));
                              ("jobId", job !! "id");
                              ("status", Some (VStr "queued"));
                              ("message", Some (VStr "Image queued for conversion"));
                              ("processingTime", Some (VNum processingTime));
                              ("statusUrl",
                               Some (VStr ("/status/" +:+ js_to_string (job !! "id"))))] |}
     end)
    (fun error =>
       let* finish := perform DateNow in
       let processingTime := finish - startTime in
       let* _ := perform (Log "error" "Failed to create conversion job") in
       Ret {| statusCode := 500;
              body := json [("success", Some (VBool false));
                            ("error", Some (VStr error));
                            ("processingTime", Some (VNum processingTime))] |}).

(** [GET /status/:jobId], lines 576-619. *)
Definition getStatus (jobId : string) : prog response :=
  try_catch
    (let* c := RedisService.isConnected in
     if negb c then
       Ret {| statusCode := 503;
              body := json [("error", Some (VStr "Service temporarily unavailable - job queue not ready"))] |}
     else
     let* job := JobService.getJobStatus jobId in
     match job with
     | None =>
         Ret {| statusCode := 404;
                body := json [("success", Some (VBool false));
                              ("error", Some (VStr "Job not found"))] |}
     | Some job =>
         Ret {| statusCode := 200;
                body := json [("success", Some (VBool true));
                              ("jobId", job !! "id");
                              ("status", job !! "status");
                              ("createdAt", job !! "createdAt");
                              ("updatedAt", job !! "updatedAt");
                              ("processingTime", job !! "processingTime");
                              ("results", job !! "results");
                              ("error", job !! "error")] |}
     end)
    (fun error =>
       let* _ := perform (Log "error" "Failed to get job status") in
       Ret {| statusCode := 500;
              body := json [("success", Some (VBool false));
                            ("error", Some (VStr error))] |}).

End Server.

(** ** Files a job may touch *)

(** Commands that create, change or remove entries of the file system only
    at the paths [S]. *)
Definition touches (S : list string) X (c : cmd X) : bool :=
  match c with
  | MkdirSync path | WriteFileSync path _ | UnlinkSync path
  | ExiftoolWrite path _ => bool_decide (path ∈ S)
  | _ => true
  end.

(** Outside the paths [S] the file system of [w] is that of [w0]. *)
Definition same_files_outside (S : list string) (w0 w : world) : Prop :=
  forall path, path ∉ S -> fs w !! path = fs w0 !! path.

(** The directory of the temporary files and the three temporary files of
    [job], as [processJob] names them in [w]. *)
Definition paths (job : obj) (w : world) : list string :=
  ConversionWorker.tempDir ::
  match job !! "originalName" with
  | Some (VStr name) =>
      ConversionWorker.tempFiles (js_to_string (job !! "id"))
        (path_parse_name (lib w) name)
  | _ => []
  end.

(** The three tags that carry a timestamp, in the order [processJob] tries
    them. *)
Definition timestampFields : list string :=
  ["DateTimeOriginal"; "DateTime"; "CreateDate"].

(** Every tag [processJob] can hand to [exiftool.write]. *)
Definition preservedFields : list string :=
  ["ImageWidth"; "ImageHeight"] ++ timestampFields ++ gpsFields.

(** The keys of the body of a [GET /status/:jobId] answer. *)
Definition statusFields : list string :=
  ["success"; "jobId"; "status"; "createdAt"; "updatedAt"; "processingTime";
   "results"; "error"].

(** The value an object literal gives to the property [k]. *)
Fixpoint field (k : string) (fields : list (string * option value)) : option value :=
  match fields with
  | [] => None
  | (k', v) :: l => if String.eqb k' k then v else field k l
  end.

(** Commands that leave the flag [isRunning] of the worker alone. *)
Definition keeps_flag X (c : cmd X) : bool :=
  match c with
  | SetRunning _ => false
  | _ => true
  end.

(** Every entry of the queue has its record, under the [id] of the entry. *)
Definition queue_has_records (w : world) : Prop :=
  forall e, e ∈ queue w ->
    exists r t, store w !! JobService.jobKey (jobId e) = Some (r, t) /\
                r !! "id" = Some (VStr (jobId e)).

(** ** A sample world *)

Module Sample.

Definition tags : obj :=
  <["DateTimeOriginal" := VStr "2024:05:01 10:00:00"]>
    (<["Make" := VStr "Canon"]> ∅).

Definition libraries : libs := {|
  toISOString := pretty;
  uuid_of := fun n => "job-" +:+ pretty n;
  base64_decode := fun s => s;
  base64_encode := fun s => s;
  path_parse_name := fun s => "photo";
  exiftool_read := fun _ => Settles 5 (inr tags);
  jimp_read := fun b =>
    Settles 20 (inr {| getWidth := 4000; getHeight := 3000; bitmap := b |});
  jimp_scaleToFit := fun img w h =>
    {| getWidth := 200; getHeight := 150; bitmap := bitmap img |};
  jimp_getBuffer := fun img => Settles 10 (inr (bitmap img));
  imagemin_avif := fun b q e => Settles 900 (inr ("avif" +:+ pretty q +:+ ":" +:+ b));
  exiftool_write := fun d t => Settles 50 (inr d)
|}.

Definition empty : world := {|
  store := ∅; lists := ∅; aof := [];
  connected := true; faults := [];
  fs := ∅; clock := 0; isRunning := false; uuid_count := 0;
  lib := libraries
|}.

(** What [POST /convert] passes to [createJob]. *)
Definition jobData : obj := request "photo.jpg" "abc" 3 "req_1".

Definition submitted : world := snd (run (JobService.createJob jobData) empty).

Definition job : obj :=
  jobData ∪ JobService.defaults "job-0" "0" "0".

(** The job above after the worker has handled it. *)
Definition finished : world := snd (run ConversionWorker.iteration submitted).

Definition toProcessing : obj := {["status" := VStr "processing"]}.

(** Another task deletes the record while an update of it is suspended
    between its read and its write. *)
Definition deletion : list (world -> world) :=
  [fun w => w; meanwhile (JobService.deleteJob "job-0")].

(** The tags of a photograph taken on the equator, at 0° N 32° E. *)
Definition equator : obj :=
  <["GPSLatitude" := VNum 0]> (<["GPSLongitude" := VNum 32]>
    (<["GPSLatitudeRef" := VStr "N"]> (<["GPSLongitudeRef" := VStr "E"]> tags))).

(** The tags of a photograph taken at 48° N 2° E. *)
Definition paris : obj :=
  <["GPSLatitude" := VNum 48]> (<["GPSLongitude" := VNum 2]>
    (<["GPSLatitudeRef" := VStr "N"]> (<["GPSLongitudeRef" := VStr "E"]> tags))).

(** The store rejects the reads of both updates of [processJob]: the
    third and the fourth command of the iteration. *)
Definition flaky : world :=
  set_faults (fun _ => [None; None; Some "ECONNRESET"; Some "ECONNRESET"]) submitted.

Definition with_exiftool_read (f : string -> promise obj) (L : libs) : libs :=
  {| toISOString := toISOString L; uuid_of := uuid_of L;
     base64_decode := base64_decode L; base64_encode := base64_encode L;
     path_parse_name := path_parse_name L;
     exiftool_read := f;
     jimp_read := jimp_read L; jimp_scaleToFit := jimp_scaleToFit L;
     jimp_getBuffer := jimp_getBuffer L; imagemin_avif := imagemin_avif L;
     exiftool_write := exiftool_write L |}.

Definition with_imagemin_avif (f : string -> Z -> Z -> promise string) (L : libs) : libs :=
  {| toISOString := toISOString L; uuid_of := uuid_of L;
     base64_decode := base64_decode L; base64_encode := base64_encode L;
     path_parse_name := path_parse_name L;
     exiftool_read := exiftool_read L;
     jimp_read := jimp_read L; jimp_scaleToFit := jimp_scaleToFit L;
     jimp_getBuffer := jimp_getBuffer L; imagemin_avif := f;
     exiftool_write := exiftool_write L |}.

Definition with_exiftool_write (f : string -> tagset -> promise string) (L : libs) : libs :=
  {| toISOString := toISOString L; uuid_of := uuid_of L;
     base64_decode := base64_decode L; base64_encode := base64_encode L;
     path_parse_name := path_parse_name L;
     exiftool_read := exiftool_read L;
     jimp_read := jimp_read L; jimp_scaleToFit := jimp_scaleToFit L;
     jimp_getBuffer := jimp_getBuffer L; imagemin_avif := imagemin_avif L;
     exiftool_write := f |}.

(** exiftool never answers the read of the original. *)
Definition hung_extraction : world :=
  set_lib (with_exiftool_read (fun _ => Never)) submitted.

(** exiftool cannot read the original. *)
Definition failed_extraction : world :=
  set_lib (with_exiftool_read (fun _ => Settles 5 (inl "File format error"))) submitted.

(** The AVIF encoding of the thumbnail takes 45 seconds. *)
Definition slow_thumbnail : world :=
  set_lib (with_imagemin_avif (fun b q e =>
             if Z.eqb q 80 then Settles 45000 (inr ("avif80:" +:+ b))
             else Settles 900 (inr ("avif85:" +:+ b)))) submitted.

(** The AVIF encoding of the full-size variant takes 70 seconds. *)
Definition slow_full_size : world :=
  set_lib (with_imagemin_avif (fun b q e =>
             if Z.eqb q 85 then Settles 70000 (inr ("avif85:" +:+ b))
             else Settles 900 (inr ("avif80:" +:+ b)))) submitted.

(** Writing the metadata of the thumbnail takes 15 seconds. *)
Definition slow_thumbnail_write : world :=
  set_lib (with_exiftool_write (fun d t =>
             if String.eqb d "avif80:abc" then Settles 15000 (inr d)
             else Settles 50 (inr d))) submitted.

(** Writing the metadata of the full-size variant never ends. *)
Definition hung_full_size_write : world :=
  set_lib (with_exiftool_write (fun d t =>
             if String.eqb d "avif85:abc" then Never
             else Settles 50 (inr d))) submitted.

(** The status and the error of the record of the sample job. *)
Definition outcome_of (w : world) : option value * option value * option value :=
  match store w !! JobService.jobKey "job-0" with
  | Some (r, _) => (r !! "status", r !! "error", r !! "results")
  | None => (None, None, None)
  end.

End Sample.

(** ** Taking a job, and a job that hangs ahead of another *)




(** ** What is handed to exiftool, and the names of the temporary files *)

(** Commands that hand [exiftool.write] no tag but those of [fields]. *)
Definition writes_only (fields : list string) X (c : cmd X) : bool :=
  match c with
  | ExiftoolWrite _ tags => bool_decide (map_Forall (fun k _ => k ∈ fields) tags)
  | _ => true
  end.

(** A name under which a file can be created in a directory: not empty,
    of at most 255 bytes, without a slash and without a NUL byte. *)
Definition valid_file_name (name : string) : bool :=
  negb (String.eqb name "")
  && Nat.leb (String.length name) 255
  && match String.index 0 "/" name with Some _ => false | None => true end
  && match String.index 0 (String Ascii.zero "") name with
     | Some _ => false
     | None => true
     end.

(** The names of the three temporary files of a job in the directory of
    the temporary files, as [processJob] builds them from the [id] of the
    job and the name of the upload: [`${job.id}_original.jpg`],
    [`${job.id}_${originalName}_thumb.avif`] and
    [`${job.id}_${originalName}.avif`]. *)
Definition tempNames (id originalName : string) : list string :=
  [id +:+ "_original.jpg";
   id +:+ "_" +:+ originalName +:+ "_thumb.avif";
   id +:+ "_" +:+ originalName +:+ ".avif"].

(** * Properties *)

(** ** Running programs *)

Lemma run_bind {A B} (p : prog A) (f : A -> prog B) w :
  run (bind p f) w =
  match run p w with
  | (Done a, w') => run (f a) w'
  | (Failed e, w') => (Failed e, w')
  | (Stuck, w') => (Stuck, w')
  end.
Proof.
  revert w. induction p as [a|e|X c k IH]; intros w; simpl; try reflexivity.
  destruct (handle c w) as [[x w']|]; [apply IH | reflexivity].
Qed.

Lemma run_try_catch {A} (p : prog A) (h : string -> prog A) w :
  run (try_catch p h) w =
  match run p w with
  | (Failed e, w') => run (h e) w'
  | r => r
  end.
Proof.
  revert w. induction p as [a|e|X c k IH]; intros w; simpl; try reflexivity.
  destruct (handle c w) as [[x w']|]; [apply IH | reflexivity].
Qed.

Lemma run_perform {X} (c : cmd X) w :
  run (perform c) w =
  match handle c w with
  | Some (x, w') => (Done x, w')
  | None => (Stuck, w)
  end.
Proof. unfold perform. simpl. destruct (handle c w) as [[x w']|]; reflexivity. Qed.

Lemma run_call {X} (c : cmd (res X)) w :
  run (call c) w =
  match handle c w with
  | Some (inr x, w') => (Done x, w')
  | Some (inl e, w') => (Failed e, w')
  | None => (Stuck, w)
  end.
Proof.
  unfold call. simpl. destruct (handle c w) as [[[e|x] w']|]; reflexivity.
Qed.

Ltac world_simpl :=
  cbn [store lists aof connected faults fs clock isRunning uuid_count lib
       set_store set_lists set_aof set_connected set_faults set_fs set_clock
       set_isRunning set_uuid_count fst snd] in *.

(** ** The Redis service on a healthy store *)

Lemma client_healthy {X} w (k : world -> X * world) :
  faults w = [] -> client w k = Some (inr (fst (k w)), snd (k w)).
Proof.
  intros Hf. unfold client, next_fault. rewrite Hf. destruct (k w); reflexivity.
Qed.

Lemma run_isConnected w :
  run RedisService.isConnected w = (Done (connected w), w).
Proof. reflexivity. Qed.

Lemma run_getClient w :
  connected w = true -> run RedisService.getClient w = (Done tt, w).
Proof. intros H. unfold RedisService.getClient. simpl. rewrite H. reflexivity. Qed.

Ltac step :=
  first [ rewrite run_bind | rewrite run_try_catch | rewrite run_isConnected
        | rewrite run_getClient by (world_simpl; assumption)
        | rewrite run_call | rewrite run_perform ];
  cbv beta iota.

Lemma run_set_healthy w key v t :
  healthy w -> t <> 0 ->
  run (RedisService.set key v (Some t)) w =
  (Done tt, set_aof (fun l => l ++ [Wrote key v (Some t)])
              (set_store <[key := (v, Some t)]> w)).
Proof.
  intros [Hc Hf] Ht. unfold RedisService.set. do 2 step.
  apply Z.eqb_neq in Ht. rewrite Ht. cbn [negb]. step.
  cbn [handle]. rewrite client_healthy by assumption. reflexivity.
Qed.

Lemma run_get_healthy w key :
  healthy w ->
  run (RedisService.get key) w = (Done (fst <$> store w !! key), w).
Proof.
  intros [Hc Hf]. unfold RedisService.get. do 4 step.
  cbn [handle]. rewrite client_healthy by assumption. cbn [fst snd].
  destruct (store w !! key) as [[v t]|]; reflexivity.
Qed.

Lemma run_del_healthy w key :
  healthy w ->
  run (RedisService.del key) w =
  (Done tt, set_aof (fun l => l ++ [Deleted key]) (set_store (delete key) w)).
Proof.
  intros [Hc Hf]. unfold RedisService.del. do 3 step.
  cbn [handle]. rewrite client_healthy by assumption. reflexivity.
Qed.

Lemma run_lpush_healthy w key e :
  healthy w ->
  run (RedisService.lpush key e) w =
  (Done tt, set_aof (fun l => l ++ [Pushed key e])
              (set_lists <[key := e :: list_at key w]> w)).
Proof.
  intros [Hc Hf]. unfold RedisService.lpush. do 3 step.
  cbn [handle]. rewrite client_healthy by assumption. reflexivity.
Qed.

Lemma run_brpop_empty w key timeout :
  healthy w -> list_at key w = [] ->
  run (RedisService.brpop key timeout) w =
  (Done None, set_clock (fun t => t + 1000 * timeout) w).
Proof.
  intros [Hc Hf] He. unfold RedisService.brpop. do 4 step.
  cbn [handle]. rewrite client_healthy by assumption. rewrite He. reflexivity.
Qed.

Lemma run_brpop_oldest w key timeout newer oldest :
  healthy w -> list_at key w = newer ++ [oldest] ->
  run (RedisService.brpop key timeout) w =
  (Done (Some oldest),
   set_aof (fun l => l ++ [Popped key oldest]) (set_lists <[key := newer]> w)).
Proof.
  intros [Hc Hf] He. unfold RedisService.brpop. do 4 step.
  cbn [handle]. rewrite client_healthy by assumption. rewrite He.
  rewrite rev_app_distr. cbn [rev app fst snd]. rewrite rev_involutive.
  reflexivity.
Qed.

Lemma healthy_same_redis w0 w : same_redis w0 w -> healthy w0 -> healthy w.
Proof. intros (_ & Hc & Hf) [H1 H2]. split; congruence. Qed.

Ltac steps :=
  repeat (first [ step | progress cbn [run negb handle] | progress world_simpl ];
          cbv beta iota).

Ltac solve_healthy :=
  unfold healthy in *; world_simpl; tauto.

(** ** The job service on a healthy store *)

Lemma run_getJobStatus_healthy w id :
  healthy w ->
  run (JobService.getJobStatus id) w =
  (Done (fst <$> store w !! JobService.jobKey id), w).
Proof.
  intros H. unfold JobService.getJobStatus. do 2 step.
  destruct H as [Hc Hf]. rewrite Hc. cbn [negb]. do 2 step.
  rewrite run_get_healthy by (split; assumption). cbv beta iota.
  destruct (store w !! JobService.jobKey id) as [[v t]|]; reflexivity.
Qed.

Lemma run_updateJobStatus_healthy w id updates job t :
  healthy w ->
  store w !! JobService.jobKey id = Some (job, t) ->
  run (JobService.updateJobStatus id updates) w =
  (Done (merged job updates (toISOString (lib w) (clock w))),
   updated id (merged job updates (toISOString (lib w) (clock w))) w).
Proof.
  intros H Hr. unfold JobService.updateJobStatus. do 2 step.
  destruct H as [Hc Hf]. rewrite Hc. cbn [negb]. do 2 step.
  rewrite run_getJobStatus_healthy by (split; assumption). rewrite Hr.
  cbn [fmap option_fmap option_map fst]. cbv beta iota. do 2 step.
  cbn [handle]. cbv beta iota. step.
  rewrite run_set_healthy by (try split; try assumption; lia).
  cbv beta iota. do 2 step. reflexivity.
Qed.

Lemma run_updateJobStatus_absent w id updates :
  healthy w ->
  store w !! JobService.jobKey id = None ->
  run (JobService.updateJobStatus id updates) w =
  (Failed ("Failed to update job status: Job " +:+ id +:+ " not found"), w).
Proof.
  intros H Hr. unfold JobService.updateJobStatus. do 2 step.
  destruct H as [Hc Hf]. rewrite Hc. cbn [negb]. do 2 step.
  rewrite run_getJobStatus_healthy by (split; assumption). rewrite Hr.
  cbn [fmap option_fmap option_map]. cbv beta iota. simpl. reflexivity.
Qed.

Lemma run_createJob_healthy w jobData :
  healthy w ->
  run (JobService.createJob jobData) w = (Done (created jobData w), enqueued jobData w).
Proof.
  intros [Hc Hf]. unfold JobService.createJob. steps.
  rewrite Hc. cbn [negb]. steps.
  rewrite run_set_healthy by (try split; world_simpl; try assumption; lia).
  steps.
  rewrite run_lpush_healthy by (split; world_simpl; assumption).
  steps. reflexivity.
Qed.

Lemma run_deleteJob_healthy w id :
  healthy w ->
  run (JobService.deleteJob id) w =
  (Done tt, set_aof (fun l => l ++ [Deleted (JobService.jobKey id)])
              (set_store (delete (JobService.jobKey id)) w)).
Proof.
  intros [Hc Hf]. unfold JobService.deleteJob. do 2 step. rewrite Hc.
  cbn [negb]. do 2 step. rewrite run_del_healthy by (split; assumption).
  cbv beta iota. step. reflexivity.
Qed.

Lemma run_getNextJob_empty w :
  healthy w -> list_at JobService.queueKey w = [] ->
  run JobService.getNextJob w = (Done None, set_clock (fun t => t + 1000 * 30) w).
Proof.
  intros [Hc Hf] He. unfold JobService.getNextJob. do 2 step. rewrite Hc.
  cbn [negb]. do 2 step. rewrite run_brpop_empty by (try split; assumption).
  reflexivity.
Qed.

Lemma run_getNextJob_oldest w newer oldest :
  healthy w -> list_at JobService.queueKey w = newer ++ [oldest] ->
  run JobService.getNextJob w =
  (Done (fst <$> store w !! JobService.jobKey (jobId oldest)),
   set_aof (fun l => l ++ [Popped JobService.queueKey oldest])
     (set_lists <[JobService.queueKey := newer]> w)).
Proof.
  intros [Hc Hf] He. unfold JobService.getNextJob. do 2 step. rewrite Hc.
  cbn [negb]. do 2 step.
  rewrite (run_brpop_oldest _ _ _ newer oldest) by (try split; assumption).
  cbv beta iota. step.
  rewrite run_getJobStatus_healthy by (split; world_simpl; assumption).
  world_simpl.
  destruct (store w !! JobService.jobKey (jobId oldest)) as [[v t]|]; reflexivity.
Qed.

(** ** The Redis service on any store *)

Lemma same_server_refl w : same_server w w.
Proof. repeat split. Qed.

Lemma same_server_trans w0 w1 w2 :
  same_server w0 w1 -> same_server w1 w2 -> same_server w0 w2.
Proof.
  intros (?&?&?&?&?) (?&?&?&?&?). repeat split; congruence.
Qed.

Lemma same_server_next_fault w : same_server w (snd (next_fault w)).
Proof.
  unfold next_fault. destruct (faults w); repeat split.
Qed.

Ltac client_cases :=
  cbn [handle]; unfold client, next_fault;
  match goal with
  | |- context [faults ?w] => destruct (faults w) as [|[?|] ?]
  end; world_simpl; cbv beta iota.

Ltac connected_cases :=
  match goal with
  | |- context [connected ?w] => destruct (connected w) eqn:?
  end; cbn [negb]; steps.

Ltac conclude :=
  let H := fresh in
  intros H; injection H as <- <-; world_simpl.

Lemma set_spec w key v t o w' :
  t <> 0 ->
  run (RedisService.set key v (Some t)) w = (o, w') ->
  (o = Done tt /\
   store w' = <[key := (v, Some t)]> (store w) /\ lists w' = lists w /\
   aof w' = aof w ++ [Wrote key v (Some t)] /\
   uuid_count w' = uuid_count w /\ lib w' = lib w) \/
  (exists e, o = Failed e /\ same_server w w').
Proof.
  intros Ht. apply Z.eqb_neq in Ht.
  unfold RedisService.set, RedisService.getClient.
  steps. rewrite Ht. connected_cases.
  - client_cases; conclude.
    + left. repeat split.
    + right. eexists. repeat split.
    + left. repeat split.
  - conclude. right. eexists. repeat split.
Qed.

Lemma get_spec w key o w' :
  run (RedisService.get key) w = (o, w') ->
  same_server w w' /\
  (o = Done (fst <$> store w !! key) \/ exists e, o = Failed e).
Proof.
  unfold RedisService.get, RedisService.getClient.
  steps. connected_cases.
  - client_cases; try destruct (store w !! key) as [[? ?]|];
      cbn [fmap option_fmap option_map fst]; steps; conclude;
      (split; [repeat split | eauto]).
  - conclude. split; [repeat split | eauto].
Qed.

Lemma del_spec w key o w' :
  run (RedisService.del key) w = (o, w') ->
  (o = Done tt /\
   store w' = delete key (store w) /\ lists w' = lists w /\
   aof w' = aof w ++ [Deleted key] /\
   uuid_count w' = uuid_count w /\ lib w' = lib w) \/
  (exists e, o = Failed e /\ same_server w w').
Proof.
  unfold RedisService.del, RedisService.getClient.
  steps. connected_cases.
  - client_cases; conclude.
    + left. repeat split.
    + right. eexists. repeat split.
    + left. repeat split.
  - conclude. right. eexists. repeat split.
Qed.

Lemma lpush_spec w key e o w' :
  run (RedisService.lpush key e) w = (o, w') ->
  (o = Done tt /\
   store w' = store w /\ lists w' = <[key := e :: list_at key w]> (lists w) /\
   aof w' = aof w ++ [Pushed key e] /\
   uuid_count w' = uuid_count w /\ lib w' = lib w) \/
  (exists e, o = Failed e /\ same_server w w').
Proof.
  unfold RedisService.lpush, RedisService.getClient.
  steps. connected_cases.
  - client_cases; conclude.
    + left. repeat split.
    + right. eexists. repeat split.
    + left. repeat split.
  - conclude. right. eexists. repeat split.
Qed.

Lemma brpop_spec w key timeout o w' :
  run (RedisService.brpop key timeout) w = (o, w') ->
  (o = Done None /\ list_at key w = [] /\ same_server w w') \/
  (exists newer oldest,
     o = Done (Some oldest) /\ list_at key w = newer ++ [oldest] /\
     store w' = store w /\ lists w' = <[key := newer]> (lists w) /\
     aof w' = aof w ++ [Popped key oldest] /\
     uuid_count w' = uuid_count w /\ lib w' = lib w) \/
  (exists e, o = Failed e /\ same_server w w').
Proof.
  unfold RedisService.brpop, RedisService.getClient.
  steps. connected_cases.
  - assert (Hrev : forall l : list entry,
               rev l = [] /\ l = [] \/
               exists older e, rev l = e :: older /\ l = rev older ++ [e]).
    { intros l. destruct (rev l) as [|e older] eqn:E.
      - left. split; [reflexivity|]. apply (f_equal (@rev _)) in E.
        rewrite rev_involutive in E. exact E.
      - right. exists older, e. split; [reflexivity|].
        apply (f_equal (@rev _)) in E. rewrite rev_involutive in E. exact E. }
    client_cases;
      try (unfold list_at at 1; world_simpl;
           destruct (Hrev (default [] (lists w !! key))) as [[-> E]|(older & e & -> & E)];
           steps; conclude).
    + left. repeat split. exact E.
    + right; left. exists (rev older), e. repeat split. exact E.
    + conclude. right; right. eexists. repeat split.
    + left. repeat split. exact E.
    + right; left. exists (rev older), e. repeat split. exact E.
  - conclude. right; right. eexists. repeat split.
Qed.

(** ** The job service on any store *)

Ltac run_cases lem :=
  match goal with
  | |- context [run ?p ?w] =>
      let o := fresh "o" in
      let w1 := fresh "w" in
      let E := fresh "E" in
      destruct (run p w) as [o w1] eqn:E; apply lem in E
  end.

Lemma getJobStatus_spec w id o w' :
  run (JobService.getJobStatus id) w = (o, w') ->
  same_server w w' /\
  (o = Done (fst <$> store w !! JobService.jobKey id) \/ exists e, o = Failed e).
Proof.
  unfold JobService.getJobStatus. steps. connected_cases.
  - run_cases get_spec. destruct E as [Hs [-> | [e ->]]].
    + destruct (store w !! JobService.jobKey id) as [[? ?]|];
        cbn [fmap option_fmap option_map fst]; steps; conclude; eauto.
    + steps. conclude. eauto.
  - conclude. split; [repeat split | eauto].
Qed.

Lemma updateJobStatus_spec w id updates o w' :
  run (JobService.updateJobStatus id updates) w = (o, w') ->
  (exists job t now,
     store w !! JobService.jobKey id = Some (job, t) /\
     o = Done (merged job updates now) /\
     store w' = <[JobService.jobKey id := (merged job updates now, Some 86400)]> (store w) /\
     lists w' = lists w /\
     aof w' = aof w ++ [Wrote (JobService.jobKey id) (merged job updates now) (Some 86400)] /\
     uuid_count w' = uuid_count w /\ lib w' = lib w) \/
  (exists e, o = Failed e /\ same_server w w').
Proof.
  unfold JobService.updateJobStatus. steps. connected_cases.
  - run_cases getJobStatus_spec. destruct E as [Hs [-> | [e ->]]].
    + destruct (store w !! JobService.jobKey id) as [[job t]|] eqn:Hr;
        cbn [fmap option_fmap option_map fst]; steps.
      * run_cases set_spec; [|lia].
        destruct Hs as (Hs1 & Hs2 & Hs3 & Hs4 & Hs5).
        destruct E as [(-> & E1 & E2 & E3 & E4 & E5) | (e & -> & E)]; steps; conclude.
        -- left. exists job, t. eexists. split; [reflexivity|].
           split; [reflexivity|]. unfold merged.
           rewrite E1, E2, E3, Hs1, Hs2, Hs3.
           repeat split; etransitivity; eassumption.
        -- right. eexists. split; [reflexivity|].
           eapply same_server_trans; [|exact E]. repeat split; assumption.
      * conclude. right. eexists. split; [reflexivity | exact Hs].
    + steps. conclude. right. eexists. split; [reflexivity | exact Hs].
  - conclude. right. eexists. split; [reflexivity | repeat split].
Qed.

Lemma createJob_spec w jobData o w' :
  run (JobService.createJob jobData) w = (o, w') ->
  let id := uuid_of (lib w) (uuid_count w) in
  let job := created jobData w in
  uuid_count w' = S (uuid_count w) /\ lib w' = lib w /\
  ((exists e, o = Failed e /\
      store w' = store w /\ lists w' = lists w /\ aof w' = aof w) \/
   (exists e, o = Failed e /\
      store w' = <[JobService.jobKey id := (job, Some 86400)]> (store w) /\
      lists w' = lists w /\
      aof w' = aof w ++ [Wrote (JobService.jobKey id) job (Some 86400)]) \/
   (o = Done job /\
      store w' = <[JobService.jobKey id := (job, Some 86400)]> (store w) /\
      lists w' = <[JobService.queueKey :=
                     {| jobId := id |} :: list_at JobService.queueKey w]> (lists w) /\
      aof w' = aof w ++ [Wrote (JobService.jobKey id) job (Some 86400);
                         Pushed JobService.queueKey {| jobId := id |}])).
Proof.
  unfold JobService.createJob. steps. connected_cases.
  - run_cases set_spec; [|lia]. fold (created jobData w) in *.
    destruct E as [(-> & E1 & E2 & E3 & E4 & E5) | (e & -> & E)]; steps.
    + run_cases lpush_spec.
      destruct E as [(-> & F1 & F2 & F3 & F4 & F5) | (e & -> & F)]; steps; conclude.
      * cbv zeta. split; [congruence|]. split; [congruence|]. right; right.
        split; [reflexivity|]. rewrite F1, F2, F3, E1, E2, E3.
        unfold list_at. rewrite E2. rewrite <- app_assoc. repeat split.
      * destruct F as (F1 & F2 & F3 & F4 & F5).
        cbv zeta. split; [congruence|]. split; [congruence|]. right; left.
        eexists. split; [reflexivity|]. repeat split; congruence.
    + conclude. destruct E as (F1 & F2 & F3 & F4 & F5). world_simpl.
      cbv zeta. split; [congruence|]. split; [congruence|]. left.
      eexists. split; [reflexivity|]. repeat split; congruence.
  - conclude. cbv zeta. split; [reflexivity|]. split; [reflexivity|]. left.
    eexists. repeat split.
Qed.

Lemma getNextJob_spec w o w' :
  run JobService.getNextJob w = (o, w') ->
  store w' = store w /\ uuid_count w' = uuid_count w /\ lib w' = lib w /\
  ((lists w' = lists w /\ aof w' = aof w /\
    (o = Done None \/ exists e, o = Failed e)) \/
   (exists newer oldest,
      list_at JobService.queueKey w = newer ++ [oldest] /\
      lists w' = <[JobService.queueKey := newer]> (lists w) /\
      aof w' = aof w ++ [Popped JobService.queueKey oldest] /\
      (o = Done (fst <$> store w !! JobService.jobKey (jobId oldest)) \/
       exists e, o = Failed e))).
Proof.
  unfold JobService.getNextJob. steps. connected_cases.
  - run_cases brpop_spec.
    destruct E as [(-> & E1 & E2) | [(newer & oldest & -> & E1 & E2) | (e & -> & E)]];
      steps.
    + conclude. destruct E2 as (?&?&?&?&?). repeat split; try assumption.
      left. repeat split; eauto.
    + destruct E2 as (F1 & F2 & F3 & F4 & F5).
      run_cases getJobStatus_spec. destruct E as [(G1 & G2 & G3 & G4 & G5) Ho].
      rewrite F1 in Ho.
      assert (Hw : store w1 = store w /\ uuid_count w1 = uuid_count w /\
                   lib w1 = lib w /\
                   lists w1 = <[JobService.queueKey := newer]> (lists w) /\
                   aof w1 = aof w ++ [Popped JobService.queueKey oldest])
        by (repeat split; congruence).
      destruct Hw as (H1 & H2 & H3 & H4 & H5).
      destruct Ho as [-> | [e ->]].
      * destruct (store w !! JobService.jobKey (jobId oldest)) as [[job t]|] eqn:Hj;
          cbn [fmap option_fmap option_map fst]; steps; conclude;
          (repeat split; try assumption; right; exists newer, oldest;
           rewrite Hj; repeat split; try assumption; left; reflexivity).
      * steps. conclude. repeat split; try assumption. right.
        exists newer, oldest. repeat split; try assumption. right. eauto.
    + conclude. destruct E as (?&?&?&?&?). repeat split; try assumption.
      left. repeat split; eauto.
  - conclude. repeat split. left. repeat split. eauto.
Qed.

(** ** Creating a job *)

Lemma lookup_created_Some (jobData : obj) w k v :
  jobData !! k = Some v -> created jobData w !! k = Some v.
Proof. intros H. unfold created. apply lookup_union_Some_l. exact H. Qed.

Lemma lookup_created_None (jobData : obj) w k :
  jobData !! k = None ->
  created jobData w !! k =
  JobService.defaults (uuid_of (lib w) (uuid_count w))
    (toISOString (lib w) (clock w)) (toISOString (lib w) (clock w)) !! k.
Proof. intros H. unfold created. apply lookup_union_r. exact H. Qed.

(** C10. [createJob] spreads [jobData] over the defaults: a key of
    [jobData] keeps the caller's value in the record that is returned and
    stored (under the key of the fresh identifier), and each of [id],
    [status], [createdAt] and [updatedAt] has its default (the fresh
    identifier, [queued], the current time) when [jobData] omits it. *)
Theorem createJob_spreads_jobData (w : world) (jobData : obj) :
  healthy w ->
  exists job,
    fst (run (JobService.createJob jobData) w) = Done job /\
    store (snd (run (JobService.createJob jobData) w))
      !! JobService.jobKey (uuid_of (lib w) (uuid_count w)) = Some (job, Some 86400) /\
    (forall k v, jobData !! k = Some v -> job !! k = Some v) /\
    (jobData !! "id" = None ->
     job !! "id" = Some (VStr (uuid_of (lib w) (uuid_count w)))) /\
    (jobData !! "status" = None -> job !! "status" = Some (VStr "queued")) /\
    (jobData !! "createdAt" = None ->
     job !! "createdAt" = Some (VStr (toISOString (lib w) (clock w)))) /\
    (jobData !! "updatedAt" = None ->
     job !! "updatedAt" = Some (VStr (toISOString (lib w) (clock w)))).
Proof.
  intros H. exists (created jobData w).
  rewrite run_createJob_healthy by exact H. cbn [fst snd].
  split; [reflexivity|]. split.
  { unfold enqueued. world_simpl. apply lookup_insert_eq. }
  split; [intros k v; apply lookup_created_Some|].
  repeat split; intros Hk; rewrite lookup_created_None by exact Hk; reflexivity.
Qed.

Lemma createJob_spreads_jobData_witness :
  exists job,
    fst (run (JobService.createJob Sample.jobData) Sample.empty) = Done job /\
    store (snd (run (JobService.createJob Sample.jobData) Sample.empty))
      !! JobService.jobKey (uuid_of (lib Sample.empty) (uuid_count Sample.empty))
    = Some (job, Some 86400) /\
    (forall k v, Sample.jobData !! k = Some v -> job !! k = Some v) /\
    (Sample.jobData !! "id" = None ->
     job !! "id" = Some (VStr (uuid_of (lib Sample.empty) (uuid_count Sample.empty)))) /\
    (Sample.jobData !! "status" = None -> job !! "status" = Some (VStr "queued")) /\
    (Sample.jobData !! "createdAt" = None ->
     job !! "createdAt" = Some (VStr (toISOString (lib Sample.empty) (clock Sample.empty)))) /\
    (Sample.jobData !! "updatedAt" = None ->
     job !! "updatedAt" = Some (VStr (toISOString (lib Sample.empty) (clock Sample.empty)))).
Proof.
  apply (createJob_spreads_jobData Sample.empty Sample.jobData).
  split; reflexivity.
Defined.

(** A caller that passes its own [status] gets it back. *)
Example createJob_status_overridden :
  (fun job => job !! "status") <$>
    (match fst (run (JobService.createJob (<["status" := VStr "completed"]> Sample.jobData))
                  Sample.empty) with
     | Done job => Some job
     | _ => None
     end) = Some (Some (VStr "completed")).
Proof. vm_compute. reflexivity. Qed.

(** C7. Whatever the store answers, [createJob] writes the record before it
    pushes the entry: the commands it gets applied are none, the write
    alone, or the write followed by the push; so a push of an entry is
    always preceded by the write of its record, and when the queue has
    changed the record is in the store. *)
Theorem createJob_stores_before_push (w : world) (jobData : obj) :
  exists l,
    aof (snd (run (JobService.createJob jobData) w)) = aof w ++ l /\
    (l = [] \/
     l = [Wrote (JobService.jobKey (uuid_of (lib w) (uuid_count w)))
            (created jobData w) (Some 86400)] \/
     l = [Wrote (JobService.jobKey (uuid_of (lib w) (uuid_count w)))
            (created jobData w) (Some 86400);
          Pushed JobService.queueKey {| jobId := uuid_of (lib w) (uuid_count w) |}]) /\
    (forall pre e post,
       l = pre ++ Pushed JobService.queueKey e :: post ->
       In (Wrote (JobService.jobKey (jobId e)) (created jobData w) (Some 86400)) pre) /\
    (lists (snd (run (JobService.createJob jobData) w)) <> lists w ->
     store (snd (run (JobService.createJob jobData) w))
       !! JobService.jobKey (uuid_of (lib w) (uuid_count w))
     = Some (created jobData w, Some 86400)).
Proof.
  destruct (run (JobService.createJob jobData) w) as [o w'] eqn:E.
  apply createJob_spec in E. cbv zeta in E. cbn [snd].
  destruct E as (_ & _ & [(e & _ & Hs & Hl & Ha) |
                          [(e & _ & Hs & Hl & Ha) | (_ & Hs & Hl & Ha)]]).
  - exists []. rewrite app_nil_r. split; [exact Ha|]. split; [auto|]. split.
    + intros pre e' post H. destruct pre; discriminate.
    + intros H. contradiction.
  - eexists. split; [exact Ha|]. split; [auto|]. split.
    + intros pre e' post H. destruct pre as [|? [|? ?]]; discriminate.
    + intros H. contradiction.
  - eexists. split; [exact Ha|]. split; [auto|]. split.
    + intros pre e' post H. destruct pre as [|x [|y pre]]; try discriminate.
      * injection H as <- <- <-. left. reflexivity.
      * injection H as _ _ H. destruct pre; discriminate.
    + intros _. rewrite Hs. apply lookup_insert_eq.
Qed.

(** ** The work queue *)

Lemma list_at_insert key l w f :
  list_at key (set_aof f (set_lists <[key := l]> w)) = l.
Proof. unfold list_at. world_simpl. rewrite lookup_insert_eq. reflexivity. Qed.

Lemma run_pushAll_healthy key es : forall w,
  healthy w ->
  exists w', run (pushAll key es) w = (Done tt, w') /\ healthy w' /\
             list_at key w' = rev es ++ list_at key w.
Proof.
  induction es as [|e es IH]; intros w H.
  - exists w. repeat split; apply H.
  - cbn [pushAll]. rewrite run_bind, run_lpush_healthy by exact H.
    cbv beta iota.
    destruct (IH (set_aof (fun l => l ++ [Pushed key e])
                    (set_lists <[key := e :: list_at key w]> w))) as (w' & E & H' & L).
    { solve_healthy. }
    exists w'. split; [exact E|]. split; [exact H'|].
    rewrite L, list_at_insert. cbn [rev]. rewrite <- app_assoc. reflexivity.
Qed.

Lemma run_popMany_healthy key timeout es : forall w,
  healthy w -> list_at key w = rev es ->
  fst (run (popMany key timeout (length es)) w) = Done (map Some es).
Proof.
  induction es as [|e es IH]; intros w H L.
  - reflexivity.
  - cbn [length popMany]. rewrite run_bind.
    rewrite (run_brpop_oldest _ _ _ (rev es) e) by (try exact H; exact L).
    cbv beta iota. rewrite run_bind.
    specialize (IH (set_aof (fun l => l ++ [Popped key e])
                      (set_lists <[key := rev es]> w))).
    destruct (run (popMany key timeout (length es)) _) as [o w'].
    cbn [fst] in IH. rewrite IH; [reflexivity | solve_healthy | apply list_at_insert].
Qed.

(** C3. The work queue is first in, first out: a pop returns the oldest
    entry of the list and leaves the newer ones; entries pushed onto an
    empty queue are popped in the order of their pushes; an entry pushed
    onto an empty queue is the one the next pop returns, and the job
    [createJob] has queued is the one [getNextJob] hands out. *)
Theorem work_queue_fifo (w : world) (key : string) (timeout : Z) :
  healthy w ->
  (forall newer oldest,
     list_at key w = newer ++ [oldest] ->
     fst (run (RedisService.brpop key timeout) w) = Done (Some oldest) /\
     list_at key (snd (run (RedisService.brpop key timeout) w)) = newer) /\
  (forall e,
     list_at key (snd (run (RedisService.lpush key e) w)) = e :: list_at key w) /\
  (forall es,
     list_at key w = [] ->
     fst (run (let* _ := pushAll key es in popMany key timeout (length es)) w)
     = Done (map Some es)) /\
  (forall e,
     list_at key w = [] ->
     fst (run (let* _ := RedisService.lpush key e in
               RedisService.brpop key timeout) w) = Done (Some e)) /\
  (forall jobData,
     list_at JobService.queueKey w = [] ->
     fst (run (let* _ := JobService.createJob jobData in JobService.getNextJob) w)
     = Done (Some (created jobData w))).
Proof.
  intros H. repeat split.
  - rewrite (run_brpop_oldest _ _ _ newer oldest) by assumption. reflexivity.
  - rewrite (run_brpop_oldest _ _ _ newer oldest) by assumption.
    apply list_at_insert.
  - intros e. rewrite run_lpush_healthy by exact H. apply list_at_insert.
  - intros es L. rewrite run_bind.
    destruct (run_pushAll_healthy key es w H) as (w' & -> & H' & L').
    cbv beta iota. apply run_popMany_healthy; [exact H'|].
    rewrite L', L, app_nil_r. reflexivity.
  - intros e L. rewrite run_bind, run_lpush_healthy by exact H. cbv beta iota.
    rewrite (run_brpop_oldest _ _ _ [] e).
    + reflexivity.
    + solve_healthy.
    + rewrite list_at_insert, L. reflexivity.
  - intros jobData L. rewrite run_bind, run_createJob_healthy by exact H.
    cbv beta iota.
    rewrite (run_getNextJob_oldest _ [] {| jobId := uuid_of (lib w) (uuid_count w) |}).
    + unfold enqueued. world_simpl. cbn [jobId].
      rewrite lookup_insert_eq. reflexivity.
    + unfold enqueued. solve_healthy.
    + unfold enqueued. rewrite list_at_insert.
      unfold list_at in *. world_simpl. rewrite L. reflexivity.
Qed.

Lemma work_queue_fifo_witness :
  (forall newer oldest,
     list_at "jpeg2avif:queue" Sample.empty = newer ++ [oldest] ->
     fst (run (RedisService.brpop "jpeg2avif:queue" 30) Sample.empty) = Done (Some oldest) /\
     list_at "jpeg2avif:queue" (snd (run (RedisService.brpop "jpeg2avif:queue" 30) Sample.empty))
     = newer) /\
  (forall e,
     list_at "jpeg2avif:queue" (snd (run (RedisService.lpush "jpeg2avif:queue" e) Sample.empty))
     = e :: list_at "jpeg2avif:queue" Sample.empty) /\
  (forall es,
     list_at "jpeg2avif:queue" Sample.empty = [] ->
     fst (run (let* _ := pushAll "jpeg2avif:queue" es in
               popMany "jpeg2avif:queue" 30 (length es)) Sample.empty)
     = Done (map Some es)) /\
  (forall e,
     list_at "jpeg2avif:queue" Sample.empty = [] ->
     fst (run (let* _ := RedisService.lpush "jpeg2avif:queue" e in
               RedisService.brpop "jpeg2avif:queue" 30) Sample.empty) = Done (Some e)) /\
  (forall jobData,
     list_at JobService.queueKey Sample.empty = [] ->
     fst (run (let* _ := JobService.createJob jobData in JobService.getNextJob) Sample.empty)
     = Done (Some (created jobData Sample.empty))).
Proof.
  apply (work_queue_fifo Sample.empty "jpeg2avif:queue" 30).
  split; reflexivity.
Defined.

(** Three jobs are handed out in the order of their arrival. *)
Example three_entries_in_order :
  fst (run (let* _ := pushAll "q" [{| jobId := "a" |}; {| jobId := "b" |}; {| jobId := "c" |}] in
            popMany "q" 30 4) Sample.empty)
  = Done [Some {| jobId := "a" |}; Some {| jobId := "b" |}; Some {| jobId := "c" |}; None].
Proof. vm_compute. reflexivity. Qed.

(** ** Updating a job *)

Lemma lookup_merged_updatedAt (job updates : obj) now :
  merged job updates now !! "updatedAt" = Some (VStr now).
Proof. unfold merged. apply lookup_insert_eq. Qed.

Lemma lookup_merged (job updates : obj) now k :
  k <> "updatedAt" ->
  merged job updates now !! k =
  match updates !! k with
  | Some v => Some v
  | None => job !! k
  end.
Proof.
  intros Hk. unfold merged. rewrite lookup_insert_ne by congruence.
  destruct (updates !! k) as [v|] eqn:E.
  - apply lookup_union_Some_l. exact E.
  - apply lookup_union_r. exact E.
Qed.

Lemma run_env_update_deleted w id updates job t :
  healthy w ->
  store w !! JobService.jobKey id = Some (job, t) ->
  run_env [fun w => w; meanwhile (JobService.deleteJob id)]
    (JobService.updateJobStatus id updates) w =
  (Done (merged job updates (toISOString (lib w) (clock w))),
   updated id (merged job updates (toISOString (lib w) (clock w)))
     (set_aof (fun l => l ++ [Deleted (JobService.jobKey id)])
        (set_store (delete (JobService.jobKey id)) w))).
Proof.
  intros [Hc Hf] Hr.
  unfold JobService.updateJobStatus, JobService.getJobStatus, RedisService.get,
    RedisService.set, RedisService.getClient, RedisService.isConnected, perform, call.
  cbn [bind try_catch run_env suspends handle]. rewrite Hc.
  cbn [bind try_catch run_env suspends handle negb]. rewrite Hc.
  cbn [bind try_catch run_env suspends handle negb]. rewrite Hc.
  cbn [bind try_catch run_env suspends handle negb].
  rewrite client_healthy by assumption. cbn [fst snd]. rewrite Hr.
  cbn [fmap option_fmap option_map fst bind try_catch run_env suspends handle negb].
  rewrite Hc.
  cbn [fmap option_fmap option_map fst bind try_catch run_env suspends handle negb Z.eqb].
  unfold meanwhile. rewrite run_deleteJob_healthy by (split; assumption).
  cbn [snd]. rewrite client_healthy by (world_simpl; assumption).
  cbn [fst snd bind try_catch run_env suspends handle]. reflexivity.
Qed.

(** C6, as the code has it. On a healthy store, [updateJobStatus] of a
    record that is there when it is read returns and stores, with a
    time-to-live of 86400 seconds, the record with exactly the given fields
    merged in and a fresh [updatedAt]; of a record that is absent when it is
    read it throws "Job ... not found" and changes nothing.  A record that
    is deleted after the read and before the write is not missed: the
    merged record is written back and the update returns it. *)
Theorem updateJobStatus_merges_or_misses (w : world) (id : string) (updates : obj) :
  healthy w ->
  (forall job t,
     store w !! JobService.jobKey id = Some (job, t) ->
     exists r,
       r = merged job updates (toISOString (lib w) (clock w)) /\
       run (JobService.updateJobStatus id updates) w = (Done r, updated id r w) /\
       store (updated id r w) !! JobService.jobKey id = Some (r, Some 86400) /\
       r !! "updatedAt" = Some (VStr (toISOString (lib w) (clock w))) /\
       (forall k, k <> "updatedAt" ->
          r !! k = match updates !! k with Some v => Some v | None => job !! k end) /\
       fst (run_env [fun w => w; meanwhile (JobService.deleteJob id)]
              (JobService.updateJobStatus id updates) w) = Done r /\
       store (snd (run_env [fun w => w; meanwhile (JobService.deleteJob id)]
                     (JobService.updateJobStatus id updates) w))
         !! JobService.jobKey id = Some (r, Some 86400)) /\
  (store w !! JobService.jobKey id = None ->
   run (JobService.updateJobStatus id updates) w =
   (Failed ("Failed to update job status: Job " +:+ id +:+ " not found"), w)).
Proof.
  intros H. split.
  - intros job t Hr. eexists. split; [reflexivity|].
    split; [apply (run_updateJobStatus_healthy _ _ _ _ t); assumption|].
    split; [unfold updated; world_simpl; apply lookup_insert_eq|].
    split; [apply lookup_merged_updatedAt|].
    split; [intros k Hk; apply lookup_merged; exact Hk|].
    rewrite (run_env_update_deleted _ _ _ job t) by assumption.
    cbn [fst snd]. split; [reflexivity|].
    unfold updated. world_simpl. apply lookup_insert_eq.
  - intros Hr. apply run_updateJobStatus_absent; assumption.
Qed.

Lemma updateJobStatus_merges_or_misses_witness :
  (forall job t,
     store Sample.submitted !! JobService.jobKey "job-0" = Some (job, t) ->
     exists r,
       r = merged job Sample.toProcessing
             (toISOString (lib Sample.submitted) (clock Sample.submitted)) /\
       run (JobService.updateJobStatus "job-0" Sample.toProcessing) Sample.submitted
       = (Done r, updated "job-0" r Sample.submitted) /\
       store (updated "job-0" r Sample.submitted) !! JobService.jobKey "job-0"
       = Some (r, Some 86400) /\
       r !! "updatedAt"
       = Some (VStr (toISOString (lib Sample.submitted) (clock Sample.submitted))) /\
       (forall k, k <> "updatedAt" ->
          r !! k = match Sample.toProcessing !! k with
                   | Some v => Some v
                   | None => job !! k
                   end) /\
       fst (run_env [fun w => w; meanwhile (JobService.deleteJob "job-0")]
              (JobService.updateJobStatus "job-0" Sample.toProcessing) Sample.submitted)
       = Done r /\
       store (snd (run_env [fun w => w; meanwhile (JobService.deleteJob "job-0")]
                     (JobService.updateJobStatus "job-0" Sample.toProcessing)
                     Sample.submitted))
         !! JobService.jobKey "job-0" = Some (r, Some 86400)) /\
  (store Sample.submitted !! JobService.jobKey "job-0" = None ->
   run (JobService.updateJobStatus "job-0" Sample.toProcessing) Sample.submitted =
   (Failed ("Failed to update job status: Job " +:+ "job-0" +:+ " not found"),
    Sample.submitted)).
Proof.
  apply (updateJobStatus_merges_or_misses Sample.submitted "job-0" Sample.toProcessing).
  split; reflexivity.
Defined.

(** C6, as the claim has it, fails: the record of [job-0] is deleted between
    the read and the write of an update, and the update does not throw: it
    returns a record and leaves one in the store, written after the
    deletion. *)
Lemma update_of_record_deleted_midway_succeeds :
  (exists r,
     fst (run_env Sample.deletion
            (JobService.updateJobStatus "job-0" Sample.toProcessing) Sample.submitted)
     = Done r /\
     r !! "status" = Some (VStr "processing")) /\
  is_Some (store Sample.submitted !! JobService.jobKey "job-0") /\
  store (meanwhile (JobService.deleteJob "job-0") Sample.submitted)
    !! JobService.jobKey "job-0" = None /\
  is_Some (store (snd (run_env Sample.deletion
                         (JobService.updateJobStatus "job-0" Sample.toProcessing)
                         Sample.submitted))
             !! JobService.jobKey "job-0") /\
  (fun e => match e with
            | Wrote k _ _ => "Wrote " +:+ k
            | Deleted k => "Deleted " +:+ k
            | Pushed k _ => "Pushed " +:+ k
            | Popped k _ => "Popped " +:+ k
            end) <$>
    aof (snd (run_env Sample.deletion
                (JobService.updateJobStatus "job-0" Sample.toProcessing)
                Sample.submitted))
  = ["Wrote jpeg2avif:job:job-0"; "Pushed jpeg2avif:queue";
     "Deleted jpeg2avif:job:job-0"; "Wrote jpeg2avif:job:job-0"].
Proof.
  split; [|split; [|split; [|split]]].
  - eexists. split; vm_compute; reflexivity.
  - vm_compute. eexists. reflexivity.
  - vm_compute. reflexivity.
  - vm_compute. eexists. reflexivity.
  - vm_compute. reflexivity.
Qed.

(** ** GPS fields *)

Lemma lookup_timestampToPreserve om (m : tagset) k :
  k ∈ gpsFields -> ConversionWorker.timestampToPreserve om m !! k = m !! k.
Proof.
  intros Hk. unfold ConversionWorker.timestampToPreserve.
  assert (k <> "DateTimeOriginal" /\ k <> "DateTime" /\ k <> "CreateDate") as (?&?&?).
  { unfold gpsFields in Hk. repeat split; intros ->;
      repeat (apply elem_of_cons in Hk as [Hk|Hk]; [discriminate|]);
      inversion Hk. }
  repeat case_match; rewrite ?lookup_insert_ne by congruence; reflexivity.
Qed.

(** What the code does: the four GPS fields are handed to [exiftool.write],
    for both variants alike, exactly when both coordinates are truthy, and
    [hasGPS] says the same. *)
Lemma gps_written_iff_truthy (width height : Z) (om : obj) (k : string) :
  k ∈ gpsFields ->
  (is_Some (ConversionWorker.metadataToPreserve width height om !! k) <->
   truthy_prop (om !! "GPSLatitude") && truthy_prop (om !! "GPSLongitude") = true) /\
  ConversionWorker.hasGPS om =
  truthy_prop (om !! "GPSLatitude") && truthy_prop (om !! "GPSLongitude").
Proof.
  intros Hk. split; [|reflexivity].
  unfold ConversionWorker.metadataToPreserve, ConversionWorker.gpsToPreserve.
  destruct (truthy_prop (om !! "GPSLatitude") && truthy_prop (om !! "GPSLongitude")).
  - split; [reflexivity|]. intros _. unfold gpsFields in Hk.
    repeat (apply elem_of_cons in Hk as [->|Hk];
            [rewrite ?lookup_insert_ne by discriminate;
             rewrite lookup_insert_eq; eexists; reflexivity|]).
    inversion Hk.
  - rewrite lookup_timestampToPreserve by exact Hk.
    assert (k <> "ImageHeight" /\ k <> "ImageWidth") as [? ?].
    { unfold gpsFields in Hk. split; intros ->;
        repeat (apply elem_of_cons in Hk as [Hk|Hk]; [discriminate|]);
        inversion Hk. }
    rewrite !lookup_insert_ne by congruence. rewrite lookup_empty.
    split; [intros [? ?]; discriminate | discriminate].
Qed.

(** An input without GPS data gets no GPS field and [hasGPS] is false. *)
Lemma no_gps_without_coordinates (width height : Z) (om : obj) (k : string) :
  ~ hasCoordinates om ->
  k ∈ gpsFields ->
  ConversionWorker.metadataToPreserve width height om !! k = None /\
  ConversionWorker.hasGPS om = false.
Proof.
  intros Hno Hk.
  assert (E : truthy_prop (om !! "GPSLatitude") && truthy_prop (om !! "GPSLongitude") = false).
  { unfold hasCoordinates in Hno.
    destruct (om !! "GPSLatitude") as [lat|]; [|reflexivity].
    destruct (om !! "GPSLongitude") as [lon|]; [|apply andb_false_r].
    exfalso. apply Hno. split; eexists; reflexivity. }
  destruct (gps_written_iff_truthy width height om k Hk) as [[H1 _] H2].
  rewrite H2, E. split; [|reflexivity].
  destruct (ConversionWorker.metadataToPreserve width height om !! k) eqn:F; [|reflexivity].
  rewrite E in H1. discriminate H1. eexists; reflexivity.
Qed.

(** C8 fails on the code for a coordinate that is zero: the photograph taken
    on the equator has both coordinates in its metadata, yet none of the
    four GPS fields is handed on and [hasGPS] is false; with 48 where the 0
    was, all four are. *)
Lemma gps_dropped_on_the_equator :
  hasCoordinates Sample.equator /\
  (fun k => ConversionWorker.metadataToPreserve 4000 3000 Sample.equator !! k) <$> gpsFields
  = [None; None; None; None] /\
  ConversionWorker.hasGPS Sample.equator = false /\
  (fun k => ConversionWorker.metadataToPreserve 4000 3000 Sample.paris !! k) <$> gpsFields
  = [Some (Some (VNum 48)); Some (Some (VNum 2));
     Some (Some (VStr "N")); Some (Some (VStr "E"))] /\
  ConversionWorker.hasGPS Sample.paris = true.
Proof.
  split; [split; vm_compute; eexists; reflexivity|].
  repeat split; vm_compute; reflexivity.
Qed.

(** ** Footprints *)

Lemma within_bind G {A B} (p : prog A) (f : A -> prog B) :
  within G p -> (forall a, within G (f a)) -> within G (bind p f).
Proof.
  intros Hp Hf. induction Hp as [a|e|X c k Hc Hk IH]; cbn [bind].
  - apply Hf.
  - constructor.
  - constructor; [exact Hc | exact IH].
Qed.

Lemma within_try_catch G {A} (p : prog A) (h : string -> prog A) :
  within G p -> (forall e, within G (h e)) -> within G (try_catch p h).
Proof.
  intros Hp Hh. induction Hp as [a|e|X c k Hc Hk IH]; cbn [try_catch].
  - constructor.
  - apply Hh.
  - constructor; [exact Hc | exact IH].
Qed.

Lemma within_perform G {X} (c : cmd X) : G X c = true -> within G (perform c).
Proof. intros H. constructor; [exact H | intros x; constructor]. Qed.

Lemma within_call G {X} (c : cmd (res X)) : G (res X) c = true -> within G (call c).
Proof. intros H. constructor; [exact H | intros [e|x]; constructor]. Qed.

Lemma within_forEach G {A} (l : list A) (f : A -> prog unit) :
  (forall x, within G (f x)) -> within G (forEach l f).
Proof.
  intros Hf. induction l as [|x l IH]; cbn [forEach].
  - constructor.
  - apply within_bind; [apply Hf | intros _; exact IH].
Qed.

Lemma within_run G (I : world -> Prop) {A} (p : prog A) :
  (forall X (c : cmd X) w x w',
      G X c = true -> I w -> handle c w = Some (x, w') -> I w') ->
  within G p -> forall w, I w -> I (snd (run p w)).
Proof.
  intros HG Hp. induction Hp as [a|e|X c k Hc Hk IH]; intros w Hw; cbn [run].
  - exact Hw.
  - exact Hw.
  - destruct (handle c w) as [[x w']|] eqn:E.
    + apply IH. eapply HG; eassumption.
    + exact Hw.
Qed.

Ltac footprint :=
  repeat first
    [ apply within_Ret | apply within_Throw
    | apply within_perform; reflexivity
    | apply within_call; reflexivity
    | apply within_bind; [|intros ?]
    | apply within_try_catch; [|intros ?]
    | apply within_forEach; intros ?
    | match goal with
      | |- within _ (match ?x with _ => _ end) => destruct x
      end ].

Lemma same_redis_refl w : same_redis w w.
Proof. repeat split. Qed.

Lemma same_redis_trans w0 w1 w2 :
  same_redis w0 w1 -> same_redis w1 w2 -> same_redis w0 w2.
Proof.
  intros [H01 [? ?]] [H12 [? ?]].
  split; [eapply same_server_trans; eassumption|]. split; congruence.
Qed.

Lemma quiet_handle {X} (c : cmd X) w x w' :
  quiet X c = true -> handle c w = Some (x, w') -> same_redis w w'.
Proof.
  destruct c; cbn [quiet handle]; try discriminate; intros _ H;
    repeat match type of H with
           | match ?t with _ => _ end = _ => destruct t
           end;
    try discriminate; injection H as <- <-; repeat split.
Qed.

Lemma quiet_run {A} (p : prog A) w :
  within quiet p -> same_redis w (snd (run p w)).
Proof.
  intros Hp. apply (within_run quiet (same_redis w)); [|exact Hp|apply same_redis_refl].
  intros X c w1 x w2 Hc Hw H. eapply same_redis_trans; [exact Hw|].
  eapply quiet_handle; eassumption.
Qed.

Lemma no_new_files_refl S w : no_new_files S w w.
Proof. intros path data _ H. exact H. Qed.

Lemma no_new_files_trans S w0 w1 w2 :
  no_new_files S w0 w1 -> no_new_files S w1 w2 -> no_new_files S w0 w2.
Proof. intros H01 H12 path data Hp H. apply H01, H12; assumption. Qed.

Lemma no_new_files_weaken S w0 w : no_new_files [] w0 w -> no_new_files S w0 w.
Proof. intros H path data _ Hf. apply H; [apply not_elem_of_nil | exact Hf]. Qed.

(** What a command can do to the file system. *)
Lemma handle_fs {X} (c : cmd X) w x w' :
  handle c w = Some (x, w') ->
  fs w' = fs w \/
  (exists path data,
     (forall S, files_in S X c = true -> path ∈ S) /\
     fs w' = <[path := File data]> (fs w)) \/
  (exists path, fs w !! path = None /\ fs w' = <[path := Dir]> (fs w)) \/
  (exists path, fs w' = delete path (fs w)).
Proof.
  destruct c; cbn [handle]; intros H;
    try (unfold client, next_fault in H; destruct (faults w) as [|[?|] ?]; cbn in H);
    repeat match type of H with
           | context [match ?t with _ => _ end] => destruct t eqn:?
           end;
    try discriminate; injection H as <- <-; world_simpl; auto.
  all: try (right; left; do 2 eexists; split; [|reflexivity];
            intros S HS; cbn [files_in] in HS; apply bool_decide_eq_true in HS; exact HS).
  all: try (right; right; left; eexists; split; [eassumption | reflexivity]).
  all: try (right; right; right; eexists; reflexivity).
  all: left;
    match goal with
    | H : match rev ?l with _ => _ end = _ |- _ =>
        destruct (rev l); inversion H; subst; reflexivity
    end.
Qed.

Lemma files_in_handle S {X} (c : cmd X) w x w' :
  files_in S X c = true -> handle c w = Some (x, w') -> no_new_files S w w'.
Proof.
  intros Hc H path data Hp Hf.
  destruct (handle_fs c w x w' H)
    as [E | [(p & d & HS & E) | [(p & Hn & E) | (p & E)]]]; rewrite E in Hf.
  - exact Hf.
  - rewrite lookup_insert_ne in Hf; [exact Hf|].
    intros ->. apply Hp, HS, Hc.
  - destruct (decide (p = path)) as [->|Hne].
    + rewrite lookup_insert_eq in Hf. discriminate.
    + rewrite lookup_insert_ne in Hf by exact Hne. exact Hf.
  - destruct (decide (p = path)) as [->|Hne].
    + rewrite lookup_delete_eq in Hf. discriminate.
    + rewrite lookup_delete_ne in Hf by exact Hne. exact Hf.
Qed.

Lemma files_in_run S {A} (p : prog A) w :
  within (files_in S) p -> no_new_files S w (snd (run p w)).
Proof.
  intros Hp.
  apply (within_run (files_in S) (no_new_files S w)); [|exact Hp|apply no_new_files_refl].
  intros X c w1 x w2 Hc Hw H. eapply no_new_files_trans; [exact Hw|].
  eapply files_in_handle; eassumption.
Qed.

(** ** Exceptions and waiting *)

Lemma catches_bind {A B} (p : prog A) (f : A -> prog B) :
  catches p -> (forall a, catches (f a)) -> catches (bind p f).
Proof.
  intros Hp Hf. induction Hp as [a|X c k Hk IH]; cbn [bind].
  - apply Hf.
  - constructor. exact IH.
Qed.

Lemma catches_try_catch {A} (p : prog A) (h : string -> prog A) :
  (forall e, catches (h e)) -> catches (try_catch p h).
Proof.
  intros Hh. induction p as [a|e|X c k IH]; cbn [try_catch].
  - constructor.
  - apply Hh.
  - constructor. exact IH.
Qed.

Lemma catches_perform {X} (c : cmd X) : catches (perform c).
Proof. constructor. intros x. constructor. Qed.

Lemma catches_forEach {A} (l : list A) (f : A -> prog unit) :
  (forall x, catches (f x)) -> catches (forEach l f).
Proof.
  intros Hf. induction l as [|x l IH]; cbn [forEach].
  - constructor.
  - apply catches_bind; [apply Hf | intros _; exact IH].
Qed.

Lemma catches_run {A} (p : prog A) :
  catches p -> forall w e, fst (run p w) <> Failed e.
Proof.
  intros Hp. induction Hp as [a|X c k Hk IH]; intros w e; cbn [run].
  - discriminate.
  - destruct (handle c w) as [[x w']|]; [apply IH | discriminate].
Qed.

Lemma prompt_handle {X} (c : cmd X) w :
  prompt X c = true -> exists r, handle c w = Some r.
Proof.
  destruct c; cbn [prompt handle]; intros H;
    try (unfold client, next_fault; destruct (faults w) as [|[?|] ?]; cbn);
    repeat match goal with
           | |- context [match ?t with _ => _ end] => destruct t
           end;
    try discriminate; eexists; reflexivity.
Qed.

Lemma prompt_run {A} (p : prog A) :
  within prompt p -> forall w, fst (run p w) <> Stuck.
Proof.
  intros Hp. induction Hp as [a|e|X c k Hc Hk IH]; intros w; cbn [run].
  - discriminate.
  - discriminate.
  - destruct (prompt_handle c w Hc) as [[x w'] ->]. apply IH.
Qed.

(** A program that neither throws nor waits in vain returns. *)
Lemma returns {A} (p : prog A) w :
  catches p -> within prompt p -> exists a, fst (run p w) = Done a.
Proof.
  intros Hc Hp. pose proof (catches_run p Hc w) as H1.
  pose proof (prompt_run p Hp w) as H2.
  destruct (fst (run p w)) as [a|e|]; [eauto | destruct (H1 e); reflexivity | contradiction].
Qed.

(** ** Cleaning up *)

Lemma cleanupTempFiles_catches files :
  catches (ConversionWorker.cleanupTempFiles files).
Proof.
  apply catches_forEach. intros file. apply catches_try_catch.
  intros e. apply catches_perform.
Qed.

Lemma cleanupTempFiles_within (G : forall X, cmd X -> bool) files :
  (forall path, G bool (ExistsSync path) = true) ->
  (forall path, G (res unit) (UnlinkSync path) = true) ->
  (forall l m, G unit (Log l m) = true) ->
  within G (ConversionWorker.cleanupTempFiles files).
Proof.
  intros H1 H2 H3. unfold ConversionWorker.cleanupTempFiles.
  apply within_forEach. intros file. apply within_try_catch.
  - apply within_bind; [apply within_perform, H1|].
    intros [|]; [apply within_call, H2 | constructor].
  - intros e. apply within_perform, H3.
Qed.

Lemma cleanupTempFiles_returns files w :
  fst (run (ConversionWorker.cleanupTempFiles files) w) = Done tt.
Proof.
  destruct (returns (ConversionWorker.cleanupTempFiles files) w) as [[] H].
  - apply cleanupTempFiles_catches.
  - apply cleanupTempFiles_within; reflexivity.
  - exact H.
Qed.

Lemma cleanupTempFiles_quiet files w :
  same_redis w (snd (run (ConversionWorker.cleanupTempFiles files) w)).
Proof. apply quiet_run, cleanupTempFiles_within; reflexivity. Qed.

Lemma cleanupTempFiles_no_new_files files w :
  no_new_files [] w (snd (run (ConversionWorker.cleanupTempFiles files) w)).
Proof. apply files_in_run, cleanupTempFiles_within; reflexivity. Qed.

(** After the cleanup none of the given paths is a file. *)
Lemma cleanupTempFiles_removes files : forall w,
  no_files_at files (snd (run (ConversionWorker.cleanupTempFiles files) w)).
Proof.
  induction files as [|file files IH]; intros w path Hp.
  - inversion Hp.
  - change (ConversionWorker.cleanupTempFiles (file :: files))
      with (let* _ :=
              try_catch
                (let* e := perform (ExistsSync file) in
                 if e then call (UnlinkSync file) else Ret tt)
                (fun cleanupError => perform (Log "warn" "Failed to cleanup temp file")) in
            ConversionWorker.cleanupTempFiles files).
    rewrite run_bind.
    destruct (run (try_catch _ _) w) as [o w1] eqn:E1.
    assert (H1 : o = Done tt /\ ~ is_file (fs w1 !! file)).
    { revert E1. steps.
      destruct (fs w !! file) as [[|data]|] eqn:F;
        [ rewrite bool_decide_eq_true_2 by (eexists; reflexivity)
        | rewrite bool_decide_eq_true_2 by (eexists; reflexivity)
        | rewrite bool_decide_eq_false_2 by (intros [? ?]; discriminate) ];
        steps; rewrite ?F; steps; conclude;
        (split; [reflexivity|]); intros [d Hd].
      - rewrite F in Hd. discriminate.
      - rewrite lookup_delete_eq in Hd. discriminate.
      - rewrite F in Hd. discriminate. }
    destruct H1 as [-> H1]. cbv beta iota.
    apply elem_of_cons in Hp as [->|Hp].
    + intros [d Hd]. apply H1. exists d.
      apply (cleanupTempFiles_no_new_files files w1 file d);
        [apply not_elem_of_nil | exact Hd].
    + apply IH. exact Hp.
Qed.

(** ** Footprints of the services *)

Ltac unfold_services :=
  unfold JobService.createJob, JobService.updateJobStatus, JobService.getJobStatus,
    JobService.getNextJob, JobService.deleteJob,
    RedisService.set, RedisService.get, RedisService.del, RedisService.lpush,
    RedisService.brpop, RedisService.getClient, RedisService.isConnected.

Lemma updateJobStatus_files S id updates :
  within (files_in S) (JobService.updateJobStatus id updates).
Proof. unfold_services. footprint. Qed.

Lemma updateJobStatus_prompt id updates :
  within prompt (JobService.updateJobStatus id updates).
Proof. unfold_services. footprint. Qed.


Lemma getNextJob_files S : within (files_in S) JobService.getNextJob.
Proof. unfold_services. footprint. Qed.

Lemma thumbnailTask_quiet image : within quiet (ConversionWorker.thumbnailTask image).
Proof. unfold ConversionWorker.thumbnailTask. footprint. Qed.

Lemma thumbnailTask_files S image :
  within (files_in S) (ConversionWorker.thumbnailTask image).
Proof. unfold ConversionWorker.thumbnailTask. footprint. Qed.

Lemma stages_quiet id inputBuffer originalName :
  within quiet (ConversionWorker.stages id inputBuffer originalName).
Proof.
  unfold ConversionWorker.stages, ConversionWorker.extract, ConversionWorker.decode,
    ConversionWorker.derive, ConversionWorker.thumbnailTask, await.
  footprint.
Qed.

Lemma stages_files id inputBuffer originalName :
  within (files_in (ConversionWorker.tempFiles id originalName))
    (ConversionWorker.stages id inputBuffer originalName).
Proof.
  unfold ConversionWorker.stages, ConversionWorker.extract, ConversionWorker.decode,
    ConversionWorker.derive, ConversionWorker.thumbnailTask, await.
  footprint;
    apply within_call || apply within_perform;
    cbn [files_in]; apply bool_decide_eq_true;
    unfold ConversionWorker.tempFiles; set_solver.
Qed.

(** ** Temporary files *)

Lemma no_new_files_cleaned S w0 w1 w2 :
  no_new_files S w0 w1 -> no_new_files [] w1 w2 -> no_files_at S w2 ->
  no_new_files [] w0 w2.
Proof.
  intros H01 H12 H2 path data _ Hf.
  destruct (decide (path ∈ S)) as [Hin|Hout].
  - exfalso. apply (H2 path Hin). exists data. exact Hf.
  - apply H01; [exact Hout|]. apply H12; [apply not_elem_of_nil | exact Hf].
Qed.

Lemma assemble_rest_files S id startTime inputBuffer originalName st :
  within (files_in S)
    (let* now := perform DateNow in
     let* thumbData := perform (BufferToBase64 (ConversionWorker.finalThumbnailBuffer st)) in
     let* fullData := perform (BufferToBase64 (ConversionWorker.finalFullSizeBuffer st)) in
     let* _ := JobService.updateJobStatus id
                 (ConversionWorker.success originalName inputBuffer thumbData fullData st
                    (now - startTime)) in
     perform (Log "info" ("Job " +:+ id +:+ " completed successfully"))).
Proof.
  footprint.
Qed.

(** The inner [try] with its [catch]: whichever way it ends, no file is
    left that was not there when it began. *)
Lemma convert_cleans_up id startTime inputBuffer originalName w :
  fst (run (try_catch
              (ConversionWorker.convert id startTime inputBuffer originalName)
              (fun conversionError =>
                 let* _ := ConversionWorker.cleanupTempFiles
                             [ConversionWorker.tempOriginal id;
                              ConversionWorker.tempThumb id originalName;
                              ConversionWorker.tempFull id originalName] in
                 Throw conversionError)) w) <> Stuck ->
  no_new_files [] w
    (snd (run (try_catch
                 (ConversionWorker.convert id startTime inputBuffer originalName)
                 (fun conversionError =>
                    let* _ := ConversionWorker.cleanupTempFiles
                                [ConversionWorker.tempOriginal id;
                                 ConversionWorker.tempThumb id originalName;
                                 ConversionWorker.tempFull id originalName] in
                    Throw conversionError)) w)).
Proof.
  fold (ConversionWorker.tempFiles id originalName).
  rewrite run_try_catch. unfold ConversionWorker.convert. rewrite run_bind.
  pose proof (files_in_run _ _ w (stages_files id inputBuffer originalName)) as F1.
  destruct (run (ConversionWorker.stages id inputBuffer originalName) w)
    as [[st|e|] w1]; cbn [snd] in F1; cbv beta iota.
  - unfold ConversionWorker.assemble.
    fold (ConversionWorker.tempFiles id originalName). rewrite run_bind.
    pose proof (cleanupTempFiles_returns (ConversionWorker.tempFiles id originalName) w1) as C1.
    pose proof (cleanupTempFiles_no_new_files (ConversionWorker.tempFiles id originalName) w1) as C2.
    pose proof (cleanupTempFiles_removes (ConversionWorker.tempFiles id originalName) w1) as C3.
    destruct (run (ConversionWorker.cleanupTempFiles _) w1) as [o w2].
    cbn [fst snd] in C1, C2, C3. subst o. cbv beta iota.
    pose proof (no_new_files_cleaned _ _ _ _ F1 C2 C3) as F2.
    pose proof (files_in_run [] _ w2
                  (assemble_rest_files [] id startTime inputBuffer originalName st)) as F3.
    destruct (run _ w2) as [[[]|e|] w3]; cbn [snd] in F3; cbv beta iota.
    + intros _. cbn [snd]. eapply no_new_files_trans; eassumption.
    + rewrite run_bind.
      pose proof (cleanupTempFiles_returns (ConversionWorker.tempFiles id originalName) w3) as D1.
      pose proof (cleanupTempFiles_no_new_files (ConversionWorker.tempFiles id originalName) w3) as D2.
      destruct (run (ConversionWorker.cleanupTempFiles _) w3) as [o w4].
      cbn [fst snd] in D1, D2. subst o. cbv beta iota. cbn [run snd]. intros _.
      eapply no_new_files_trans; [|exact D2].
      eapply no_new_files_trans; eassumption.
    + intros H. contradiction.
  - rewrite run_bind.
    pose proof (cleanupTempFiles_returns (ConversionWorker.tempFiles id originalName) w1) as C1.
    pose proof (cleanupTempFiles_no_new_files (ConversionWorker.tempFiles id originalName) w1) as C2.
    pose proof (cleanupTempFiles_removes (ConversionWorker.tempFiles id originalName) w1) as C3.
    destruct (run (ConversionWorker.cleanupTempFiles _) w1) as [o w2].
    cbn [fst snd] in C1, C2, C3. subst o. cbv beta iota. cbn [run snd]. intros _.
    exact (no_new_files_cleaned _ _ _ _ F1 C2 C3).
  - intros H. contradiction.
Qed.

Lemma files_bind {A B} (p : prog A) (f : A -> prog B) w0 w :
  within (files_in []) p ->
  no_new_files [] w0 w ->
  (forall a w1,
      no_new_files [] w0 w1 -> fst (run (f a) w1) <> Stuck ->
      no_new_files [] w0 (snd (run (f a) w1))) ->
  fst (run (bind p f) w) <> Stuck ->
  no_new_files [] w0 (snd (run (bind p f) w)).
Proof.
  intros Hp H0 Hf. rewrite run_bind.
  pose proof (files_in_run [] p w Hp) as F.
  destruct (run p w) as [[a|e|] w1]; cbn [snd] in F; cbv beta iota.
  - apply Hf. eapply no_new_files_trans; eassumption.
  - intros _. eapply no_new_files_trans; eassumption.
  - intros H. contradiction.
Qed.

Lemma files_try_catch {A} (p : prog A) (h : string -> prog A) w0 w :
  no_new_files [] w0 w ->
  (fst (run p w) <> Stuck -> no_new_files [] w (snd (run p w))) ->
  (forall e, within (files_in []) (h e)) ->
  fst (run (try_catch p h) w) <> Stuck ->
  no_new_files [] w0 (snd (run (try_catch p h) w)).
Proof.
  intros H0 Hp Hh. rewrite run_try_catch.
  destruct (run p w) as [[a|e|] w1]; cbn [fst snd] in Hp; cbv beta iota.
  - intros _. eapply no_new_files_trans; [exact H0 | apply Hp; discriminate].
  - intros _. pose proof (files_in_run [] (h e) w1 (Hh e)) as F.
    eapply no_new_files_trans; [exact H0|].
    eapply no_new_files_trans; [apply Hp; discriminate | exact F].
  - intros H. contradiction.
Qed.

Lemma attempt_cleans_up job startTime w :
  fst (run (ConversionWorker.attempt job startTime) w) <> Stuck ->
  no_new_files [] w (snd (run (ConversionWorker.attempt job startTime) w)).
Proof.
  unfold ConversionWorker.attempt.
  apply files_bind; [apply updateJobStatus_files | apply no_new_files_refl |].
  intros _ w1 F1.
  apply files_bind; [unfold ConversionWorker.bufferFrom; footprint | exact F1 |].
  intros inputBuffer w2 F2.
  apply files_bind; [footprint | exact F2 |]. intros e w3 F3.
  apply files_bind; [footprint | exact F3 |]. intros _ w4 F4.
  apply files_bind; [unfold ConversionWorker.parseName; footprint | exact F4 |].
  intros originalName w5 F5 H.
  eapply no_new_files_trans; [exact F5|].
  apply convert_cleans_up. exact H.
Qed.

(** C5. On every path on which [processJob] comes to an end (it returns,
    after success, after a failure of any stage, after a timeout) no file
    is left that was not there, with the same bytes, before it started: in
    particular the three temporary files of the job are gone, and so are
    they when the extraction of the metadata has failed. *)
Theorem processJob_leaves_no_file (w : world) (job : obj) :
  fst (run (ConversionWorker.processJob job) w) <> Stuck ->
  no_new_files [] w (snd (run (ConversionWorker.processJob job) w)) /\
  (forall S, no_files_at S w ->
             no_files_at S (snd (run (ConversionWorker.processJob job) w))).
Proof.
  intros H.
  assert (F : no_new_files [] w (snd (run (ConversionWorker.processJob job) w))).
  { revert H. unfold ConversionWorker.processJob.
    apply files_bind; [footprint | apply no_new_files_refl |]. intros startTime w1 F1.
    apply files_bind; [footprint | exact F1 |]. intros _ w2 F2.
    apply files_try_catch; [exact F2 | apply attempt_cleans_up |].
    intros e. footprint. }
  split; [exact F|].
  intros S HS path Hp [data Hd]. apply (HS path Hp). exists data.
  apply (F path data); [apply not_elem_of_nil | exact Hd].
Qed.

Lemma run_cleanup_quiet files w :
  exists w', run (ConversionWorker.cleanupTempFiles files) w = (Done tt, w') /\
             same_redis w w'.
Proof.
  pose proof (cleanupTempFiles_returns files w) as H1.
  pose proof (cleanupTempFiles_quiet files w) as H2.
  destruct (run _ w) as [o w']. cbn [fst snd] in *. subst o. eauto.
Qed.

Lemma run_assemble_healthy w id r t startTime inputBuffer originalName st :
  healthy w ->
  store w !! JobService.jobKey id = Some (r, t) ->
  exists w1,
    same_redis w w1 /\
    run (ConversionWorker.assemble id startTime inputBuffer originalName st) w =
    (Done tt, reported_success id r inputBuffer originalName st startTime w1).
Proof.
  intros H Hr. unfold ConversionWorker.assemble. rewrite run_bind.
  destruct (run_cleanup_quiet
              [ConversionWorker.tempOriginal id;
               ConversionWorker.tempThumb id originalName;
               ConversionWorker.tempFull id originalName] w) as (w1 & -> & Hs).
  exists w1. split; [exact Hs|]. cbv beta iota. steps.
  destruct Hs as ((Hs1 & _) & Hc & Hf).
  rewrite (run_updateJobStatus_healthy _ _ _ r t)
    by (try (destruct H; split; congruence); rewrite Hs1; exact Hr).
  steps. reflexivity.
Qed.

Lemma healthy_updated id r w : healthy w -> healthy (updated id r w).
Proof. unfold updated. intros H. solve_healthy. Qed.

Lemma lookup_updated id r w :
  store (updated id r w) !! JobService.jobKey id = Some (r, Some 86400).
Proof. unfold updated. world_simpl. apply lookup_insert_eq. Qed.

Lemma same_redis_entering id r w :
  same_redis (updated id (started r w) w) (entering id r w).
Proof. unfold entering. case_bool_decide; repeat split. Qed.

Lemma healthy_entering id r w : healthy w -> healthy (entering id r w).
Proof.
  intros H. eapply healthy_same_redis; [apply same_redis_entering|].
  apply healthy_updated, H.
Qed.

Lemma lookup_entering id r w :
  store (entering id r w) !! JobService.jobKey id = Some (started r w, Some 86400).
Proof.
  destruct (same_redis_entering id r w) as ((-> & _) & _). apply lookup_updated.
Qed.

Lemma run_convert_healthy w id r t startTime inputBuffer originalName :
  healthy w ->
  store w !! JobService.jobKey id = Some (r, t) ->
  run (try_catch
         (ConversionWorker.convert id startTime inputBuffer originalName)
         (fun conversionError =>
            let* _ := ConversionWorker.cleanupTempFiles
                        [ConversionWorker.tempOriginal id;
                         ConversionWorker.tempThumb id originalName;
                         ConversionWorker.tempFull id originalName] in
            Throw conversionError)) w =
  match run (ConversionWorker.stages id inputBuffer originalName) w with
  | (Done st, w2) =>
      run (ConversionWorker.assemble id startTime inputBuffer originalName st) w2
  | (Failed e, w2) =>
      (Failed e,
       snd (run (ConversionWorker.cleanupTempFiles
                   (ConversionWorker.tempFiles id originalName)) w2))
  | (Stuck, w2) => (Stuck, w2)
  end.
Proof.
  intros H Hr. rewrite run_try_catch. unfold ConversionWorker.convert.
  rewrite run_bind.
  pose proof (quiet_run _ w (stages_quiet id inputBuffer originalName)) as Q.
  destruct (run (ConversionWorker.stages _ _ _) w) as [[st|e|] w2];
    cbn [snd] in Q; cbv beta iota.
  - destruct (run_assemble_healthy w2 id r t startTime inputBuffer originalName st)
      as (w3 & _ & ->).
    + eapply healthy_same_redis; eassumption.
    + destruct Q as ((-> & _) & _). exact Hr.
    + reflexivity.
  - rewrite run_bind. unfold ConversionWorker.tempFiles.
    pose proof (cleanupTempFiles_returns
                  [ConversionWorker.tempOriginal id;
                   ConversionWorker.tempThumb id originalName;
                   ConversionWorker.tempFull id originalName] w2) as C.
    destruct (run (ConversionWorker.cleanupTempFiles _) w2) as [o w3].
    cbn [fst] in C. subst o. reflexivity.
  - reflexivity.
Qed.

Lemma run_attempt_stages w job r t startTime s name :
  healthy w ->
  store w !! JobService.jobKey (js_to_string (job !! "id")) = Some (r, t) ->
  job !! "imageData" = Some (VStr s) ->
  job !! "originalName" = Some (VStr name) ->
  run (ConversionWorker.attempt job startTime) w =
  match run (ConversionWorker.stages (js_to_string (job !! "id"))
               (base64_decode (lib w) s) (path_parse_name (lib w) name))
            (entering (js_to_string (job !! "id")) r w) with
  | (Done st, w2) =>
      run (ConversionWorker.assemble (js_to_string (job !! "id")) startTime
             (base64_decode (lib w) s) (path_parse_name (lib w) name) st) w2
  | (Failed e, w2) =>
      (Failed e,
       snd (run (ConversionWorker.cleanupTempFiles
                   (ConversionWorker.tempFiles (js_to_string (job !! "id"))
                      (path_parse_name (lib w) name))) w2))
  | (Stuck, w2) => (Stuck, w2)
  end.
Proof.
  intros H Hr Hs Hn.
  rewrite <- (run_convert_healthy _ _ (started r w) (Some 86400) startTime)
    by (apply healthy_entering, H || apply lookup_entering).
  unfold ConversionWorker.attempt. rewrite run_bind.
  rewrite (run_updateJobStatus_healthy _ _ _ r t) by assumption.
  cbv beta iota. fold (started r w). rewrite Hs, Hn.
  unfold ConversionWorker.bufferFrom, ConversionWorker.parseName. steps.
  unfold entering, updated. world_simpl.
  case_bool_decide as E; steps.
  - reflexivity.
  - apply eq_None_not_Some in E. rewrite E. steps. reflexivity.
Qed.

(** How the outer [try] block ends on a healthy store: the record has been
    set to [processing], and then either the results have been reported, or
    an exception leaves the block, or a stage never settles, with the store
    as it was after the first update. *)
Lemma attempt_healthy w job r t startTime :
  healthy w ->
  store w !! JobService.jobKey (js_to_string (job !! "id")) = Some (r, t) ->
  match run (ConversionWorker.attempt job startTime) w with
  | (Done _, w') =>
      exists w2 inputBuffer originalName st,
        same_redis (updated (js_to_string (job !! "id")) (started r w) w) w2 /\
        w' = reported_success (js_to_string (job !! "id")) (started r w)
               inputBuffer originalName st startTime w2
  | (Failed e, w') =>
      same_redis (updated (js_to_string (job !! "id")) (started r w) w) w'
  | (Stuck, w') =>
      same_redis (updated (js_to_string (job !! "id")) (started r w) w) w'
  end.
Proof.
  intros H Hr.
  destruct (job !! "imageData") as [[| | |s|]|] eqn:Hs;
    try (unfold ConversionWorker.attempt; rewrite run_bind;
         rewrite (run_updateJobStatus_healthy _ _ _ r t) by assumption;
         cbv beta iota; rewrite Hs; cbn [ConversionWorker.bufferFrom bind run];
         solve [apply same_redis_refl]).
  destruct (job !! "originalName") as [[| | |name|]|] eqn:Hn;
    try (unfold ConversionWorker.attempt; rewrite run_bind;
         rewrite (run_updateJobStatus_healthy _ _ _ r t) by assumption;
         cbv beta iota; rewrite Hs, Hn;
         unfold ConversionWorker.bufferFrom, ConversionWorker.parseName; steps;
         unfold updated; world_simpl;
         destruct (fs w !! ConversionWorker.tempDir) as [[|?]|] eqn:E;
         [ rewrite bool_decide_eq_true_2 by (eexists; reflexivity)
         | rewrite bool_decide_eq_true_2 by (eexists; reflexivity)
         | rewrite bool_decide_eq_false_2 by (intros [? ?]; discriminate) ];
         steps; rewrite ?E; steps; solve [repeat split]).
  rewrite (run_attempt_stages _ _ r t _ s name) by assumption.
  pose proof (quiet_run _ (entering (js_to_string (job !! "id")) r w)
                (stages_quiet (js_to_string (job !! "id"))
                   (base64_decode (lib w) s) (path_parse_name (lib w) name))) as Q.
  pose proof (same_redis_trans _ _ _ (same_redis_entering _ r w) Q) as Q1.
  destruct (run (ConversionWorker.stages _ _ _) _) as [[st|e|] w2];
    cbn [snd] in Q, Q1; cbv beta iota.
  - destruct (run_assemble_healthy w2 (js_to_string (job !! "id")) (started r w)
                (Some 86400) startTime (base64_decode (lib w) s)
                (path_parse_name (lib w) name) st) as (w3 & Q3 & ->).
    + eapply healthy_same_redis; [exact Q1 | apply healthy_updated, H].
    + destruct Q1 as ((-> & _) & _). apply lookup_updated.
    + exists w3. do 3 eexists. split; [|reflexivity].
      eapply same_redis_trans; eassumption.
  - eapply same_redis_trans; [exact Q1 | apply cleanupTempFiles_quiet].
  - exact Q1.
Qed.

Lemma run_processJob_healthy w job r t :
  healthy w ->
  store w !! JobService.jobKey (js_to_string (job !! "id")) = Some (r, t) ->
  run (ConversionWorker.processJob job) w =
  match run (ConversionWorker.attempt job (clock w)) w with
  | (Done _, w2) => (Done tt, w2)
  | (Failed e, w2) =>
      (Done tt, reported_failure (js_to_string (job !! "id")) (started r w) e (clock w) w2)
  | (Stuck, w2) => (Stuck, w2)
  end.
Proof.
  intros H Hr. unfold ConversionWorker.processJob. steps.
  pose proof (attempt_healthy w job r t (clock w) H Hr) as A.
  destruct (run (ConversionWorker.attempt job (clock w)) w) as [[[]|e|] w2];
    try reflexivity.
  steps.
  rewrite (run_updateJobStatus_healthy _ _ _ (started r w) (Some 86400)).
  - steps. reflexivity.
  - eapply healthy_same_redis; [exact A | apply healthy_updated, H].
  - destruct A as ((-> & _) & _). apply lookup_updated.
Qed.

(** ** The lifecycle on a healthy store *)

Lemma history_app key l1 l2 :
  history key (l1 ++ l2) = history key l1 ++ history key l2.
Proof.
  induction l1 as [|[k v t|k|k e|k e] l1 IH]; cbn [history app]; try exact IH.
  - reflexivity.
  - destruct (String.eqb k key); [cbn [app]; f_equal|]; exact IH.
Qed.



Lemma status_merged (r updates : obj) now :
  merged r updates now !! "status" =
  match updates !! "status" with
  | Some s => Some s
  | None => r !! "status"
  end.
Proof. apply lookup_merged. discriminate. Qed.

Lemma status_started r w : started r w !! "status" = processing.
Proof. unfold started. rewrite status_merged. reflexivity. Qed.

Lemma lookup_reported_failure id r e startTime w :
  exists r',
    store (reported_failure id r e startTime w) !! JobService.jobKey id
    = Some (r', Some 86400) /\
    r' !! "status" = Some (VStr "failed") /\
    r' !! "error" = Some (VStr e) /\
    r' !! "results" = r !! "results".
Proof.
  unfold reported_failure. eexists. split; [apply lookup_updated|].
  rewrite !lookup_merged by discriminate. repeat split.
Qed.

Lemma lookup_reported_success id r inputBuffer originalName st startTime w :
  exists r' thumbData fullData,
    store (reported_success id r inputBuffer originalName st startTime w)
      !! JobService.jobKey id = Some (r', Some 86400) /\
    r' !! "status" = Some (VStr "completed") /\
    r' !! "error" = r !! "error" /\
    r' !! "results" =
    Some (ConversionWorker.results originalName thumbData fullData
            (ConversionWorker.byteLength (ConversionWorker.finalThumbnailBuffer st))
            (ConversionWorker.byteLength (ConversionWorker.finalFullSizeBuffer st))
            (ConversionWorker.byteLength inputBuffer)
            (ConversionWorker.width (ConversionWorker.imageMetadata st))
            (ConversionWorker.height (ConversionWorker.imageMetadata st))
            (ConversionWorker.originalMetadata st)).
Proof.
  unfold reported_success. do 3 eexists. split; [apply lookup_updated|].
  rewrite !lookup_merged by discriminate. repeat split.
Qed.

(** What [processJob] does to a record on a healthy store: it sets it to
    [processing], and then, unless a stage never settles, to [completed]
    with the results or to [failed] with the error that left the outer
    [try] block. *)
Lemma processJob_healthy w job r t :
  healthy w ->
  store w !! JobService.jobKey (js_to_string (job !! "id")) = Some (r, t) ->
  exists w2,
    same_redis (updated (js_to_string (job !! "id")) (started r w) w) w2 /\
    ((exists inputBuffer originalName st,
        run (ConversionWorker.processJob job) w =
        (Done tt, reported_success (js_to_string (job !! "id")) (started r w)
                    inputBuffer originalName st (clock w) w2)) \/
     (exists e,
        run (ConversionWorker.attempt job (clock w)) w = (Failed e, w2) /\
        run (ConversionWorker.processJob job) w =
        (Done tt, reported_failure (js_to_string (job !! "id")) (started r w)
                    e (clock w) w2)) \/
     run (ConversionWorker.processJob job) w = (Stuck, w2)).
Proof.
  intros H Hr. rewrite (run_processJob_healthy w job r t H Hr).
  pose proof (attempt_healthy w job r t (clock w) H Hr) as A.
  destruct (run (ConversionWorker.attempt job (clock w)) w) as [[[]|e|] w2].
  - destruct A as (w3 & inputBuffer & originalName & st & Q & ->).
    exists w3. split; [exact Q|]. left. eauto.
  - exists w2. split; [exact A|]. right; left. eauto.
  - exists w2. split; [exact A|]. right; right. reflexivity.
Qed.




(** The statuses written for the sample job, from its creation on. *)
Example sample_job_history :
  history "jpeg2avif:job:job-0" (aof Sample.finished)
  = [Some (VStr "queued"); Some (VStr "processing"); Some (VStr "completed")].
Proof. vm_compute. reflexivity. Qed.


(** ** The worker loop *)

Lemma handle_lib {X} (c : cmd X) w x w' :
  handle c w = Some (x, w') -> lib w' = lib w.
Proof.
  destruct c; cbn [handle]; intros H;
    try (unfold client, next_fault in H; destruct (faults w) as [|[?|] ?]; cbn in H);
    repeat match type of H with
           | context [match ?t with _ => _ end] => destruct t eqn:?
           end;
    try discriminate; injection H as <- <-; try reflexivity.
  all: match goal with
       | H : match rev ?l with _ => _ end = _ |- _ =>
           destruct (rev l); inversion H; subst; reflexivity
       end.
Qed.

Lemma run_lib {A} (p : prog A) : forall w, lib (snd (run p w)) = lib w.
Proof.
  induction p as [a|e|X c k IH]; intros w; cbn [run]; try reflexivity.
  destruct (handle c w) as [[x w']|] eqn:E; [|reflexivity].
  rewrite IH. eapply handle_lib, E.
Qed.

Lemma prompt_withTimeout {X} (p : promise X) ms description :
  prompt (res X) (Await (ConversionWorker.withTimeout p ms description)) = true.
Proof.
  unfold ConversionWorker.withTimeout, race, rejectAfter.
  destruct p as [d r|]; [destruct (Z.leb d ms)|]; reflexivity.
Qed.

(** Every wait of [derive] is against a timer. *)
Lemma derive_prompt id inputBuffer originalName om image :
  within prompt (ConversionWorker.derive id inputBuffer originalName om image).
Proof.
  unfold ConversionWorker.derive, ConversionWorker.thumbnailTask, await.
  repeat first
    [ apply within_Ret | apply within_Throw
    | apply within_perform; reflexivity
    | apply within_call; first [reflexivity | apply prompt_withTimeout]
    | apply within_bind; [|intros ?]
    | match goal with
      | |- within _ (match ?x with _ => _ end) => destruct x
      end ].
Qed.

Lemma extract_not_stuck id inputBuffer w :
  exiftool_read (lib w) inputBuffer <> Never ->
  fst (run (ConversionWorker.extract id inputBuffer) w) <> Stuck.
Proof.
  intros R. unfold ConversionWorker.extract, await. steps.
  destruct (fs w !! ConversionWorker.tempOriginal id) as [[|?]|];
    steps; try discriminate.
  all: rewrite lookup_insert_eq; steps.
  all: destruct (exiftool_read (lib w) inputBuffer) as [d [e|om]|];
    [steps; discriminate | steps; discriminate | contradiction].
Qed.

Lemma decode_not_stuck inputBuffer w :
  jimp_read (lib w) inputBuffer <> Never ->
  fst (run (ConversionWorker.decode inputBuffer) w) <> Stuck.
Proof.
  intros R. unfold ConversionWorker.decode, await. steps.
  destruct (jimp_read (lib w) inputBuffer) as [d [e|om]|];
    [steps; discriminate | steps; discriminate | contradiction].
Qed.

Lemma settles_bind {A B} (p : prog A) (f : A -> prog B) :
  settles p -> (forall a, settles (f a)) -> settles (bind p f).
Proof.
  intros Hp Hf w R. rewrite run_bind. specialize (Hp w R).
  pose proof (run_lib p w) as L.
  destruct (run p w) as [[a|e|] w']; cbn [fst snd] in *.
  - apply Hf. rewrite L. exact R.
  - discriminate.
  - destruct Hp. reflexivity.
Qed.

Lemma settles_try_catch {A} (p : prog A) (h : string -> prog A) :
  settles p -> (forall e, settles (h e)) -> settles (try_catch p h).
Proof.
  intros Hp Hh w R. rewrite run_try_catch. specialize (Hp w R).
  pose proof (run_lib p w) as L.
  destruct (run p w) as [[a|e|] w']; cbn [fst snd] in *.
  - discriminate.
  - apply Hh. rewrite L. exact R.
  - exact Hp.
Qed.

Lemma settles_prompt {A} (p : prog A) : within prompt p -> settles p.
Proof. intros Hp w _. apply prompt_run, Hp. Qed.

Lemma stages_settles id inputBuffer originalName :
  settles (ConversionWorker.stages id inputBuffer originalName).
Proof.
  unfold ConversionWorker.stages. apply settles_bind.
  - intros w R. apply extract_not_stuck, R.
  - intros om. apply settles_bind.
    + intros w R. apply decode_not_stuck, R.
    + intros image. apply settles_prompt, derive_prompt.
Qed.

Lemma cleanupTempFiles_settles files :
  settles (ConversionWorker.cleanupTempFiles files).
Proof. apply settles_prompt, cleanupTempFiles_within; reflexivity. Qed.

Lemma processJob_settles job : settles (ConversionWorker.processJob job).
Proof.
  unfold ConversionWorker.processJob.
  apply settles_bind; [apply settles_prompt; footprint|]. intros startTime.
  apply settles_bind; [apply settles_prompt; footprint|]. intros _.
  apply settles_try_catch.
  - unfold ConversionWorker.attempt.
    apply settles_bind; [apply settles_prompt, updateJobStatus_prompt|]. intros _.
    apply settles_bind;
      [apply settles_prompt; unfold ConversionWorker.bufferFrom; footprint|].
    intros inputBuffer.
    apply settles_bind; [apply settles_prompt; footprint|]. intros e.
    apply settles_bind; [apply settles_prompt; footprint|]. intros _.
    apply settles_bind;
      [apply settles_prompt; unfold ConversionWorker.parseName; footprint|].
    intros originalName. apply settles_try_catch.
    + unfold ConversionWorker.convert. apply settles_bind; [apply stages_settles|].
      intros st. unfold ConversionWorker.assemble.
      apply settles_bind; [apply cleanupTempFiles_settles|]. intros _.
      apply settles_prompt. footprint.
    + intros e'. apply settles_bind; [apply cleanupTempFiles_settles|].
      intros _. apply settles_prompt. footprint.
  - intros e. apply settles_prompt. footprint.
Qed.


Lemma iteration_catches : catches ConversionWorker.iteration.
Proof.
  unfold ConversionWorker.iteration. apply catches_try_catch.
  intros e. apply catches_perform.
Qed.



(** The store rejects both updates of [processJob]: the second rejection
    leaves [processJob] as an exception, and the turn of the loop returns. *)
Example iteration_catches_what_processJob_throws :
  fst (run (ConversionWorker.processJob Sample.job)
         (set_faults (fun _ => [Some "ECONNRESET"; Some "ECONNRESET"]) Sample.submitted))
  = Failed "Failed to update job status: Failed to get job status: ECONNRESET" /\
  fst (run ConversionWorker.iteration Sample.flaky) = Done tt /\
  fst (run (ConversionWorker.loop 3) (set_isRunning true Sample.flaky)) = Done tt.
Proof. repeat split; vm_compute; reflexivity. Qed.

(** ** Timeouts *)

Lemma withTimeout_exceeds {X} (p : promise X) ms description :
  exceeds p ms ->
  ConversionWorker.withTimeout p ms description = Settles ms (inl (timed_out description ms)).
Proof.
  unfold ConversionWorker.withTimeout, race, rejectAfter, exceeds, timed_out.
  destruct p as [d r|]; [|reflexivity].
  intros H. apply Z.leb_gt in H. rewrite H. reflexivity.
Qed.

Lemma withTimeout_in_time {X} (p : promise X) ms description x :
  in_time p ms x ->
  exists d, ConversionWorker.withTimeout p ms description = Settles d (inr x).
Proof.
  intros (d & -> & H). exists d.
  unfold ConversionWorker.withTimeout, race, rejectAfter.
  apply Z.leb_le in H. rewrite H. reflexivity.
Qed.

Lemma withTimeout_bounded {X} (p : promise X) ms description :
  exists d r, ConversionWorker.withTimeout p ms description = Settles d r /\ d <= ms.
Proof.
  unfold ConversionWorker.withTimeout, race, rejectAfter.
  destruct p as [d r|].
  - destruct (Z.leb d ms) eqn:E.
    + exists d, r. split; [reflexivity | apply Z.leb_le, E].
    + do 2 eexists. split; [reflexivity | lia].
  - do 2 eexists. split; [reflexivity | lia].
Qed.

Lemma run_thumbnailTask image w :
  run (ConversionWorker.thumbnailTask image) w = (Done (thumbnailPromise (lib w) image), w).
Proof.
  unfold ConversionWorker.thumbnailTask, thumbnailPromise. steps.
  destruct (jimp_getBuffer (lib w) _) as [d [e|b]|]; steps; reflexivity.
Qed.

Lemma run_await_exceeds {X} (p : promise X) ms description w :
  exceeds p ms ->
  run (await (ConversionWorker.withTimeout p ms description)) w =
  (Failed (timed_out description ms), set_clock (fun t => t + ms) w).
Proof.
  intros H. rewrite (withTimeout_exceeds p ms description H). reflexivity.
Qed.

Lemma run_await_in_time {X} (p : promise X) ms description x w :
  in_time p ms x ->
  exists d, run (await (ConversionWorker.withTimeout p ms description)) w =
            (Done x, set_clock (fun t => t + d) w).
Proof.
  intros H. destruct (withTimeout_in_time p ms description x H) as (d & ->).
  exists d. reflexivity.
Qed.

Lemma run_await_settled {X} d (x : X) ms description w :
  d <= ms ->
  run (await (ConversionWorker.withTimeout (Settles d (inr x)) ms description)) w =
  (Done x, set_clock (fun t => t + d) w).
Proof.
  intros H. unfold ConversionWorker.withTimeout, race, rejectAfter.
  apply Z.leb_le in H. rewrite H. reflexivity.
Qed.

Lemma tempThumb_ne_tempFull id originalName :
  ConversionWorker.tempThumb id originalName <> ConversionWorker.tempFull id originalName.
Proof.
  unfold ConversionWorker.tempThumb, ConversionWorker.tempFull, ConversionWorker.path_join.
  intros H. repeat apply String.app_inj in H. discriminate.
Qed.

Lemma derive_thumbnail_timeout id inputBuffer originalName om image w :
  exceeds (thumbnailPromise (lib w) image) 30000 ->
  fst (run (ConversionWorker.derive id inputBuffer originalName om image) w)
  = Failed (timed_out "Thumbnail conversion" 30000).
Proof.
  intros H. unfold ConversionWorker.derive. cbv zeta.
  rewrite run_bind, run_thumbnailTask. cbv beta iota.
  rewrite run_bind, run_await_exceeds by exact H. reflexivity.
Qed.

Lemma derive_full_size_timeout id inputBuffer originalName om image w thumbnailBuffer :
  in_time (thumbnailPromise (lib w) image) 30000 thumbnailBuffer ->
  exceeds (imagemin_avif (lib w) inputBuffer 85 4) 60000 ->
  fst (run (ConversionWorker.derive id inputBuffer originalName om image) w)
  = Failed (timed_out "Full-size conversion" 60000).
Proof.
  intros H1 H2. unfold ConversionWorker.derive. cbv zeta.
  rewrite run_bind, run_thumbnailTask. cbv beta iota. rewrite run_bind.
  destruct (run_await_in_time _ 30000 "Thumbnail conversion" _ w H1) as (d1 & ->).
  cbv beta iota. rewrite run_bind, run_perform. cbn [handle]. cbv beta iota.
  world_simpl. rewrite run_bind, run_await_exceeds by exact H2. reflexivity.
Qed.

Lemma run_write_file path data w :
  fs w !! path <> Some Dir ->
  run (call (WriteFileSync path data)) w = (Done tt, set_fs <[path := File data]> w).
Proof.
  intros H. rewrite run_call. cbn [handle].
  destruct (fs w !! path) as [[|?]|]; [contradiction | reflexivity | reflexivity].
Qed.

Lemma run_derive_variants id inputBuffer originalName om image w
    thumbnailBuffer fullSizeBuffer :
  in_time (thumbnailPromise (lib w) image) 30000 thumbnailBuffer ->
  in_time (imagemin_avif (lib w) inputBuffer 85 4) 60000 fullSizeBuffer ->
  fs w !! ConversionWorker.tempThumb id originalName <> Some Dir ->
  fs w !! ConversionWorker.tempFull id originalName <> Some Dir ->
  exists d1 d2,
    run (ConversionWorker.derive id inputBuffer originalName om image) w =
    run (let tags := ConversionWorker.metadataToPreserve
                       (getWidth image) (getHeight image) om in
         let* wt := perform (ExiftoolWrite (ConversionWorker.tempThumb id originalName) tags) in
         let* _ := await (ConversionWorker.withTimeout wt 10000 "Thumbnail metadata copy") in
         let* wf := perform (ExiftoolWrite (ConversionWorker.tempFull id originalName) tags) in
         let* _ := await (ConversionWorker.withTimeout wf 10000 "Full-size metadata copy") in
         let* finalThumbnailBuffer :=
           call (ReadFileSync (ConversionWorker.tempThumb id originalName)) in
         let* finalFullSizeBuffer :=
           call (ReadFileSync (ConversionWorker.tempFull id originalName)) in
         Ret {| ConversionWorker.originalMetadata := om;
                ConversionWorker.imageMetadata :=
                  {| ConversionWorker.width := getWidth image;
                     ConversionWorker.height := getHeight image;
                     ConversionWorker.format := "jpeg";
                     ConversionWorker.channels := 3 |};
                ConversionWorker.finalThumbnailBuffer := finalThumbnailBuffer;
                ConversionWorker.finalFullSizeBuffer := finalFullSizeBuffer |})
        (variants_written id originalName thumbnailBuffer fullSizeBuffer d1 d2 w).
Proof.
  intros H1 H2 F1 F2. unfold ConversionWorker.derive. cbv zeta.
  rewrite run_bind, run_thumbnailTask. cbv beta iota. rewrite run_bind.
  destruct (run_await_in_time _ 30000 "Thumbnail conversion" _ w H1) as (d1 & ->).
  cbv beta iota. rewrite run_bind, run_perform. cbn [handle]. cbv beta iota.
  world_simpl. rewrite run_bind.
  destruct (run_await_in_time _ 60000 "Full-size conversion" _
              (set_clock (fun t => t + d1) w) H2) as (d2 & ->).
  cbv beta iota. exists d1, d2.
  rewrite run_bind, run_write_file by (world_simpl; exact F1). cbv beta iota.
  rewrite run_bind, run_write_file
    by (world_simpl; rewrite lookup_insert_ne by apply tempThumb_ne_tempFull; exact F2).
  reflexivity.
Qed.

Lemma derive_thumbnail_write_timeout id inputBuffer originalName om image w
    thumbnailBuffer fullSizeBuffer :
  in_time (thumbnailPromise (lib w) image) 30000 thumbnailBuffer ->
  in_time (imagemin_avif (lib w) inputBuffer 85 4) 60000 fullSizeBuffer ->
  fs w !! ConversionWorker.tempThumb id originalName <> Some Dir ->
  fs w !! ConversionWorker.tempFull id originalName <> Some Dir ->
  exceeds (exiftool_write (lib w) thumbnailBuffer
             (ConversionWorker.metadataToPreserve (getWidth image) (getHeight image) om))
          10000 ->
  fst (run (ConversionWorker.derive id inputBuffer originalName om image) w)
  = Failed (timed_out "Thumbnail metadata copy" 10000).
Proof.
  intros H1 H2 F1 F2 H3.
  destruct (run_derive_variants id inputBuffer originalName om image w
              thumbnailBuffer fullSizeBuffer H1 H2 F1 F2) as (d1 & d2 & ->).
  cbv zeta. rewrite run_bind, run_perform. cbn [handle].
  unfold variants_written. world_simpl.
  rewrite lookup_insert_ne by (intros E; symmetry in E; revert E; apply tempThumb_ne_tempFull).
  rewrite lookup_insert_eq.
  destruct (exiftool_write (lib w) thumbnailBuffer _) as [d [e|b]|]; cbv beta iota;
    rewrite run_bind, run_await_exceeds by exact H3; reflexivity.
Qed.

Lemma derive_full_size_write_timeout id inputBuffer originalName om image w
    thumbnailBuffer fullSizeBuffer thumbnailBuffer' :
  in_time (thumbnailPromise (lib w) image) 30000 thumbnailBuffer ->
  in_time (imagemin_avif (lib w) inputBuffer 85 4) 60000 fullSizeBuffer ->
  fs w !! ConversionWorker.tempThumb id originalName <> Some Dir ->
  fs w !! ConversionWorker.tempFull id originalName <> Some Dir ->
  in_time (exiftool_write (lib w) thumbnailBuffer
             (ConversionWorker.metadataToPreserve (getWidth image) (getHeight image) om))
          10000 thumbnailBuffer' ->
  exceeds (exiftool_write (lib w) fullSizeBuffer
             (ConversionWorker.metadataToPreserve (getWidth image) (getHeight image) om))
          10000 ->
  fst (run (ConversionWorker.derive id inputBuffer originalName om image) w)
  = Failed (timed_out "Full-size metadata copy" 10000).
Proof.
  intros H1 H2 F1 F2 (d3 & H3 & Hd3) H4.
  destruct (run_derive_variants id inputBuffer originalName om image w
              thumbnailBuffer fullSizeBuffer H1 H2 F1 F2) as (d1 & d2 & ->).
  cbv zeta. rewrite run_bind, run_perform. cbn [handle].
  unfold variants_written. world_simpl.
  rewrite lookup_insert_ne by (intros E; symmetry in E; revert E; apply tempThumb_ne_tempFull).
  rewrite lookup_insert_eq, H3. cbv beta iota.
  rewrite run_bind, run_await_settled by exact Hd3.
  cbv beta iota. rewrite run_bind, run_perform. cbn [handle]. world_simpl.
  rewrite lookup_insert_ne by apply tempThumb_ne_tempFull.
  rewrite lookup_insert_eq.
  destruct (exiftool_write (lib w) fullSizeBuffer _) as [d' [e|b]|]; cbv beta iota;
    rewrite run_bind, run_await_exceeds by exact H4; reflexivity.
Qed.

Example sample_timeouts :
  Sample.outcome_of (snd (run ConversionWorker.iteration Sample.slow_thumbnail))
  = (Some (VStr "failed"),
     Some (VStr "Thumbnail conversion timed out after 30000ms"), None) /\
  Sample.outcome_of (snd (run ConversionWorker.iteration Sample.slow_full_size))
  = (Some (VStr "failed"),
     Some (VStr "Full-size conversion timed out after 60000ms"), None) /\
  Sample.outcome_of (snd (run ConversionWorker.iteration Sample.slow_thumbnail_write))
  = (Some (VStr "failed"),
     Some (VStr "Thumbnail metadata copy timed out after 10000ms"), None) /\
  Sample.outcome_of (snd (run ConversionWorker.iteration Sample.hung_full_size_write))
  = (Some (VStr "failed"),
     Some (VStr "Full-size metadata copy timed out after 10000ms"), None) /\
  Sample.outcome_of (snd (run ConversionWorker.iteration Sample.failed_extraction))
  = (Some (VStr "failed"),
     Some (VStr "Metadata extraction failed: File format error"), None).
Proof. repeat split; vm_compute; reflexivity. Qed.

(** A failure of the stages is the failure of the job. *)
Lemma job_fails_with_stages w job r t s name e :
  healthy w ->
  store w !! JobService.jobKey (js_to_string (job !! "id")) = Some (r, t) ->
  job !! "imageData" = Some (VStr s) ->
  job !! "originalName" = Some (VStr name) ->
  fst (run (ConversionWorker.stages (js_to_string (job !! "id"))
              (base64_decode (lib w) s) (path_parse_name (lib w) name))
           (entering (js_to_string (job !! "id")) r w)) = Failed e ->
  fst (run (ConversionWorker.processJob job) w) = Done tt /\
  exists r',
    store (snd (run (ConversionWorker.processJob job) w))
      !! JobService.jobKey (js_to_string (job !! "id")) = Some (r', Some 86400) /\
    r' !! "status" = Some (VStr "failed") /\
    r' !! "error" = Some (VStr e) /\
    r' !! "results" = r !! "results".
Proof.
  intros H Hr Hs Hn E.
  rewrite (run_processJob_healthy w job r t H Hr).
  rewrite (run_attempt_stages w job r t (clock w) s name H Hr Hs Hn).
  destruct (run (ConversionWorker.stages _ _ _) _) as [o w2]. cbn [fst] in E.
  subst o. cbv beta iota. cbn [fst snd]. split; [reflexivity|].
  destruct (lookup_reported_failure (js_to_string (job !! "id")) (started r w) e (clock w)
              (snd (run (ConversionWorker.cleanupTempFiles
                          (ConversionWorker.tempFiles (js_to_string (job !! "id"))
                             (path_parse_name (lib w) name))) w2)))
    as (r' & L & S1 & S2 & S3).
  exists r'. repeat split; try assumption.
  rewrite S3. unfold started. apply lookup_merged. discriminate.
Qed.

(** Stages that never settle leave the job at [processing]. *)
Lemma job_stuck_with_stages w job r t s name :
  healthy w ->
  store w !! JobService.jobKey (js_to_string (job !! "id")) = Some (r, t) ->
  job !! "imageData" = Some (VStr s) ->
  job !! "originalName" = Some (VStr name) ->
  fst (run (ConversionWorker.stages (js_to_string (job !! "id"))
              (base64_decode (lib w) s) (path_parse_name (lib w) name))
           (entering (js_to_string (job !! "id")) r w)) = Stuck ->
  fst (run (ConversionWorker.processJob job) w) = Stuck /\
  exists r',
    store (snd (run (ConversionWorker.processJob job) w))
      !! JobService.jobKey (js_to_string (job !! "id")) = Some (r', Some 86400) /\
    r' !! "status" = processing.
Proof.
  intros H Hr Hs Hn E.
  rewrite (run_processJob_healthy w job r t H Hr).
  rewrite (run_attempt_stages w job r t (clock w) s name H Hr Hs Hn).
  pose proof (quiet_run _ (entering (js_to_string (job !! "id")) r w)
                (stages_quiet (js_to_string (job !! "id"))
                   (base64_decode (lib w) s) (path_parse_name (lib w) name))) as Q.
  destruct (run (ConversionWorker.stages _ _ _) _) as [o w2]. cbn [fst snd] in E, Q.
  subst o. cbv beta iota. cbn [fst snd]. split; [reflexivity|].
  exists (started r w). destruct Q as ((-> & _) & _).
  split; [apply lookup_entering | apply status_started].
Qed.

Lemma stages_fail_with_derive id inputBuffer originalName w om w1 image w2 e :
  run (ConversionWorker.extract id inputBuffer) w = (Done om, w1) ->
  run (ConversionWorker.decode inputBuffer) w1 = (Done image, w2) ->
  fst (run (ConversionWorker.derive id inputBuffer originalName om image) w2) = Failed e ->
  fst (run (ConversionWorker.stages id inputBuffer originalName) w) = Failed e.
Proof.
  intros E1 E2 E3. unfold ConversionWorker.stages.
  rewrite run_bind, E1. cbv beta iota. rewrite run_bind, E2. exact E3.
Qed.

Lemma extract_never_settles id inputBuffer w :
  fs w !! ConversionWorker.tempOriginal id <> Some Dir ->
  exiftool_read (lib w) inputBuffer = Never ->
  fst (run (ConversionWorker.extract id inputBuffer) w) = Stuck.
Proof.
  intros F E. unfold ConversionWorker.extract.
  rewrite run_bind, run_write_file by exact F. cbv beta iota.
  unfold await. steps. rewrite lookup_insert_eq, E. steps. reflexivity.
Qed.

Lemma decode_never_settles inputBuffer w :
  jimp_read (lib w) inputBuffer = Never ->
  fst (run (ConversionWorker.decode inputBuffer) w) = Stuck.
Proof.
  intros E. unfold ConversionWorker.decode, await. steps. rewrite E. steps.
  reflexivity.
Qed.

Lemma stages_stuck_in_extract id inputBuffer originalName w :
  fs w !! ConversionWorker.tempOriginal id <> Some Dir ->
  exiftool_read (lib w) inputBuffer = Never ->
  fst (run (ConversionWorker.stages id inputBuffer originalName) w) = Stuck.
Proof.
  intros F E. unfold ConversionWorker.stages. rewrite run_bind.
  pose proof (extract_never_settles id inputBuffer w F E) as S.
  destruct (run (ConversionWorker.extract id inputBuffer) w) as [o w1].
  cbn [fst] in S. subst o. reflexivity.
Qed.

Lemma lib_entering id r w : lib (entering id r w) = lib w.
Proof. destruct (same_redis_entering id r w) as ((_ & _ & _ & _ & ->) & _). reflexivity. Qed.

Lemma results_started r w : started r w !! "results" = r !! "results".
Proof. unfold started. apply lookup_merged. discriminate. Qed.

(** The results are written in one piece or not at all. *)
Lemma results_all_or_nothing w job r t :
  healthy w ->
  store w !! JobService.jobKey (js_to_string (job !! "id")) = Some (r, t) ->
  exists r',
    store (snd (run (ConversionWorker.processJob job) w))
      !! JobService.jobKey (js_to_string (job !! "id")) = Some (r', Some 86400) /\
    (r' !! "results" = r !! "results" /\ r' !! "status" <> Some (VStr "completed") \/
     r' !! "status" = Some (VStr "completed") /\
     exists originalName thumbData fullData thumbSize fullSize originalSize width height om,
       r' !! "results" =
       Some (ConversionWorker.results originalName thumbData fullData
               thumbSize fullSize originalSize width height om)).
Proof.
  intros H Hr.
  destruct (processJob_healthy w job r t H Hr)
    as (w2 & Q & [(inputBuffer & originalName & st & E) | [(e & _ & E) | E]]);
    rewrite E; cbn [snd].
  - destruct (lookup_reported_success (js_to_string (job !! "id")) (started r w)
                inputBuffer originalName st (clock w) w2)
      as (r' & thumbData & fullData & L & S1 & _ & S3).
    exists r'. split; [exact L|]. right. split; [exact S1|].
    do 9 eexists. exact S3.
  - destruct (lookup_reported_failure (js_to_string (job !! "id")) (started r w)
                e (clock w) w2) as (r' & L & S1 & _ & S3).
    exists r'. split; [exact L|]. left.
    rewrite S3, S1. split; [apply results_started | discriminate].
  - exists (started r w). destruct Q as ((-> & _) & _).
    split; [apply lookup_updated|]. left.
    rewrite status_started. split; [apply results_started | discriminate].
Qed.

(** C4, as the code has it. The thumbnail conversion (30 s), the full-size
    conversion (60 s) and each of the two metadata writes (10 s) are raced
    against a timer, which settles by its bound; when one of them exceeds
    its bound the stages fail with the timeout as their error, and the job
    is set to [failed] with that error.  The extraction of the metadata and
    the decoding are awaited without a timer: when one of them never settles
    [processJob] never returns and the record stays at [processing].  The
    results are written in one piece, with both variants and the status
    [completed], or not at all. *)
Theorem bounded_stages_abort_the_job (w : world) :
  healthy w ->
  (forall X (p : promise X) ms description,
     exists d r,
       ConversionWorker.withTimeout p ms description = Settles d r /\ d <= ms /\
       (exceeds p ms -> r = inl (timed_out description ms))) /\
  (forall id inputBuffer originalName om image w',
     (exceeds (thumbnailPromise (lib w') image) 30000 ->
      fst (run (ConversionWorker.derive id inputBuffer originalName om image) w')
      = Failed (timed_out "Thumbnail conversion" 30000)) /\
     (forall thumbnailBuffer,
        in_time (thumbnailPromise (lib w') image) 30000 thumbnailBuffer ->
        exceeds (imagemin_avif (lib w') inputBuffer 85 4) 60000 ->
        fst (run (ConversionWorker.derive id inputBuffer originalName om image) w')
        = Failed (timed_out "Full-size conversion" 60000)) /\
     (forall thumbnailBuffer fullSizeBuffer,
        in_time (thumbnailPromise (lib w') image) 30000 thumbnailBuffer ->
        in_time (imagemin_avif (lib w') inputBuffer 85 4) 60000 fullSizeBuffer ->
        fs w' !! ConversionWorker.tempThumb id originalName <> Some Dir ->
        fs w' !! ConversionWorker.tempFull id originalName <> Some Dir ->
        (exceeds (exiftool_write (lib w') thumbnailBuffer
                    (ConversionWorker.metadataToPreserve
                       (getWidth image) (getHeight image) om)) 10000 ->
         fst (run (ConversionWorker.derive id inputBuffer originalName om image) w')
         = Failed (timed_out "Thumbnail metadata copy" 10000)) /\
        (forall thumbnailBuffer',
           in_time (exiftool_write (lib w') thumbnailBuffer
                      (ConversionWorker.metadataToPreserve
                         (getWidth image) (getHeight image) om)) 10000 thumbnailBuffer' ->
           exceeds (exiftool_write (lib w') fullSizeBuffer
                      (ConversionWorker.metadataToPreserve
                         (getWidth image) (getHeight image) om)) 10000 ->
           fst (run (ConversionWorker.derive id inputBuffer originalName om image) w')
           = Failed (timed_out "Full-size metadata copy" 10000)))) /\
  (forall job r t s name,
     store w !! JobService.jobKey (js_to_string (job !! "id")) = Some (r, t) ->
     job !! "imageData" = Some (VStr s) ->
     job !! "originalName" = Some (VStr name) ->
     (forall om w1 image w2 e,
        run (ConversionWorker.extract (js_to_string (job !! "id")) (base64_decode (lib w) s))
          (entering (js_to_string (job !! "id")) r w) = (Done om, w1) ->
        run (ConversionWorker.decode (base64_decode (lib w) s)) w1 = (Done image, w2) ->
        fst (run (ConversionWorker.derive (js_to_string (job !! "id"))
                    (base64_decode (lib w) s) (path_parse_name (lib w) name) om image) w2)
        = Failed e ->
        fst (run (ConversionWorker.processJob job) w) = Done tt /\
        exists r',
          store (snd (run (ConversionWorker.processJob job) w))
            !! JobService.jobKey (js_to_string (job !! "id")) = Some (r', Some 86400) /\
          r' !! "status" = Some (VStr "failed") /\
          r' !! "error" = Some (VStr e) /\
          r' !! "results" = r !! "results") /\
     (fs (entering (js_to_string (job !! "id")) r w)
        !! ConversionWorker.tempOriginal (js_to_string (job !! "id")) <> Some Dir ->
      exiftool_read (lib w) (base64_decode (lib w) s) = Never ->
      fst (run (ConversionWorker.processJob job) w) = Stuck /\
      exists r',
        store (snd (run (ConversionWorker.processJob job) w))
          !! JobService.jobKey (js_to_string (job !! "id")) = Some (r', Some 86400) /\
        r' !! "status" = processing) /\
     (forall om w1,
        run (ConversionWorker.extract (js_to_string (job !! "id")) (base64_decode (lib w) s))
          (entering (js_to_string (job !! "id")) r w) = (Done om, w1) ->
        jimp_read (lib w) (base64_decode (lib w) s) = Never ->
        fst (run (ConversionWorker.processJob job) w) = Stuck /\
        exists r',
          store (snd (run (ConversionWorker.processJob job) w))
            !! JobService.jobKey (js_to_string (job !! "id")) = Some (r', Some 86400) /\
          r' !! "status" = processing)) /\
  (forall job r t,
     store w !! JobService.jobKey (js_to_string (job !! "id")) = Some (r, t) ->
     exists r',
       store (snd (run (ConversionWorker.processJob job) w))
         !! JobService.jobKey (js_to_string (job !! "id")) = Some (r', Some 86400) /\
       (r' !! "results" = r !! "results" /\ r' !! "status" <> Some (VStr "completed") \/
        r' !! "status" = Some (VStr "completed") /\
        exists originalName thumbData fullData thumbSize fullSize originalSize width height om,
          r' !! "results" =
          Some (ConversionWorker.results originalName thumbData fullData
                  thumbSize fullSize originalSize width height om))).
Proof.
  intros H. split; [|split; [|split]].
  - intros X p ms description.
    destruct (withTimeout_bounded p ms description) as (d & r & E & Hd).
    exists d, r. split; [exact E|]. split; [exact Hd|].
    intros Hx. rewrite (withTimeout_exceeds p ms description Hx) in E.
    injection E as _ <-. reflexivity.
  - intros id inputBuffer originalName om image w'.
    split; [apply derive_thumbnail_timeout|].
    split; [intros tb; apply derive_full_size_timeout|].
    intros tb fb H1 H2 F1 F2. split.
    + apply (derive_thumbnail_write_timeout _ _ _ _ _ _ tb fb); assumption.
    + intros tb'. apply (derive_full_size_write_timeout _ _ _ _ _ _ tb fb tb'); assumption.
  - intros job r t s name Hr Hs Hn. split; [|split].
    + intros om w1 image w2 e E1 E2 E3.
      apply (job_fails_with_stages w job r t s name e H Hr Hs Hn).
      eapply stages_fail_with_derive; eassumption.
    + intros F E.
      apply (job_stuck_with_stages w job r t s name H Hr Hs Hn).
      apply stages_stuck_in_extract; [exact F|]. rewrite lib_entering. exact E.
    + intros om w1 E1 E.
      apply (job_stuck_with_stages w job r t s name H Hr Hs Hn).
      unfold ConversionWorker.stages. rewrite run_bind, E1. cbv beta iota.
      rewrite run_bind.
      assert (L : lib w1 = lib w).
      { change w1 with (snd (Done om, w1)). rewrite <- E1, run_lib.
        apply lib_entering. }
      pose proof (decode_never_settles (base64_decode (lib w) s) w1) as D.
      rewrite L in D. specialize (D E).
      destruct (run (ConversionWorker.decode _) w1) as [o w2]. cbn [fst] in D.
      subst o. reflexivity.
  - intros job r t Hr. apply (results_all_or_nothing w job r t H Hr).
Qed.

(** ** The worker on any store *)

Lemma wrote_after w0 w id r w' :
  same_server w0 w -> wrote id r w w' -> wrote id r w0 w'.
Proof.
  intros (S1 & S2 & S3 & S4 & S5) (W1 & W2 & W3 & W4 & W5).
  unfold wrote. rewrite W1, W2, W3, W4, W5, S1, S2, S3, S4, S5. repeat split.
Qed.

Lemma wrote_before w id r w1 w' :
  wrote id r w w1 -> same_server w1 w' -> wrote id r w w'.
Proof.
  intros (W1 & W2 & W3 & W4 & W5) (S1 & S2 & S3 & S4 & S5).
  unfold wrote. rewrite S1, S2, S3, S4, S5, W1, W2, W3, W4, W5. repeat split.
Qed.

Lemma same_redis_server w0 w : same_redis w0 w -> same_server w0 w.
Proof. intros [H _]. exact H. Qed.

Lemma quiet_server {A} (p : prog A) w o w' :
  within quiet p -> run p w = (o, w') -> same_server w w'.
Proof.
  intros Hp E. pose proof (quiet_run p w Hp) as Q. rewrite E in Q.
  apply same_redis_server, Q.
Qed.

(** [updateJobStatus], in terms of [wrote]. *)
Lemma updateJobStatus_wrote w id updates o w' :
  run (JobService.updateJobStatus id updates) w = (o, w') ->
  (exists job t now,
     store w !! JobService.jobKey id = Some (job, t) /\
     o = Done (merged job updates now) /\
     wrote id (merged job updates now) w w') \/
  (exists e, o = Failed e /\ same_server w w').
Proof.
  intros E. apply updateJobStatus_spec in E.
  destruct E as [(job & t & now & Hr & -> & W) | E]; [left | right; exact E].
  exists job, t, now. repeat split; try apply W; assumption.
Qed.

Lemma convert_spec w id startTime inputBuffer originalName o w' :
  run (try_catch
         (ConversionWorker.convert id startTime inputBuffer originalName)
         (fun conversionError =>
            let* _ := ConversionWorker.cleanupTempFiles
                        [ConversionWorker.tempOriginal id;
                         ConversionWorker.tempThumb id originalName;
                         ConversionWorker.tempFull id originalName] in
            Throw conversionError)) w = (o, w') ->
  (unfinished o /\ same_server w w') \/
  (o = Done tt /\
   exists job t u now,
     store w !! JobService.jobKey id = Some (job, t) /\
     reports_success u /\ wrote id (merged job u now) w w').
Proof.
  rewrite run_try_catch. unfold ConversionWorker.convert. rewrite run_bind.
  destruct (run (ConversionWorker.stages id inputBuffer originalName) w)
    as [[st|e|] w1] eqn:E1;
    apply (quiet_server _ _ _ _ (stages_quiet id inputBuffer originalName)) in E1;
    cbv beta iota.
  - unfold ConversionWorker.assemble. rewrite run_bind.
    destruct (run_cleanup_quiet
                [ConversionWorker.tempOriginal id;
                 ConversionWorker.tempThumb id originalName;
                 ConversionWorker.tempFull id originalName] w1) as (w2 & -> & Q2).
    apply same_redis_server in Q2. cbv beta iota. steps.
    run_cases updateJobStatus_wrote.
    destruct E as [(job & t & now & Hr & -> & W) | (e & -> & S3)]; steps.
    + conclude. right. split; [reflexivity|].
      pose proof (same_server_trans _ _ _ E1 Q2) as S12.
      exists job, t. do 2 eexists.
      split; [destruct S12 as (<- & _); exact Hr|].
      split; [do 2 eexists; reflexivity|].
      eapply wrote_after; [exact S12 | exact W].
    + destruct (run_cleanup_quiet
                  [ConversionWorker.tempOriginal id;
                   ConversionWorker.tempThumb id originalName;
                   ConversionWorker.tempFull id originalName] w0) as (w3 & -> & Q3).
      apply same_redis_server in Q3. steps. conclude.
      left. split; [exact I|].
      eapply same_server_trans; [exact E1|].
      eapply same_server_trans; [exact Q2|].
      eapply same_server_trans; [exact S3 | exact Q3].
  - rewrite run_bind.
    destruct (run_cleanup_quiet
                [ConversionWorker.tempOriginal id;
                 ConversionWorker.tempThumb id originalName;
                 ConversionWorker.tempFull id originalName] w1) as (w2 & -> & Q2).
    apply same_redis_server in Q2. steps. conclude.
    left. split; [exact I|]. eapply same_server_trans; eassumption.
  - conclude. left. split; [exact I | exact E1].
Qed.

Lemma bind_quiet {A B} (p : prog A) (f : A -> prog B) w o w' :
  within quiet p ->
  run (bind p f) w = (o, w') ->
  (unfinished o /\ same_server w w') \/
  (exists a w1, same_server w w1 /\ run (f a) w1 = (o, w')).
Proof.
  intros Hp. rewrite run_bind.
  destruct (run p w) as [[a|e|] w1] eqn:E; apply (quiet_server _ _ _ _ Hp) in E.
  - intros E'. right. eauto.
  - conclude. left. split; [exact I | exact E].
  - conclude. left. split; [exact I | exact E].
Qed.

Lemma lookup_wrote id r w w' :
  wrote id r w w' -> store w' !! JobService.jobKey id = Some (r, Some 86400).
Proof. intros (-> & _). apply lookup_insert_eq. Qed.

Lemma attempt_spec w job startTime o w' :
  run (ConversionWorker.attempt job startTime) w = (o, w') ->
  (unfinished o /\ same_server w w') \/
  (exists r t now w1,
     store w !! JobService.jobKey (js_to_string (job !! "id")) = Some (r, t) /\
     wrote (js_to_string (job !! "id")) (merged r toProcessing now) w w1 /\
     ((unfinished o /\ same_server w1 w') \/
      (o = Done tt /\
       exists u now',
         reports_success u /\
         wrote (js_to_string (job !! "id"))
           (merged (merged r toProcessing now) u now') w1 w'))).
Proof.
  unfold ConversionWorker.attempt. rewrite run_bind.
  run_cases updateJobStatus_wrote.
  destruct E as [(r & t & now & Hr & -> & W) | (e & -> & S1)]; cbv beta iota.
  2: { conclude. left. split; [exact I | exact S1]. }
  intros E. right. exists r, t, now, w0. split; [exact Hr|]. split; [exact W|].
  apply bind_quiet in E; [|unfold ConversionWorker.bufferFrom; footprint].
  destruct E as [E | (inputBuffer & w1 & S1 & E)]; [left; exact E|].
  apply bind_quiet in E; [|footprint].
  destruct E as [[U S2] | (ex & w2 & S2 & E)];
    [left; split; [exact U | eapply same_server_trans; eassumption]|].
  pose proof (same_server_trans _ _ _ S1 S2) as S12.
  apply bind_quiet in E; [|footprint].
  destruct E as [[U S3] | ([] & w3 & S3 & E)];
    [left; split; [exact U | eapply same_server_trans; eassumption]|].
  pose proof (same_server_trans _ _ _ S12 S3) as S13.
  apply bind_quiet in E; [|unfold ConversionWorker.parseName; footprint].
  destruct E as [[U S4] | (originalName & w4 & S4 & E)];
    [left; split; [exact U | eapply same_server_trans; eassumption]|].
  pose proof (same_server_trans _ _ _ S13 S4) as S14.
  apply convert_spec in E.
  destruct E as [[U S5] | (-> & job' & t' & u & now' & Hr' & Hu & W')].
  - left. split; [exact U | eapply same_server_trans; eassumption].
  - right. split; [reflexivity|]. exists u, now'. split; [exact Hu|].
    assert (job' = merged r toProcessing now) as ->.
    { destruct S14 as (S & _). rewrite S, (lookup_wrote _ _ _ _ W) in Hr'.
      injection Hr' as <- _. reflexivity. }
    eapply wrote_after; eassumption.
Qed.

(** What [processJob] writes, whatever the store answers: nothing; or one
    record, the job set to [processing] or to [failed]; or two, the job set
    to [processing] and then to [completed] or to [failed]. *)
Lemma processJob_spec w job o w' :
  run (ConversionWorker.processJob job) w = (o, w') ->
  same_server w w' \/
  (exists r t u now,
     store w !! JobService.jobKey (js_to_string (job !! "id")) = Some (r, t) /\
     (u = toProcessing \/ reports_failure u) /\
     wrote (js_to_string (job !! "id")) (merged r u now) w w') \/
  (exists r t now w1 u now',
     store w !! JobService.jobKey (js_to_string (job !! "id")) = Some (r, t) /\
     wrote (js_to_string (job !! "id")) (merged r toProcessing now) w w1 /\
     (reports_success u \/ reports_failure u) /\
     wrote (js_to_string (job !! "id"))
       (merged (merged r toProcessing now) u now') w1 w').
Proof.
  unfold ConversionWorker.processJob. steps.
  destruct (run (ConversionWorker.attempt job (clock w)) w) as [o1 w2] eqn:E.
  apply attempt_spec in E.
  destruct E as [[U S1] | (r & t & now & w1 & Hr & W & [[U S1] | (-> & u & now' & Hu & W')])].
  - destruct o1 as [a|e|]; [destruct U | |]; steps.
    + run_cases updateJobStatus_wrote.
      destruct E as [(r & t & now & Hr & -> & W) | (e' & -> & S2)]; steps; conclude.
      * right; left. exists r, t. do 2 eexists.
        split; [destruct S1 as (<- & _); exact Hr|].
        split; [right; do 2 eexists; reflexivity|].
        eapply wrote_after; eassumption.
      * left. eapply same_server_trans; eassumption.
    + conclude. left. exact S1.
  - destruct o1 as [a|e|]; [destruct U | |]; steps.
    + run_cases updateJobStatus_wrote.
      destruct E as [(r' & t' & now' & Hr' & -> & W') | (e' & -> & S2)]; steps; conclude.
      * right; right. exists r, t, now, w1. do 2 eexists.
        split; [exact Hr|]. split; [exact W|].
        split; [right; do 2 eexists; reflexivity|].
        assert (r' = merged r toProcessing now) as ->.
        { destruct S1 as (S & _). rewrite S, (lookup_wrote _ _ _ _ W) in Hr'.
          injection Hr' as <- _. reflexivity. }
        eapply wrote_after; eassumption.
      * right; left. exists r, t, toProcessing, now.
        split; [exact Hr|]. split; [left; reflexivity|].
        eapply wrote_before; [exact W|]. eapply same_server_trans; eassumption.
    + conclude. right; left. exists r, t, toProcessing, now.
      split; [exact Hr|]. split; [left; reflexivity|].
      eapply wrote_before; eassumption.
  - steps. conclude. right; right. exists r, t, now, w1, u, now'.
    split; [exact Hr|]. split; [exact W|]. split; [left; exact Hu | exact W'].
Qed.

(** ** Records of the lifecycle *)

Lemma unsettled_exclusive r : unsettled r -> exclusive r.
Proof.
  intros (Hr & He & Ht). split; split.
  - rewrite Hr. intros [? ?]. discriminate.
  - intros H. destruct Ht. left. exact H.
  - rewrite He. intros [? ?]. discriminate.
  - intros H. destruct Ht. right. exact H.
Qed.

Lemma unsettled_processing r now : unsettled r -> unsettled (merged r toProcessing now).
Proof.
  intros (Hr & He & Ht). unfold unsettled.
  rewrite !lookup_merged by discriminate. cbn.
  repeat split; try assumption. intros [H|H]; discriminate.
Qed.

Lemma exclusive_success r u now :
  unsettled r -> reports_success u -> exclusive (merged r u now).
Proof.
  intros (Hr & He & Ht) (pt & res & ->). unfold exclusive.
  rewrite !lookup_merged by discriminate. cbn. rewrite He.
  split; split; try discriminate; try reflexivity; try (intros [? ?]; discriminate).
  intros _. eexists. reflexivity.
Qed.

Lemma exclusive_failure r u now :
  unsettled r -> reports_failure u -> exclusive (merged r u now).
Proof.
  intros (Hr & He & Ht) (e & pt & ->). unfold exclusive.
  rewrite !lookup_merged by discriminate. cbn. rewrite Hr.
  split; split; try discriminate; try reflexivity; try (intros [? ?]; discriminate).
  intros _. eexists. reflexivity.
Qed.

Lemma id_processing r now : merged r toProcessing now !! "id" = r !! "id".
Proof. apply lookup_merged. discriminate. Qed.

Lemma id_success r u now : reports_success u -> merged r u now !! "id" = r !! "id".
Proof. intros (pt & res & ->). apply lookup_merged. discriminate. Qed.

Lemma id_failure r u now : reports_failure u -> merged r u now !! "id" = r !! "id".
Proof. intros (e & pt & ->). apply lookup_merged. discriminate. Qed.

Lemma created_request name data size rid w :
  created (request name data size rid) w !! "id"
  = Some (VStr (uuid_of (lib w) (uuid_count w))) /\
  unsettled (created (request name data size rid) w).
Proof.
  unfold unsettled, created, request.
  repeat split; try reflexivity. intros [H|H]; discriminate.
Qed.

(** ** Consistency of the reachable worlds *)

Lemma jobKey_inj a b : JobService.jobKey a = JobService.jobKey b -> a = b.
Proof. unfold JobService.jobKey. apply String.app_inj. Qed.

Lemma consistent_ext w w' :
  store w' = store w -> lists w' = lists w -> aof w' = aof w ->
  uuid_count w' = uuid_count w -> uuid_of (lib w') = uuid_of (lib w) ->
  consistent w -> consistent w'.
Proof.
  intros E1 E2 E3 E4 E5. unfold consistent, queue, list_at.
  rewrite E1, E2, E3, E4, E5. exact (fun H => H).
Qed.

Lemma consistent_same_server w w' : same_server w w' -> consistent w -> consistent w'.
Proof.
  intros (E1 & E2 & E3 & E4 & E5). apply consistent_ext; try assumption.
  rewrite E5. reflexivity.
Qed.

Lemma consistent_start w :
  store w = ∅ -> lists w = ∅ -> aof w = [] -> Inj (=) (=) (uuid_of (lib w)) ->
  consistent w.
Proof.
  intros E1 E2 E3 Hi. unfold consistent, queue, list_at. rewrite E1, E2, E3.
  split; [exact Hi|]. split.
  { intros k r t H. rewrite lookup_empty in H. discriminate. }
  rewrite lookup_empty. cbn [default].
  split; [intros e He; inversion He|].
  split; [constructor|].
  split; [intros e r t He; inversion He|].
  intros k r t [].
Qed.

Lemma consistent_expire w key : consistent w -> consistent (set_store (delete key) w).
Proof.
  intros (Hi & Hs & Hq & Hn & Hu & Ha). unfold consistent, queue, list_at in *.
  world_simpl. split; [exact Hi|]. split.
  { intros k r t H. apply lookup_delete_Some in H as [_ H]. eauto. }
  split; [exact Hq|]. split; [exact Hn|]. split; [|exact Ha].
  intros e r t He H. apply lookup_delete_Some in H as [_ H]. eauto.
Qed.

(** A write of a record of a job that is not in the queue. *)
Lemma consistent_wrote w id r t x w' :
  consistent w ->
  store w !! JobService.jobKey id = Some (r, t) ->
  x !! "id" = r !! "id" -> exclusive x ->
  (forall e, e ∈ queue w -> jobId e <> id) ->
  wrote id x w w' ->
  consistent w'.
Proof.
  intros (Hi & Hs & Hq & Hn & Hu & Ha) Hr Hid Hx Hout (E1 & E2 & E3 & E4 & E5).
  unfold consistent, queue, list_at in *. rewrite E1, E2, E3, E4, E5.
  split; [exact Hi|]. split.
  { intros k r' t' H.
    destruct (decide (k = JobService.jobKey id)) as [->|Hne].
    - rewrite lookup_insert_eq in H. injection H as <- <-.
      destruct (Hs _ _ _ Hr) as (i & Hlt & Hk & Hi' & _).
      exists i. rewrite Hid. split; [exact Hlt|]. split; [exact Hk|].
      split; [exact Hi' | exact Hx].
    - rewrite lookup_insert_ne in H by congruence. eauto. }
  split; [exact Hq|]. split; [exact Hn|]. split.
  { intros e r' t' He H.
    rewrite lookup_insert_ne in H; [eauto|].
    intros E. apply jobKey_inj in E. apply (Hout e He). symmetry. exact E. }
  intros k r' t' H. apply in_app_or in H as [H|[H|[]]]; [eauto|].
  injection H as <- <- <-. exact Hx.
Qed.

(** The oldest entry leaves the queue. *)
Lemma consistent_popped w newer oldest w' :
  consistent w ->
  queue w = newer ++ [oldest] ->
  store w' = store w ->
  lists w' = <[JobService.queueKey := newer]> (lists w) ->
  aof w' = aof w ++ [Popped JobService.queueKey oldest] ->
  uuid_count w' = uuid_count w -> lib w' = lib w ->
  consistent w' /\ queue w' = newer /\
  (forall e, e ∈ newer -> jobId e <> jobId oldest).
Proof.
  intros (Hi & Hs & Hq & Hn & Hu & Ha) Q E1 E2 E3 E4 E5.
  assert (Q' : queue w' = newer).
  { unfold queue, list_at. rewrite E2, lookup_insert_eq. reflexivity. }
  rewrite Q in Hn, Hq, Hu.
  assert (Hout : forall e, e ∈ newer -> jobId e <> jobId oldest).
  { intros e He E. apply NoDup_app in Hn as (_ & Hd & _).
    apply (Hd e He). destruct e as [a], oldest as [b]. cbn in E. subst b.
    apply list_elem_of_singleton. reflexivity. }
  split; [|split; [exact Q' | exact Hout]].
  unfold consistent. rewrite Q', E1, E3, E4, E5.
  split; [exact Hi|]. split; [exact Hs|].
  split; [intros e He; apply Hq, elem_of_app; left; exact He|].
  split; [apply NoDup_app in Hn as (Hn & _); exact Hn|].
  split; [intros e r t He; apply Hu, elem_of_app; left; exact He|].
  intros k r t H. apply in_app_or in H as [H|[H|[]]]; [eauto | discriminate].
Qed.

(** A fresh record is stored. *)
Lemma consistent_stored w job w' :
  consistent w ->
  job !! "id" = Some (VStr (uuid_of (lib w) (uuid_count w))) ->
  unsettled job ->
  store w' = <[JobService.jobKey (uuid_of (lib w) (uuid_count w)) := (job, Some 86400)]>
               (store w) ->
  lists w' = lists w ->
  aof w' = aof w ++ [Wrote (JobService.jobKey (uuid_of (lib w) (uuid_count w)))
                       job (Some 86400)] ->
  uuid_count w' = S (uuid_count w) -> lib w' = lib w ->
  consistent w'.
Proof.
  intros (Hi & Hs & Hq & Hn & Hu & Ha) Hid Hj E1 E2 E3 E4 E5.
  unfold consistent, queue, list_at in *. rewrite E1, E2, E3, E4, E5.
  split; [exact Hi|]. split.
  { intros k r t H.
    destruct (decide (k = JobService.jobKey (uuid_of (lib w) (uuid_count w)))) as [->|Hne].
    - rewrite lookup_insert_eq in H. injection H as <- <-.
      exists (uuid_count w). split; [lia|]. split; [reflexivity|].
      split; [exact Hid | apply unsettled_exclusive, Hj].
    - rewrite lookup_insert_ne in H by congruence.
      destruct (Hs _ _ _ H) as (i & Hlt & Hr). exists i. split; [lia | exact Hr]. }
  split.
  { intros e He. destruct (Hq e He) as (i & Hlt & Hr). exists i. split; [lia | exact Hr]. }
  split; [exact Hn|]. split.
  { intros e r t He H. destruct (Hq e He) as (i & Hlt & Hr).
    rewrite lookup_insert_ne in H; [eauto|].
    intros E. apply jobKey_inj in E. rewrite Hr in E. apply Hi in E. lia. }
  intros k r t H. apply in_app_or in H as [H|[H|[]]]; [eauto|].
  injection H as <- <- <-. apply unsettled_exclusive, Hj.
Qed.

(** An entry for a stored, unsettled record enters the queue. *)
Lemma consistent_pushed w id w' :
  consistent w ->
  (exists i, (i < uuid_count w)%nat /\ id = uuid_of (lib w) i) ->
  (forall e, e ∈ queue w -> jobId e <> id) ->
  (forall r t, store w !! JobService.jobKey id = Some (r, t) -> unsettled r) ->
  store w' = store w ->
  lists w' = <[JobService.queueKey := {| jobId := id |} :: queue w]> (lists w) ->
  aof w' = aof w ++ [Pushed JobService.queueKey {| jobId := id |}] ->
  uuid_count w' = uuid_count w -> lib w' = lib w ->
  consistent w'.
Proof.
  intros (Hi & Hs & Hq & Hn & Hu & Ha) Hid Hout Hr E1 E2 E3 E4 E5.
  assert (Q : queue w' = {| jobId := id |} :: queue w).
  { unfold queue at 1, list_at. rewrite E2, lookup_insert_eq. reflexivity. }
  unfold consistent. rewrite Q, E1, E3, E4, E5.
  split; [exact Hi|]. split; [exact Hs|]. split.
  { intros e He. apply elem_of_cons in He as [->|He]; [exact Hid | eauto]. }
  split.
  { constructor; [|exact Hn]. intros He. apply (Hout _ He). reflexivity. }
  split.
  { intros e r t He H. apply elem_of_cons in He as [->|He]; [eauto | eauto]. }
  intros k r t H. apply in_app_or in H as [H|[H|[]]]; [eauto | discriminate].
Qed.

Lemma consistent_convert w name data size rid :
  consistent w ->
  consistent (snd (run (JobService.createJob (request name data size rid)) w)).
Proof.
  intros C.
  destruct (run (JobService.createJob (request name data size rid)) w) as [o w'] eqn:E.
  apply createJob_spec in E. cbv zeta in E. cbn [snd].
  destruct (created_request name data size rid w) as [Hid Hj].
  destruct E as (E4 & E5 & [(e & _ & E1 & E2 & E3) |
                            [(e & _ & E1 & E2 & E3) | (_ & E1 & E2 & E3)]]).
  - destruct C as (Hi & Hs & Hq & Hn & Hu & Ha).
    unfold consistent, queue, list_at in *. rewrite E1, E2, E3, E4, E5.
    split; [exact Hi|]. split.
    { intros k r t H. destruct (Hs _ _ _ H) as (i & Hlt & Hr).
      exists i. split; [lia | exact Hr]. }
    split.
    { intros e' He. destruct (Hq e' He) as (i & Hlt & Hr).
      exists i. split; [lia | exact Hr]. }
    split; [exact Hn|]. split; [exact Hu | exact Ha].
  - eapply consistent_stored; eassumption.
  - pose (w1 := set_aof (fun l => l ++ [Wrote (JobService.jobKey (uuid_of (lib w) (uuid_count w)))
                                         (created (request name data size rid) w)
                                         (Some 86400)])
                  (set_store <[JobService.jobKey (uuid_of (lib w) (uuid_count w)) :=
                                 (created (request name data size rid) w, Some 86400)]>
                     (set_uuid_count S w))).
    assert (C1 : consistent w1)
      by (eapply (consistent_stored w); try eassumption; reflexivity).
    apply (consistent_pushed w1 (uuid_of (lib w) (uuid_count w))); try assumption.
    + exists (uuid_count w). split; [cbn; lia | reflexivity].
    + intros e' He. destruct C as (Hi & _ & Hq & _).
      destruct (Hq e' He) as (i & Hlt & Hr). rewrite Hr. intros E.
      apply Hi in E. lia.
    + intros r t H. unfold w1 in H. world_simpl. rewrite lookup_insert_eq in H.
      injection H as <- _. exact Hj.
    + subst w1. cbn. rewrite E3, <- app_assoc. reflexivity.
Qed.

Lemma consistent_id w id r t :
  consistent w -> store w !! JobService.jobKey id = Some (r, t) ->
  js_to_string (r !! "id") = id.
Proof.
  intros (_ & Hs & _) Hr. destruct (Hs _ _ _ Hr) as (i & _ & Hk & Hid & _).
  apply jobKey_inj in Hk. rewrite Hid, Hk. reflexivity.
Qed.

Lemma queue_wrote id x w w' : wrote id x w w' -> queue w' = queue w.
Proof. intros (_ & E & _). unfold queue, list_at. rewrite E. reflexivity. Qed.

(** The worker handles a job that has left the queue. *)
Lemma consistent_processJob w id r t :
  consistent w ->
  store w !! JobService.jobKey id = Some (r, t) ->
  unsettled r ->
  (forall e, e ∈ queue w -> jobId e <> id) ->
  consistent (snd (run (ConversionWorker.processJob r) w)).
Proof.
  intros C Hr Hu Hout.
  pose proof (consistent_id w id r t C Hr) as Hid.
  destruct (run (ConversionWorker.processJob r) w) as [o w'] eqn:E.
  apply processJob_spec in E. rewrite Hid in E. cbn [snd].
  destruct E as [S | [(r' & t' & u & now & Hr' & Hcase & W) |
                      (r' & t' & now & w1 & u & now' & Hr' & W1 & Hcase & W2)]].
  - eapply consistent_same_server; eassumption.
  - rewrite Hr in Hr'. injection Hr' as <- <-.
    apply (consistent_wrote w id r t (merged r u now)); try assumption.
    + destruct Hcase as [->|Hf]; [apply id_processing | apply id_failure, Hf].
    + destruct Hcase as [->|Hf];
        [apply unsettled_exclusive, unsettled_processing, Hu
        | apply exclusive_failure; assumption].
  - rewrite Hr in Hr'. injection Hr' as <- <-.
    assert (C1 : consistent w1).
    { apply (consistent_wrote w id r t (merged r toProcessing now)); try assumption.
      - apply id_processing.
      - apply unsettled_exclusive, unsettled_processing, Hu. }
    apply (consistent_wrote w1 id (merged r toProcessing now) (Some 86400)
             (merged (merged r toProcessing now) u now')); try assumption.
    + eapply lookup_wrote, W1.
    + destruct Hcase as [Hs|Hf]; [apply id_success, Hs | apply id_failure, Hf].
    + destruct Hcase as [Hs|Hf];
        [apply exclusive_success | apply exclusive_failure];
        try assumption; apply unsettled_processing, Hu.
    + rewrite (queue_wrote _ _ _ _ W1). exact Hout.
Qed.

Lemma consistent_status w id :
  consistent w -> consistent (snd (run (JobService.getJobStatus id) w)).
Proof.
  intros C. destruct (run (JobService.getJobStatus id) w) as [o w'] eqn:E.
  apply getJobStatus_spec in E as [S _]. eapply consistent_same_server; eassumption.
Qed.

Lemma consistent_work w :
  consistent w -> consistent (snd (run ConversionWorker.iteration w)).
Proof.
  intros C. unfold ConversionWorker.iteration. rewrite run_try_catch, run_bind.
  destruct (run JobService.getNextJob w) as [o1 w1] eqn:E.
  apply getNextJob_spec in E.
  destruct E as (E1 & E4 & E5 & [(E2 & E3 & Ho) | (newer & oldest & Q & E2 & E3 & Ho)]).
  - assert (C1 : consistent w1)
      by (apply (consistent_ext w); congruence).
    destruct Ho as [-> | [e ->]]; exact C1.
  - destruct (consistent_popped w newer oldest w1 C Q E1 E2 E3 E4 E5)
      as (C1 & Q1 & Hout).
    destruct Ho as [-> | [e ->]]; [|exact C1].
    destruct (store w !! JobService.jobKey (jobId oldest)) as [[r t]|] eqn:Hr;
      cbn [fmap option_fmap option_map fst]; [|exact C1].
    assert (C2 : consistent (snd (run (ConversionWorker.processJob r) w1))).
    { apply (consistent_processJob w1 (jobId oldest) r t C1).
      - rewrite E1. exact Hr.
      - destruct C as (_ & _ & _ & _ & Hu & _).
        apply (Hu oldest r t); [|exact Hr]. unfold queue in Q. fold (queue w) in Q.
        rewrite Q. apply elem_of_app. right. apply list_elem_of_singleton. reflexivity.
      - rewrite Q1. exact Hout. }
    destruct (run (ConversionWorker.processJob r) w1) as [[[]|e|] w2]; exact C2.
Qed.

Lemma reachable_consistent w : reachable w -> consistent w.
Proof.
  induction 1 as [w E1 E2 E3 Hi | w w' _ IH (E1 & E2 & E3 & E4 & E5) | w key _ IH
                  | w name data size rid _ IH | w id _ IH | w _ IH].
  - apply consistent_start; assumption.
  - apply (consistent_ext w); assumption.
  - apply consistent_expire, IH.
  - apply consistent_convert, IH.
  - apply consistent_status, IH.
  - apply consistent_work, IH.
Qed.

(** ** Results and errors *)

Lemma sample_uuid_inj : Inj (=) (=) (uuid_of Sample.libraries).
Proof.
  intros a b H. cbn in H. apply String.app_inj in H.
  apply (inj pretty) in H. exact H.
Qed.

Lemma sample_reachable : reachable Sample.finished.
Proof.
  apply reach_work. apply reach_convert. apply reach_start; try reflexivity.
  apply sample_uuid_inj.
Defined.

(** C2. In every world the service can reach, every record in the store
    has [results] exactly when its status is [completed] and [error] exactly
    when its status is [failed]; and so has every record that was ever
    written, that is, every version of a record a reader can have seen. *)
Theorem results_and_error_exclusive (w : world) :
  reachable w ->
  (forall k r t, store w !! k = Some (r, t) -> exclusive r) /\
  (forall k r t, In (Wrote k r t) (aof w) -> exclusive r).
Proof.
  intros H. destruct (reachable_consistent w H) as (_ & Hs & _ & _ & _ & Ha).
  split; [|exact Ha].
  intros k r t Hr. destruct (Hs k r t Hr) as (i & _ & _ & _ & Hx). exact Hx.
Qed.

Lemma results_and_error_exclusive_witness :
  (forall k r t, store Sample.finished !! k = Some (r, t) -> exclusive r) /\
  (forall k r t, In (Wrote k r t) (aof Sample.finished) -> exclusive r).
Proof.
  apply (results_and_error_exclusive Sample.finished). exact sample_reachable.
Defined.

(** The three versions of the record of the sample job, and the record of
    a job whose metadata cannot be read. *)
Example sample_records :
  (fun e => match e with
            | Wrote _ r _ => Some (r !! "status", is_Some_dec (r !! "results"),
                                   is_Some_dec (r !! "error"))
            | _ => None
            end) <$> aof Sample.finished
  = [Some (Some (VStr "queued"), false, false); None; None;
     Some (Some (VStr "processing"), false, false);
     Some (Some (VStr "completed"), true, false)] /\
  Sample.outcome_of (snd (run ConversionWorker.iteration Sample.failed_extraction))
  = (Some (VStr "failed"),
     Some (VStr "Metadata extraction failed: File format error"), None).
Proof. split; vm_compute; reflexivity. Qed.

(** ** The sample job under timeouts and failures *)

Lemma bounded_stages_abort_the_job_witness :
  healthy Sample.submitted /\
  (forall r t,
     store Sample.submitted !! JobService.jobKey (js_to_string (Sample.job !! "id"))
     = Some (r, t) ->
     exists r',
       store (snd (run (ConversionWorker.processJob Sample.job) Sample.submitted))
         !! JobService.jobKey (js_to_string (Sample.job !! "id")) = Some (r', Some 86400) /\
       (r' !! "results" = r !! "results" /\ r' !! "status" <> Some (VStr "completed") \/
        r' !! "status" = Some (VStr "completed") /\
        exists originalName thumbData fullData thumbSize fullSize originalSize width height om,
          r' !! "results" =
          Some (ConversionWorker.results originalName thumbData fullData
                  thumbSize fullSize originalSize width height om))).
Proof.
  split; [split; reflexivity|]. intros r t.
  apply (proj2 (proj2 (proj2
           (bounded_stages_abort_the_job Sample.submitted (conj eq_refl eq_refl))))).
Defined.

(** C4, as the claim has it, fails: exiftool never answers the read of the
    original; no timer runs against it, so the turn of the worker never
    ends and the job is not set to [failed]: its record stays at
    [processing], and the temporary copy of the original stays on disk. *)
Lemma extraction_is_not_time_bounded :
  exceeds (exiftool_read (lib Sample.hung_extraction) "abc") 10000 /\
  fst (run ConversionWorker.iteration Sample.hung_extraction) = Stuck /\
  Sample.outcome_of (snd (run ConversionWorker.iteration Sample.hung_extraction))
  = (Some (VStr "processing"), None, None) /\
  fs (snd (run ConversionWorker.iteration Sample.hung_extraction))
    !! ConversionWorker.tempOriginal "job-0" = Some (File "abc").
Proof. repeat split; vm_compute; reflexivity. Qed.

Lemma processJob_leaves_no_file_witness :
  no_new_files [] Sample.failed_extraction
    (snd (run (ConversionWorker.processJob Sample.job) Sample.failed_extraction)) /\
  (forall S, no_files_at S Sample.failed_extraction ->
             no_files_at S
               (snd (run (ConversionWorker.processJob Sample.job)
                       Sample.failed_extraction))).
Proof.
  apply (processJob_leaves_no_file Sample.failed_extraction Sample.job).
  vm_compute. discriminate.
Defined.

(** The files after the sample job, when it succeeds and when the
    extraction of its metadata fails: the directory and nothing else. *)
Example sample_files :
  map_to_list (fs (snd (run (ConversionWorker.processJob Sample.job) Sample.submitted)))
  = [("temp", Dir)] /\
  map_to_list (fs (snd (run (ConversionWorker.processJob Sample.job)
                          Sample.failed_extraction)))
  = [("temp", Dir)].
Proof. split; vm_compute; reflexivity. Qed.

(** ** The statuses [processJob] writes, whatever the store answers *)

Lemma history_wrote id x w w' :
  wrote id x w w' ->
  history (JobService.jobKey id) (aof w')
  = history (JobService.jobKey id) (aof w) ++ [x !! "status"].
Proof.
  intros (_ & _ & -> & _). rewrite history_app. cbn [history].
  rewrite String.eqb_refl. reflexivity.
Qed.

Lemma history_same_server key w w' :
  same_server w w' -> history key (aof w') = history key (aof w).
Proof. intros (_ & _ & -> & _). reflexivity. Qed.

Lemma processJob_history (w : world) (job : obj) :
  exists l,
    history (JobService.jobKey (js_to_string (job !! "id")))
      (aof (snd (run (ConversionWorker.processJob job) w)))
    = history (JobService.jobKey (js_to_string (job !! "id"))) (aof w) ++ l /\
    (l = [] \/ l = [processing] \/ l = [Some (VStr "failed")] \/
     l = [processing; Some (VStr "completed")] \/
     l = [processing; Some (VStr "failed")]).
Proof.
  destruct (run (ConversionWorker.processJob job) w) as [o w'] eqn:E.
  apply processJob_spec in E. cbn [snd].
  destruct E as [S | [(r & t & u & now & _ & Hcase & W) |
                      (r & t & now & w1 & u & now' & _ & W1 & Hcase & W2)]].
  - exists []. rewrite app_nil_r. split; [apply history_same_server, S | auto].
  - eexists. split; [apply history_wrote, W|]. rewrite status_merged.
    destruct Hcase as [-> | (e & pt & ->)]; cbn; auto.
  - eexists. split.
    + rewrite (history_wrote _ _ _ _ W2), (history_wrote _ _ _ _ W1), <- app_assoc.
      reflexivity.
    + rewrite !status_merged.
      destruct Hcase as [(pt & res & ->) | (e & pt & ->)]; cbn; auto 6.
Qed.

(** ** The worker loop and the jobs that fail *)









(** * Further properties *)

(** ** The Redis service *)

Lemma run_set_plain w key v ttl :
  healthy w -> ttl = None \/ ttl = Some 0 ->
  run (RedisService.set key v ttl) w =
  (Done tt, set_aof (fun l => l ++ [Wrote key v None])
              (set_store <[key := (v, None)]> w)).
Proof.
  intros [Hc Hf] H. unfold RedisService.set. steps.
  destruct H as [-> | ->]; cbn [Z.eqb negb]; steps;
    cbn [handle]; rewrite client_healthy by (world_simpl; assumption); reflexivity.
Qed.

(** X1. [set] writes with SETEX, and so with an expiry, only for a ttl
    other than 0: with the ttl 0, as with none, the key is written with SET
    and never expires, and an expiry the key had is gone. *)
Theorem set_without_expiry (w : world) (key : string) (v : obj) :
  healthy w ->
  (forall t, 0 < t ->
     store (snd (run (RedisService.set key v (Some t)) w)) !! key = Some (v, Some t)) /\
  store (snd (run (RedisService.set key v (Some 0)) w)) !! key = Some (v, None) /\
  store (snd (run (RedisService.set key v None) w)) !! key = Some (v, None) /\
  (forall t, 0 < t ->
     store (snd (run (let* _ := RedisService.set key v (Some t) in
                      RedisService.set key v (Some 0)) w)) !! key = Some (v, None)).
Proof.
  intros H. split; [|split; [|split]].
  - intros t Ht. rewrite run_set_healthy by (try assumption; lia).
    world_simpl. apply lookup_insert_eq.
  - rewrite run_set_plain by auto. world_simpl. apply lookup_insert_eq.
  - rewrite run_set_plain by auto. world_simpl. apply lookup_insert_eq.
  - intros t Ht. rewrite run_bind, run_set_healthy by (try assumption; lia).
    cbv beta iota. rewrite run_set_plain by (auto; solve_healthy).
    world_simpl. apply lookup_insert_eq.
Qed.

Lemma set_without_expiry_witness :
  (forall t, 0 < t ->
     store (snd (run (RedisService.set "k" Sample.jobData (Some t)) Sample.empty)) !! "k"
     = Some (Sample.jobData, Some t)) /\
  store (snd (run (RedisService.set "k" Sample.jobData (Some 0)) Sample.empty)) !! "k"
  = Some (Sample.jobData, None) /\
  store (snd (run (RedisService.set "k" Sample.jobData None) Sample.empty)) !! "k"
  = Some (Sample.jobData, None) /\
  (forall t, 0 < t ->
     store (snd (run (let* _ := RedisService.set "k" Sample.jobData (Some t) in
                      RedisService.set "k" Sample.jobData (Some 0)) Sample.empty)) !! "k"
     = Some (Sample.jobData, None)).
Proof. apply (set_without_expiry Sample.empty). split; reflexivity. Defined.

Lemma run_set_any w key v ttl :
  healthy w -> (forall t, ttl = Some t -> 0 <= t) ->
  exists t', run (RedisService.set key v ttl) w =
             (Done tt, set_aof (fun l => l ++ [Wrote key v t'])
                         (set_store <[key := (v, t')]> w)).
Proof.
  intros H Ht. destruct ttl as [t|].
  - destruct (Z.eq_dec t 0) as [-> | Hn].
    + exists None. apply run_set_plain; auto.
    + exists (Some t). apply run_set_healthy; auto.
  - exists None. apply run_set_plain; auto.
Qed.

(** X2. On a store that answers, [get] returns the value the last [set]
    of the key stored, whatever the ttl, and [null] after [del]; a [set] or
    a [del] of one key leaves what [get] returns for another. *)
Theorem get_after_set_and_del (w : world) (key : string) (v : obj) (ttl : option Z) :
  healthy w -> (forall t, ttl = Some t -> 0 <= t) ->
  fst (run (let* _ := RedisService.set key v ttl in RedisService.get key) w)
  = Done (Some v) /\
  fst (run (let* _ := RedisService.del key in RedisService.get key) w) = Done None /\
  (forall v',
     fst (run (let* _ := RedisService.set key v' ttl in
               let* _ := RedisService.set key v ttl in RedisService.get key) w)
     = Done (Some v)) /\
  (forall other,
     other <> key ->
     fst (run (let* _ := RedisService.set key v ttl in RedisService.get other) w)
     = fst (run (RedisService.get other) w) /\
     fst (run (let* _ := RedisService.del key in RedisService.get other) w)
     = fst (run (RedisService.get other) w)).
Proof.
  intros H Ht. split; [|split; [|split]].
  - destruct (run_set_any w key v ttl H Ht) as [t' E].
    rewrite run_bind, E. cbv beta iota.
    rewrite run_get_healthy by solve_healthy. world_simpl.
    rewrite lookup_insert_eq. reflexivity.
  - rewrite run_bind, run_del_healthy by assumption. cbv beta iota.
    rewrite run_get_healthy by solve_healthy. world_simpl.
    rewrite lookup_delete_eq. reflexivity.
  - intros v'. destruct (run_set_any w key v' ttl H Ht) as [t' E].
    rewrite run_bind, E. cbv beta iota.
    match goal with |- context [run _ ?w1] =>
      destruct (run_set_any w1 key v ttl ltac:(solve_healthy) Ht) as [t'' E'] end.
    rewrite run_bind, E'. cbv beta iota.
    rewrite run_get_healthy by solve_healthy. world_simpl.
    rewrite lookup_insert_eq. reflexivity.
  - intros other Hne. rewrite (run_get_healthy w) by assumption. split.
    + destruct (run_set_any w key v ttl H Ht) as [t' E].
      rewrite run_bind, E. cbv beta iota.
      rewrite run_get_healthy by solve_healthy. world_simpl.
      rewrite lookup_insert_ne by congruence. reflexivity.
    + rewrite run_bind, run_del_healthy by assumption. cbv beta iota.
      rewrite run_get_healthy by solve_healthy. world_simpl.
      rewrite lookup_delete_ne by congruence. reflexivity.
Qed.

Lemma get_after_set_and_del_witness :
  fst (run (let* _ := RedisService.set "k" Sample.jobData (Some 60) in
            RedisService.get "k") Sample.empty)
  = Done (Some Sample.jobData) /\
  fst (run (let* _ := RedisService.del "k" in RedisService.get "k") Sample.empty)
  = Done None /\
  (forall v',
     fst (run (let* _ := RedisService.set "k" v' (Some 60) in
               let* _ := RedisService.set "k" Sample.jobData (Some 60) in
               RedisService.get "k") Sample.empty)
     = Done (Some Sample.jobData)) /\
  (forall other,
     other <> "k" ->
     fst (run (let* _ := RedisService.set "k" Sample.jobData (Some 60) in
               RedisService.get other) Sample.empty)
     = fst (run (RedisService.get other) Sample.empty) /\
     fst (run (let* _ := RedisService.del "k" in RedisService.get other) Sample.empty)
     = fst (run (RedisService.get other) Sample.empty)).
Proof.
  apply (get_after_set_and_del Sample.empty "k" Sample.jobData (Some 60)).
  - split; reflexivity.
  - intros t H. injection H as <-. lia.
Defined.

(** X3. Without a connection every operation of the Redis service throws
    'Redis client not connected' before it sends a command: nothing
    changes, neither on the server nor in the client. *)
Theorem redis_service_needs_a_connection (w : world) (key : string) (v : obj)
    (ttl : option Z) (e : entry) (timeout : Z) :
  connected w = false ->
  run RedisService.getClient w = (Failed "Redis client not connected", w) /\
  run (RedisService.set key v ttl) w = (Failed "Redis client not connected", w) /\
  run (RedisService.get key) w = (Failed "Redis client not connected", w) /\
  run (RedisService.del key) w = (Failed "Redis client not connected", w) /\
  run (RedisService.lpush key e) w = (Failed "Redis client not connected", w) /\
  run (RedisService.brpop key timeout) w = (Failed "Redis client not connected", w).
Proof.
  intros H.
  assert (G : run RedisService.getClient w = (Failed "Redis client not connected", w)).
  { unfold RedisService.getClient. steps. rewrite H. reflexivity. }
  unfold RedisService.set, RedisService.get, RedisService.del, RedisService.lpush,
    RedisService.brpop.
  repeat split; try exact G; rewrite run_bind, G; reflexivity.
Qed.

Lemma redis_service_needs_a_connection_witness :
  run RedisService.getClient (set_connected false Sample.submitted)
  = (Failed "Redis client not connected", set_connected false Sample.submitted) /\
  run (RedisService.set "k" Sample.jobData (Some 60)) (set_connected false Sample.submitted)
  = (Failed "Redis client not connected", set_connected false Sample.submitted) /\
  run (RedisService.get "k") (set_connected false Sample.submitted)
  = (Failed "Redis client not connected", set_connected false Sample.submitted) /\
  run (RedisService.del "k") (set_connected false Sample.submitted)
  = (Failed "Redis client not connected", set_connected false Sample.submitted) /\
  run (RedisService.lpush "k" {| jobId := "job-0" |}) (set_connected false Sample.submitted)
  = (Failed "Redis client not connected", set_connected false Sample.submitted) /\
  run (RedisService.brpop "k" 30) (set_connected false Sample.submitted)
  = (Failed "Redis client not connected", set_connected false Sample.submitted).
Proof.
  apply (redis_service_needs_a_connection (set_connected false Sample.submitted)).
  reflexivity.
Defined.

(** ** The job service *)

(** X4. Without a connection every operation of the job service throws
    its own 'Redis not connected - cannot ...' error, not wrapped, and
    leaves the world as it is, except that [createJob] has drawn an
    identifier by then. *)
Theorem job_service_needs_a_connection (w : world) (id : string) (updates jobData : obj) :
  connected w = false ->
  run (JobService.getJobStatus id) w
  = (Failed "Redis not connected - cannot get job status", w) /\
  run (JobService.updateJobStatus id updates) w
  = (Failed "Redis not connected - cannot update job status", w) /\
  run JobService.getNextJob w
  = (Failed "Redis not connected - cannot get next job", w) /\
  run (JobService.deleteJob id) w
  = (Failed "Redis not connected - cannot delete job", w) /\
  run (JobService.createJob jobData) w
  = (Failed "Redis not connected - cannot create job", set_uuid_count S w).
Proof.
  intros H. unfold_services.
  repeat split; steps; rewrite H; reflexivity.
Qed.

Lemma job_service_needs_a_connection_witness :
  run (JobService.getJobStatus "job-0") (set_connected false Sample.submitted)
  = (Failed "Redis not connected - cannot get job status",
     set_connected false Sample.submitted) /\
  run (JobService.updateJobStatus "job-0" Sample.toProcessing)
    (set_connected false Sample.submitted)
  = (Failed "Redis not connected - cannot update job status",
     set_connected false Sample.submitted) /\
  run JobService.getNextJob (set_connected false Sample.submitted)
  = (Failed "Redis not connected - cannot get next job",
     set_connected false Sample.submitted) /\
  run (JobService.deleteJob "job-0") (set_connected false Sample.submitted)
  = (Failed "Redis not connected - cannot delete job",
     set_connected false Sample.submitted) /\
  run (JobService.createJob Sample.jobData) (set_connected false Sample.submitted)
  = (Failed "Redis not connected - cannot create job",
     set_uuid_count S (set_connected false Sample.submitted)).
Proof.
  apply (job_service_needs_a_connection (set_connected false Sample.submitted)).
  reflexivity.
Defined.

(** X5. [getJobStatus] only reads: whatever the client does, the Redis
    server, the files and the identifiers are afterwards as before.  It
    returns the record under the key of the job, [null] when there is none,
    or throws: the connection error, or the client's error behind 'Failed
    to get job status: '. *)
Theorem getJobStatus_only_reads (w : world) (id : string) :
  same_server w (snd (run (JobService.getJobStatus id) w)) /\
  fs (snd (run (JobService.getJobStatus id) w)) = fs w /\
  (fst (run (JobService.getJobStatus id) w)
   = Done (fst <$> store w !! JobService.jobKey id) \/
   fst (run (JobService.getJobStatus id) w)
   = Failed "Redis not connected - cannot get job status" \/
   exists e, head (faults w) = Some (Some e) /\
             fst (run (JobService.getJobStatus id) w)
             = Failed ("Failed to get job status: " +:+ e)).
Proof.
  unfold_services. steps. destruct (connected w) eqn:Hc; cbn [negb]; steps.
  - rewrite Hc. cbn [negb]. steps.
    client_cases; try destruct (store w !! JobService.jobKey id) as [[r t]|];
      cbn [fmap option_fmap option_map fst head]; steps;
      (split; [repeat split|]); (split; [reflexivity|]); eauto.
  - split; [apply same_server_refl|]. split; [reflexivity|]. right. left. reflexivity.
Qed.

(** X6. On a store that answers, [deleteJob] returns whether or not the
    job exists; afterwards [getJobStatus] of the job returns [null], the
    records of other jobs are as before, and so is the work queue: an entry
    of the deleted job stays in it. *)
Theorem deleteJob_removes_the_record_only (w : world) (id : string) :
  healthy w ->
  fst (run (JobService.deleteJob id) w) = Done tt /\
  fst (run (let* _ := JobService.deleteJob id in JobService.getJobStatus id) w)
  = Done None /\
  (forall other,
     other <> id ->
     store (snd (run (JobService.deleteJob id) w)) !! JobService.jobKey other
     = store w !! JobService.jobKey other) /\
  queue (snd (run (JobService.deleteJob id) w)) = queue w.
Proof.
  intros H. rewrite run_bind, run_deleteJob_healthy by assumption. cbv beta iota.
  split; [reflexivity|]. split; [|split].
  - rewrite run_getJobStatus_healthy by solve_healthy. world_simpl.
    rewrite lookup_delete_eq. reflexivity.
  - intros other Hne. world_simpl. apply lookup_delete_ne.
    intros E. apply jobKey_inj in E. congruence.
  - reflexivity.
Qed.

Lemma deleteJob_removes_the_record_only_witness :
  fst (run (JobService.deleteJob "job-0") Sample.submitted) = Done tt /\
  fst (run (let* _ := JobService.deleteJob "job-0" in JobService.getJobStatus "job-0")
         Sample.submitted)
  = Done None /\
  (forall other,
     other <> "job-0" ->
     store (snd (run (JobService.deleteJob "job-0") Sample.submitted))
       !! JobService.jobKey other
     = store Sample.submitted !! JobService.jobKey other) /\
  queue (snd (run (JobService.deleteJob "job-0") Sample.submitted))
  = queue Sample.submitted.
Proof.
  apply (deleteJob_removes_the_record_only Sample.submitted "job-0").
  split; reflexivity.
Defined.

Lemma healthy_enqueued jobData w : healthy w -> healthy (enqueued jobData w).
Proof. unfold enqueued. intros H. solve_healthy. Qed.

Lemma store_enqueued jobData w :
  store (enqueued jobData w)
  = <[JobService.jobKey (uuid_of (lib w) (uuid_count w)) := (created jobData w, Some 86400)]>
      (store w).
Proof. reflexivity. Qed.

Lemma queue_enqueued jobData w :
  queue (enqueued jobData w) = {| jobId := uuid_of (lib w) (uuid_count w) |} :: queue w.
Proof. unfold queue, enqueued. apply list_at_insert. Qed.

(** X7. On a store that answers, the record [createJob] returns is the one
    [getJobStatus] finds under the identifier [createJob] has drawn.  The
    key is made from that identifier, not from the [id] of the record: when
    [jobData] carries an [id] of its own, under which there is no record,
    [getJobStatus] of the [id] of the returned record finds nothing. *)
Theorem createJob_then_getJobStatus (w : world) (jobData : obj) :
  healthy w ->
  fst (run (let* _ := JobService.createJob jobData in
            JobService.getJobStatus (uuid_of (lib w) (uuid_count w))) w)
  = Done (Some (created jobData w)) /\
  (forall x,
     jobData !! "id" = Some (VStr x) ->
     x <> uuid_of (lib w) (uuid_count w) ->
     store w !! JobService.jobKey x = None ->
     fst (run (let* job := JobService.createJob jobData in
               JobService.getJobStatus (js_to_string (job !! "id"))) w)
     = Done None).
Proof.
  intros H. split.
  - rewrite run_bind, run_createJob_healthy by assumption. cbv beta iota.
    rewrite run_getJobStatus_healthy by (apply healthy_enqueued, H).
    rewrite store_enqueued, lookup_insert_eq. reflexivity.
  - intros x Hx Hne Hnone.
    rewrite run_bind, run_createJob_healthy by assumption. cbv beta iota.
    rewrite run_getJobStatus_healthy by (apply healthy_enqueued, H).
    rewrite (lookup_created_Some _ _ _ _ Hx). cbn [js_to_string].
    rewrite store_enqueued, lookup_insert_ne, Hnone; [reflexivity|].
    intros E. apply jobKey_inj in E. congruence.
Qed.

Lemma createJob_then_getJobStatus_witness :
  fst (run (let* _ := JobService.createJob (<["id" := VStr "mine"]> Sample.jobData) in
            JobService.getJobStatus (uuid_of (lib Sample.empty) (uuid_count Sample.empty)))
         Sample.empty)
  = Done (Some (created (<["id" := VStr "mine"]> Sample.jobData) Sample.empty)) /\
  (forall x,
     <["id" := VStr "mine"]> Sample.jobData !! "id" = Some (VStr x) ->
     x <> uuid_of (lib Sample.empty) (uuid_count Sample.empty) ->
     store Sample.empty !! JobService.jobKey x = None ->
     fst (run (let* job := JobService.createJob (<["id" := VStr "mine"]> Sample.jobData) in
               JobService.getJobStatus (js_to_string (job !! "id"))) Sample.empty)
     = Done None).
Proof.
  apply (createJob_then_getJobStatus Sample.empty (<["id" := VStr "mine"]> Sample.jobData)).
  split; reflexivity.
Defined.

(** The record of the job above cannot be found under its own [id]. *)
Example createJob_with_an_id_of_its_own :
  fst (run (let* job := JobService.createJob (<["id" := VStr "mine"]> Sample.jobData) in
            JobService.getJobStatus (js_to_string (job !! "id"))) Sample.empty)
  = Done None.
Proof. vm_compute. reflexivity. Qed.

Lemma run_getJobStatus_rejected w id e rest :
  connected w = true -> faults w = Some e :: rest ->
  run (JobService.getJobStatus id) w
  = (Failed ("Failed to get job status: " +:+ e), set_faults (fun _ => rest) w).
Proof.
  intros Hc Hf. unfold_services. steps. rewrite Hc. cbn [negb]. steps.
  rewrite Hc. cbn [negb]. steps.
  cbn [handle]. unfold client, next_fault. rewrite Hf. reflexivity.
Qed.

Lemma run_brpop_accepted w key timeout newer oldest rest :
  connected w = true -> faults w = None :: rest ->
  list_at key w = newer ++ [oldest] ->
  run (RedisService.brpop key timeout) w
  = (Done (Some oldest),
     set_aof (fun l => l ++ [Popped key oldest])
       (set_lists <[key := newer]> (set_faults (fun _ => rest) w))).
Proof.
  intros Hc Hf Hq. unfold_services. steps. rewrite Hc. cbn [negb]. steps.
  cbn [handle]. unfold client, next_fault. rewrite Hf. cbv beta iota.
  unfold list_at in *. world_simpl. rewrite Hq, rev_app_distr. cbn [rev app].
  rewrite rev_involutive. reflexivity.
Qed.

(** X8. [getNextJob] takes the entry off the queue before it reads the
    record, and does not put it back: when the read is rejected it throws
    'Failed to get next job: Failed to get job status: ...', the entry is
    gone from the queue and the store is as before, so that the record of
    the job is never handed to a worker. *)
Theorem getNextJob_drops_the_entry (w : world) (newer : list entry) (oldest : entry)
    (e : string) (rest : list (option string)) :
  connected w = true ->
  faults w = None :: Some e :: rest ->
  queue w = newer ++ [oldest] ->
  fst (run JobService.getNextJob w)
  = Failed ("Failed to get next job: Failed to get job status: " +:+ e) /\
  queue (snd (run JobService.getNextJob w)) = newer /\
  store (snd (run JobService.getNextJob w)) = store w /\
  aof (snd (run JobService.getNextJob w)) = aof w ++ [Popped JobService.queueKey oldest].
Proof.
  intros Hc Hf Hq. unfold JobService.getNextJob. steps.
  rewrite Hc. cbn [negb]. steps.
  rewrite (run_brpop_accepted w _ _ newer oldest (Some e :: rest)) by assumption.
  cbv beta iota. steps.
  rewrite (run_getJobStatus_rejected _ _ e rest) by (world_simpl; auto).
  cbv beta iota. steps.
  repeat split. unfold queue, list_at. world_simpl. rewrite lookup_insert_eq. reflexivity.
Qed.

Lemma getNextJob_drops_the_entry_witness :
  fst (run JobService.getNextJob
         (set_faults (fun _ => [None; Some "ECONNRESET"]) Sample.submitted))
  = Failed ("Failed to get next job: Failed to get job status: " +:+ "ECONNRESET") /\
  queue (snd (run JobService.getNextJob
                (set_faults (fun _ => [None; Some "ECONNRESET"]) Sample.submitted))) = [] /\
  store (snd (run JobService.getNextJob
                (set_faults (fun _ => [None; Some "ECONNRESET"]) Sample.submitted)))
  = store (set_faults (fun _ => [None; Some "ECONNRESET"]) Sample.submitted) /\
  aof (snd (run JobService.getNextJob
              (set_faults (fun _ => [None; Some "ECONNRESET"]) Sample.submitted)))
  = aof (set_faults (fun _ => [None; Some "ECONNRESET"]) Sample.submitted)
    ++ [Popped JobService.queueKey {| jobId := "job-0" |}].
Proof.
  apply (getNextJob_drops_the_entry
           (set_faults (fun _ => [None; Some "ECONNRESET"]) Sample.submitted)
           [] {| jobId := "job-0" |} "ECONNRESET" []);
    reflexivity.
Defined.

Lemma run_env_update_updated w id u1 u2 job t :
  healthy w ->
  store w !! JobService.jobKey id = Some (job, t) ->
  run_env [fun w => w; meanwhile (JobService.updateJobStatus id u2)]
    (JobService.updateJobStatus id u1) w =
  (Done (merged job u1 (toISOString (lib w) (clock w))),
   updated id (merged job u1 (toISOString (lib w) (clock w)))
     (updated id (merged job u2 (toISOString (lib w) (clock w))) w)).
Proof.
  intros [Hc Hf] Hr.
  unfold JobService.updateJobStatus at 2.
  unfold JobService.getJobStatus, RedisService.get,
    RedisService.set, RedisService.getClient, RedisService.isConnected, perform, call.
  cbn [bind try_catch run_env suspends handle]. rewrite Hc.
  cbn [bind try_catch run_env suspends handle negb]. rewrite Hc.
  cbn [bind try_catch run_env suspends handle negb]. rewrite Hc.
  cbn [bind try_catch run_env suspends handle negb].
  rewrite client_healthy by assumption. cbn [fst snd]. rewrite Hr.
  cbn [fmap option_fmap option_map fst bind try_catch run_env suspends handle negb].
  rewrite Hc.
  cbn [fmap option_fmap option_map fst bind try_catch run_env suspends handle negb Z.eqb].
  unfold meanwhile.
  rewrite (run_updateJobStatus_healthy w id u2 job t) by (try split; assumption).
  cbn [snd]. rewrite client_healthy by (unfold updated; world_simpl; assumption).
  cbn [fst snd bind try_catch run_env suspends handle]. reflexivity.
Qed.

(** X9. [updateJobStatus] reads the record, merges and writes it back in
    separate steps.  An update of the same job by another task that runs
    between the read and the write is applied and then overwritten: the
    first update returns and stores the record it read with its own fields
    merged in, and a field only the other update has set has again the
    value it had before. *)
Theorem concurrent_update_is_lost (w : world) (id : string) (u1 u2 job : obj)
    (t : option Z) :
  healthy w ->
  store w !! JobService.jobKey id = Some (job, t) ->
  fst (run_env [fun w => w; meanwhile (JobService.updateJobStatus id u2)]
         (JobService.updateJobStatus id u1) w)
  = Done (merged job u1 (toISOString (lib w) (clock w))) /\
  store (snd (run_env [fun w => w; meanwhile (JobService.updateJobStatus id u2)]
                (JobService.updateJobStatus id u1) w)) !! JobService.jobKey id
  = Some (merged job u1 (toISOString (lib w) (clock w)), Some 86400) /\
  aof (snd (run_env [fun w => w; meanwhile (JobService.updateJobStatus id u2)]
              (JobService.updateJobStatus id u1) w))
  = aof w ++ [Wrote (JobService.jobKey id)
                (merged job u2 (toISOString (lib w) (clock w))) (Some 86400);
              Wrote (JobService.jobKey id)
                (merged job u1 (toISOString (lib w) (clock w))) (Some 86400)] /\
  (forall k,
     k <> "updatedAt" -> u1 !! k = None ->
     merged job u1 (toISOString (lib w) (clock w)) !! k = job !! k).
Proof.
  intros H Hr. rewrite (run_env_update_updated w id u1 u2 job t H Hr). cbn [fst snd].
  split; [reflexivity|]. split; [apply lookup_updated|]. split.
  - unfold updated. world_simpl. rewrite <- app_assoc. reflexivity.
  - intros k Hk Hu. rewrite lookup_merged by assumption. rewrite Hu. reflexivity.
Qed.

Lemma concurrent_update_is_lost_witness :
  fst (run_env [fun w => w;
                meanwhile (JobService.updateJobStatus "job-0" {["note" := VStr "kept?"]})]
         (JobService.updateJobStatus "job-0" Sample.toProcessing) Sample.submitted)
  = Done (merged Sample.job Sample.toProcessing
            (toISOString (lib Sample.submitted) (clock Sample.submitted))) /\
  store (snd (run_env [fun w => w;
                       meanwhile (JobService.updateJobStatus "job-0"
                                    {["note" := VStr "kept?"]})]
                (JobService.updateJobStatus "job-0" Sample.toProcessing) Sample.submitted))
    !! JobService.jobKey "job-0"
  = Some (merged Sample.job Sample.toProcessing
            (toISOString (lib Sample.submitted) (clock Sample.submitted)), Some 86400) /\
  aof (snd (run_env [fun w => w;
                     meanwhile (JobService.updateJobStatus "job-0"
                                  {["note" := VStr "kept?"]})]
              (JobService.updateJobStatus "job-0" Sample.toProcessing) Sample.submitted))
  = aof Sample.submitted
    ++ [Wrote (JobService.jobKey "job-0")
          (merged Sample.job {["note" := VStr "kept?"]}
             (toISOString (lib Sample.submitted) (clock Sample.submitted))) (Some 86400);
        Wrote (JobService.jobKey "job-0")
          (merged Sample.job Sample.toProcessing
             (toISOString (lib Sample.submitted) (clock Sample.submitted))) (Some 86400)] /\
  (forall k,
     k <> "updatedAt" -> Sample.toProcessing !! k = None ->
     merged Sample.job Sample.toProcessing
       (toISOString (lib Sample.submitted) (clock Sample.submitted)) !! k
     = Sample.job !! k).
Proof.
  apply (concurrent_update_is_lost Sample.submitted "job-0" Sample.toProcessing
           {["note" := VStr "kept?"]} Sample.job (Some 86400)).
  - split; reflexivity.
  - vm_compute. reflexivity.
Defined.

(** The note of the other update is not in the record afterwards. *)
Example the_note_is_lost :
  (fun x => (fst x !! "status", fst x !! "note")) <$>
    (store (snd (run_env [fun w => w;
                          meanwhile (JobService.updateJobStatus "job-0"
                                       {["note" := VStr "kept?"]})]
                   (JobService.updateJobStatus "job-0" Sample.toProcessing)
                   Sample.submitted))
       !! JobService.jobKey "job-0")
  = Some (Some (VStr "processing"), None).
Proof. vm_compute. reflexivity. Qed.

(** X10. An [updateJobStatus] that throws has thrown in one of four ways.
    Without a connection it throws 'Redis not connected - cannot update job
    status' and has sent nothing. When its read of the record is rejected
    it throws 'Failed to update job status: Failed to get job status: ...'
    with the error of the read, and when the record is not there, 'Failed
    to update job status: Job ... not found'; in both cases it has sent no
    write, and nothing but the pending answer of the store is consumed.
    Otherwise the record was read and the SETEX of the merged record is
    what was rejected: it throws 'Failed to update job status: ...' with
    the error of the write; whether the server has run that write is not
    said. *)
Theorem updateJobStatus_failures (w : world) (id : string) (updates : obj)
    (e : string) :
  fst (run (JobService.updateJobStatus id updates) w) = Failed e ->
  (connected w = false /\
   e = "Redis not connected - cannot update job status" /\
   snd (run (JobService.updateJobStatus id updates) w) = w) \/
  (connected w = true /\
   exists c rest,
     faults w = Some c :: rest /\
     e = "Failed to update job status: Failed to get job status: " +:+ c /\
     snd (run (JobService.updateJobStatus id updates) w) = set_faults (fun _ => rest) w) \/
  (connected w = true /\
   fst (next_fault w) = None /\
   store w !! JobService.jobKey id = None /\
   e = "Failed to update job status: Job " +:+ id +:+ " not found" /\
   snd (run (JobService.updateJobStatus id updates) w) = snd (next_fault w)) \/
  (connected w = true /\
   exists job t c rest,
     faults w = None :: Some c :: rest /\
     store w !! JobService.jobKey id = Some (job, t) /\
     e = "Failed to update job status: " +:+ c).
Proof.
  unfold_services. steps. destruct (connected w) eqn:Hc; cbn [negb]; steps.
  2: { cbn [fst snd]. intros H. injection H as <-. left. auto. }
  rewrite Hc. cbn [negb]. steps. rewrite Hc. cbn [negb]. steps.
  cbn [handle]. unfold client, next_fault.
  destruct (faults w) as [|[c|] rest] eqn:Hf; world_simpl; cbv beta iota.
  - destruct (store w !! JobService.jobKey id) as [[job t]|] eqn:Hr;
      cbn [fmap option_fmap option_map fst]; steps.
    + rewrite Hc. cbn [negb Z.eqb]. steps. cbn [handle]. unfold client, next_fault.
      rewrite Hf. steps. cbn [fst]. discriminate.
    + cbn [fst snd]. intros H. injection H as <-. right; right; left. auto.
  - steps. cbn [fst snd]. intros H. injection H as <-. right; left.
    split; [reflexivity|]. exists c, rest. auto.
  - destruct (store w !! JobService.jobKey id) as [[job t]|] eqn:Hr;
      cbn [fmap option_fmap option_map fst]; steps.
    + rewrite Hc. cbn [negb Z.eqb]. steps. cbn [handle]. unfold client, next_fault.
      world_simpl. destruct rest as [|[c|] rest]; steps; cbn [fst];
        try discriminate.
      intros H. injection H as <-. right; right; right.
      split; [reflexivity|]. exists job, t, c, rest. auto.
    + cbn [fst snd]. intros H. injection H as <-. right; right; left. auto.
Qed.

Lemma updateJobStatus_failures_witness :
  fst (run (JobService.updateJobStatus "job-0" Sample.toProcessing)
         (set_faults (fun _ => [None; Some "ECONNRESET"]) Sample.submitted))
  = Failed "Failed to update job status: ECONNRESET" /\
  exists job t c rest,
    faults (set_faults (fun _ => [None; Some "ECONNRESET"]) Sample.submitted)
    = None :: Some c :: rest /\
    store (set_faults (fun _ => [None; Some "ECONNRESET"]) Sample.submitted)
      !! JobService.jobKey "job-0" = Some (job, t) /\
    "Failed to update job status: ECONNRESET" = "Failed to update job status: " +:+ c.
Proof.
  split; [reflexivity|].
  destruct (updateJobStatus_failures
              (set_faults (fun _ => [None; Some "ECONNRESET"]) Sample.submitted)
              "job-0" Sample.toProcessing "Failed to update job status: ECONNRESET")
    as [(K & _) | [(_ & c & rest & K & _) | [(_ & _ & K & _) | (_ & K)]]];
    [reflexivity | discriminate K | discriminate K | | exact K].
  vm_compute in K. discriminate K.
Defined.

(** ** The worker and records that are not there *)

(** X11. An entry whose record is gone, deleted or expired, is taken off
    the queue and dropped: [getNextJob] returns [null] for it, as it does
    for an empty queue but without waiting, and the turn of the worker ends
    without a job, even when newer entries are waiting. *)
Theorem entry_without_record_is_skipped (w : world) (newer : list entry)
    (oldest : entry) :
  healthy w ->
  queue w = newer ++ [oldest] ->
  store w !! JobService.jobKey (jobId oldest) = None ->
  run JobService.getNextJob w
  = (Done None,
     set_aof (fun l => l ++ [Popped JobService.queueKey oldest])
       (set_lists <[JobService.queueKey := newer]> w)) /\
  run ConversionWorker.iteration w
  = (Done tt,
     set_aof (fun l => l ++ [Popped JobService.queueKey oldest])
       (set_lists <[JobService.queueKey := newer]> w)) /\
  queue (snd (run ConversionWorker.iteration w)) = newer.
Proof.
  intros H Hq Hr.
  assert (E : run JobService.getNextJob w
              = (Done None,
                 set_aof (fun l => l ++ [Popped JobService.queueKey oldest])
                   (set_lists <[JobService.queueKey := newer]> w))).
  { rewrite (run_getNextJob_oldest w newer oldest H Hq), Hr. reflexivity. }
  split; [exact E|].
  unfold ConversionWorker.iteration. rewrite run_try_catch, run_bind, E.
  cbn [run fst snd]. split; [reflexivity|].
  unfold queue, list_at. world_simpl. rewrite lookup_insert_eq. reflexivity.
Qed.

Lemma entry_without_record_is_skipped_witness :
  run JobService.getNextJob (set_store (delete "jpeg2avif:job:job-0") Sample.submitted)
  = (Done None,
     set_aof (fun l => l ++ [Popped JobService.queueKey {| jobId := "job-0" |}])
       (set_lists <[JobService.queueKey := []]>
          (set_store (delete "jpeg2avif:job:job-0") Sample.submitted))) /\
  run ConversionWorker.iteration (set_store (delete "jpeg2avif:job:job-0") Sample.submitted)
  = (Done tt,
     set_aof (fun l => l ++ [Popped JobService.queueKey {| jobId := "job-0" |}])
       (set_lists <[JobService.queueKey := []]>
          (set_store (delete "jpeg2avif:job:job-0") Sample.submitted))) /\
  queue (snd (run ConversionWorker.iteration
                (set_store (delete "jpeg2avif:job:job-0") Sample.submitted))) = [].
Proof.
  apply (entry_without_record_is_skipped
           (set_store (delete "jpeg2avif:job:job-0") Sample.submitted)
           [] {| jobId := "job-0" |}).
  - split; reflexivity.
  - reflexivity.
  - vm_compute. reflexivity.
Defined.

Lemma run_processJob_absent w job :
  healthy w ->
  store w !! JobService.jobKey (js_to_string (job !! "id")) = None ->
  run (ConversionWorker.processJob job) w
  = (Failed ("Failed to update job status: Job " +:+ js_to_string (job !! "id")
             +:+ " not found"), w).
Proof.
  intros H Hr. unfold ConversionWorker.processJob, ConversionWorker.attempt.
  steps. rewrite !run_updateJobStatus_absent by assumption.
  cbv beta iota. steps. rewrite !run_updateJobStatus_absent by assumption.
  reflexivity.
Qed.

(** X12. [processJob] of a job that has no record under the key of its
    [id] writes nothing and leaves the files alone: the update to
    [processing] fails, and so does the update that should report the
    failure, whose error 'Failed to update job status: Job ... not found'
    leaves [processJob] as an exception. *)
Theorem processJob_without_a_record (w : world) (job : obj) :
  healthy w ->
  store w !! JobService.jobKey (js_to_string (job !! "id")) = None ->
  run (ConversionWorker.processJob job) w
  = (Failed ("Failed to update job status: Job " +:+ js_to_string (job !! "id")
             +:+ " not found"), w).
Proof. apply run_processJob_absent. Qed.

Lemma processJob_without_a_record_witness :
  run (ConversionWorker.processJob Sample.job) Sample.empty
  = (Failed ("Failed to update job status: Job " +:+ js_to_string (Sample.job !! "id")
             +:+ " not found"), Sample.empty).
Proof.
  apply (processJob_without_a_record Sample.empty Sample.job).
  - split; reflexivity.
  - reflexivity.
Defined.

(** X13. A job created with an [id] of its own in [jobData] is stored under
    the identifier [createJob] draws, and the worker looks for it under its
    own [id]: when there is no record under that one, the turn of the worker
    that takes the job off the queue changes neither the record nor a file,
    so the job stays as it was created and is never converted. *)
Theorem job_with_its_own_id_is_never_processed (w : world) (jobData : obj) (x : string) :
  healthy w ->
  queue w = [] ->
  jobData !! "id" = Some (VStr x) ->
  x <> uuid_of (lib w) (uuid_count w) ->
  store w !! JobService.jobKey x = None ->
  fst (run (let* _ := JobService.createJob jobData in ConversionWorker.iteration) w)
  = Done tt /\
  store (snd (run (let* _ := JobService.createJob jobData in
                   ConversionWorker.iteration) w))
  = <[JobService.jobKey (uuid_of (lib w) (uuid_count w)) := (created jobData w, Some 86400)]>
      (store w) /\
  queue (snd (run (let* _ := JobService.createJob jobData in
                   ConversionWorker.iteration) w)) = [] /\
  fs (snd (run (let* _ := JobService.createJob jobData in
                ConversionWorker.iteration) w)) = fs w.
Proof.
  intros H Hq Hx Hne Hnone.
  rewrite run_bind, run_createJob_healthy by assumption. cbv beta iota.
  unfold ConversionWorker.iteration. rewrite run_try_catch, run_bind.
  rewrite (run_getNextJob_oldest (enqueued jobData w) []
             {| jobId := uuid_of (lib w) (uuid_count w) |})
    by (try apply healthy_enqueued; try assumption;
        fold (queue (enqueued jobData w)); rewrite queue_enqueued, Hq; reflexivity).
  rewrite store_enqueued. cbn [jobId]. rewrite lookup_insert_eq.
  cbn [fmap option_fmap option_map fst]. cbv beta iota.
  rewrite run_processJob_absent.
  - steps. repeat split. unfold queue, list_at. world_simpl.
    rewrite lookup_insert_eq. reflexivity.
  - unfold enqueued. solve_healthy.
  - rewrite (lookup_created_Some _ _ _ _ Hx). cbn [js_to_string].
    unfold enqueued. world_simpl. rewrite lookup_insert_ne; [exact Hnone|].
    intros E. apply jobKey_inj in E. congruence.
Qed.

Lemma job_with_its_own_id_is_never_processed_witness :
  fst (run (let* _ := JobService.createJob (<["id" := VStr "mine"]> Sample.jobData) in
            ConversionWorker.iteration) Sample.empty)
  = Done tt /\
  store (snd (run (let* _ := JobService.createJob (<["id" := VStr "mine"]> Sample.jobData) in
                   ConversionWorker.iteration) Sample.empty))
  = <[JobService.jobKey (uuid_of (lib Sample.empty) (uuid_count Sample.empty)) :=
        (created (<["id" := VStr "mine"]> Sample.jobData) Sample.empty, Some 86400)]>
      (store Sample.empty) /\
  queue (snd (run (let* _ := JobService.createJob (<["id" := VStr "mine"]> Sample.jobData) in
                   ConversionWorker.iteration) Sample.empty)) = [] /\
  fs (snd (run (let* _ := JobService.createJob (<["id" := VStr "mine"]> Sample.jobData) in
                ConversionWorker.iteration) Sample.empty)) = fs Sample.empty.
Proof.
  apply (job_with_its_own_id_is_never_processed Sample.empty
           (<["id" := VStr "mine"]> Sample.jobData) "mine").
  - split; reflexivity.
  - reflexivity.
  - reflexivity.
  - discriminate.
  - reflexivity.
Defined.

(** ** The tags handed to exiftool *)

Ltac not_listed :=
  unfold gpsFields, timestampFields;
  rewrite !not_elem_of_cons; repeat split; try discriminate; apply not_elem_of_nil.

Lemma lookup_gpsToPreserve_other om (m : tagset) k :
  k ∉ gpsFields -> ConversionWorker.gpsToPreserve om m !! k = m !! k.
Proof.
  intros Hk. unfold gpsFields in Hk. rewrite !not_elem_of_cons in Hk.
  destruct Hk as (H1 & H2 & H3 & H4 & _).
  unfold ConversionWorker.gpsToPreserve.
  destruct (_ && _); [|reflexivity].
  rewrite !lookup_insert_ne by congruence. reflexivity.
Qed.

Lemma lookup_timestampToPreserve_other om (m : tagset) k :
  k ∉ timestampFields -> ConversionWorker.timestampToPreserve om m !! k = m !! k.
Proof.
  intros Hk. unfold timestampFields in Hk. rewrite !not_elem_of_cons in Hk.
  destruct Hk as (H1 & H2 & H3 & _).
  unfold ConversionWorker.timestampToPreserve.
  repeat (destruct (truthy_prop _); [rewrite lookup_insert_ne by congruence; reflexivity|]).
  reflexivity.
Qed.

Lemma timestampToPreserve_ext om (m1 m2 : tagset) k :
  m1 !! k = m2 !! k ->
  ConversionWorker.timestampToPreserve om m1 !! k
  = ConversionWorker.timestampToPreserve om m2 !! k.
Proof.
  intros H. unfold ConversionWorker.timestampToPreserve.
  repeat (destruct (truthy_prop _);
          [rewrite !lookup_insert; case_decide; [reflexivity | exact H]|]).
  exact H.
Qed.

Lemma lookup_metadataToPreserve_timestamp width height om k :
  k ∈ timestampFields ->
  ConversionWorker.metadataToPreserve width height om !! k
  = ConversionWorker.timestampToPreserve om ∅ !! k.
Proof.
  intros Hk. unfold ConversionWorker.metadataToPreserve.
  assert (Hd : k <> "ImageHeight" /\ k <> "ImageWidth" /\ k ∉ gpsFields).
  { unfold timestampFields, gpsFields in *.
    rewrite !elem_of_cons, elem_of_nil in Hk.
    destruct Hk as [-> | [-> | [-> | []]]];
      (split; [discriminate|]); (split; [discriminate|]);
      rewrite !not_elem_of_cons; repeat split; try discriminate; apply not_elem_of_nil. }
  destruct Hd as (H1 & H2 & H3).
  rewrite lookup_gpsToPreserve_other by exact H3.
  apply timestampToPreserve_ext. rewrite !lookup_insert_ne by congruence. reflexivity.
Qed.

Lemma timestamps_preserved width height om :
  (fun k => ConversionWorker.metadataToPreserve width height om !! k) <$> timestampFields
  = if truthy_prop (om !! "DateTimeOriginal") then [Some (om !! "DateTimeOriginal"); None; None]
    else if truthy_prop (om !! "DateTime") then [None; Some (om !! "DateTime"); None]
    else if truthy_prop (om !! "CreateDate") then [None; None; Some (om !! "CreateDate")]
    else [None; None; None].
Proof.
  unfold timestampFields. cbn [fmap list_fmap].
  rewrite !lookup_metadataToPreserve_timestamp
    by (unfold timestampFields; rewrite !elem_of_cons; auto).
  unfold ConversionWorker.timestampToPreserve.
  repeat (destruct (truthy_prop _); [reflexivity|]). reflexivity.
Qed.

(** X14. Of the three timestamps of the original, [DateTimeOriginal],
    [DateTime] and [CreateDate], exactly the first one that is truthy is
    handed to exiftool, under its own name; none is when none is truthy.
    [hasTimestamp] in the result is true exactly when one is handed on. *)
Theorem first_timestamp_is_preserved (width height : Z) (om : obj) :
  (truthy_prop (om !! "DateTimeOriginal") = true ->
   (fun k => ConversionWorker.metadataToPreserve width height om !! k) <$> timestampFields
   = [Some (om !! "DateTimeOriginal"); None; None]) /\
  (truthy_prop (om !! "DateTimeOriginal") = false ->
   truthy_prop (om !! "DateTime") = true ->
   (fun k => ConversionWorker.metadataToPreserve width height om !! k) <$> timestampFields
   = [None; Some (om !! "DateTime"); None]) /\
  (truthy_prop (om !! "DateTimeOriginal") = false ->
   truthy_prop (om !! "DateTime") = false ->
   truthy_prop (om !! "CreateDate") = true ->
   (fun k => ConversionWorker.metadataToPreserve width height om !! k) <$> timestampFields
   = [None; None; Some (om !! "CreateDate")]) /\
  (truthy_prop (om !! "DateTimeOriginal") = false ->
   truthy_prop (om !! "DateTime") = false ->
   truthy_prop (om !! "CreateDate") = false ->
   (fun k => ConversionWorker.metadataToPreserve width height om !! k) <$> timestampFields
   = [None; None; None]) /\
  (ConversionWorker.hasTimestamp om = true <->
   exists k, k ∈ timestampFields /\
             is_Some (ConversionWorker.metadataToPreserve width height om !! k)).
Proof.
  pose proof (timestamps_preserved width height om) as T.
  unfold ConversionWorker.hasTimestamp.
  assert (E : forall k (P : string -> Prop), k ∈ timestampFields -> P k ->
              exists k', k' ∈ timestampFields /\ P k') by eauto.
  destruct (truthy_prop (om !! "DateTimeOriginal")) eqn:E1;
    [|destruct (truthy_prop (om !! "DateTime")) eqn:E2;
      [|destruct (truthy_prop (om !! "CreateDate")) eqn:E3]];
    cbn [orb]; rewrite T; unfold timestampFields in *; cbn [fmap list_fmap] in T;
    injection T as T1 T2 T3;
    (split; [intros; try discriminate; reflexivity|]);
    (split; [intros; try discriminate; reflexivity|]);
    (split; [intros; try discriminate; reflexivity|]);
    (split; [intros; try discriminate; reflexivity|]).
  - split; [intros _|reflexivity]. exists "DateTimeOriginal".
    split; [rewrite !elem_of_cons; auto | rewrite T1; eauto].
  - split; [intros _|reflexivity]. exists "DateTime".
    split; [rewrite !elem_of_cons; auto | rewrite T2; eauto].
  - split; [intros _|reflexivity]. exists "CreateDate".
    split; [rewrite !elem_of_cons; auto | rewrite T3; eauto].
  - split; [discriminate|]. intros (k & Hk & [x Hs]). revert Hk Hs.
    rewrite !elem_of_cons, elem_of_nil. intros [-> | [-> | [-> | []]]]; congruence.
Qed.

Lemma metadataToPreserve_fields width height om k :
  k ∉ preservedFields ->
  ConversionWorker.metadataToPreserve width height om !! k = None.
Proof.
  intros Hk. unfold ConversionWorker.metadataToPreserve, preservedFields in *.
  rewrite !not_elem_of_app in Hk. destruct Hk as (Hd & Ht & Hg).
  rewrite lookup_gpsToPreserve_other, lookup_timestampToPreserve_other by assumption.
  rewrite !not_elem_of_cons in Hd. destruct Hd as (H1 & H2 & _).
  rewrite !lookup_insert_ne by congruence. apply lookup_empty.
Qed.

Lemma writes_only_metadataToPreserve path width height om :
  writes_only preservedFields _
    (ExiftoolWrite path (ConversionWorker.metadataToPreserve width height om)) = true.
Proof.
  cbn [writes_only]. apply bool_decide_eq_true. intros k v Hk.
  destruct (decide (k ∈ preservedFields)) as [Hin|Hout]; [exact Hin|].
  rewrite (metadataToPreserve_fields width height om k Hout) in Hk. discriminate.
Qed.

Lemma processJob_writes_only job :
  within (writes_only preservedFields) (ConversionWorker.processJob job).
Proof.
  unfold ConversionWorker.processJob, ConversionWorker.attempt,
    ConversionWorker.convert, ConversionWorker.assemble,
    ConversionWorker.stages, ConversionWorker.extract, ConversionWorker.decode,
    ConversionWorker.derive, ConversionWorker.thumbnailTask,
    ConversionWorker.cleanupTempFiles, ConversionWorker.bufferFrom,
    ConversionWorker.parseName, await.
  unfold_services.
  footprint; apply within_perform, writes_only_metadataToPreserve.
Qed.

(** X15. The tag set [processJob] builds for [exiftool.write] holds the
    width and the height it is given, which are those of the decoded image
    whatever the original's tags say, and beside them nothing but a
    timestamp and the four GPS fields; and every [exiftool.write] that
    [processJob], and so a turn of the worker, issues, in whatever state
    and whatever the store and the libraries answer, is handed tags of
    these fields only: no other tag of the original, such as the make or
    the model of the camera, is among the tags written. *)
Theorem preserved_tags_are_limited (width height : Z) (om : obj) :
  ConversionWorker.metadataToPreserve width height om !! "ImageWidth"
  = Some (Some (VNum width)) /\
  ConversionWorker.metadataToPreserve width height om !! "ImageHeight"
  = Some (Some (VNum height)) /\
  (forall k,
     k ∉ preservedFields ->
     ConversionWorker.metadataToPreserve width height om !! k = None) /\
  (forall job,
     within (writes_only preservedFields) (ConversionWorker.processJob job)) /\
  within (writes_only preservedFields) ConversionWorker.iteration.
Proof.
  split; [|split; [|split; [|split]]].
  - unfold ConversionWorker.metadataToPreserve.
    rewrite lookup_gpsToPreserve_other, lookup_timestampToPreserve_other
      by not_listed.
    rewrite lookup_insert_ne by discriminate. apply lookup_insert_eq.
  - unfold ConversionWorker.metadataToPreserve.
    rewrite lookup_gpsToPreserve_other, lookup_timestampToPreserve_other
      by not_listed.
    apply lookup_insert_eq.
  - apply metadataToPreserve_fields.
  - apply processJob_writes_only.
  - unfold ConversionWorker.iteration. apply within_try_catch.
    + apply within_bind; [unfold_services; footprint|].
      intros [job|]; [apply processJob_writes_only | constructor].
    + intros e. apply within_perform. reflexivity.
Qed.

(** The make of the camera of the sample photograph is not handed on. *)
Example the_make_is_dropped :
  Sample.tags !! "Make" = Some (VStr "Canon") /\
  ConversionWorker.metadataToPreserve 4000 3000 Sample.tags !! "Make" = None /\
  map_to_list (ConversionWorker.metadataToPreserve 4000 3000 Sample.tags)
  ≡ₚ [("ImageWidth", Some (VNum 4000)); ("ImageHeight", Some (VNum 3000));
      ("DateTimeOriginal", Some (VStr "2024:05:01 10:00:00"))].
Proof.
  split; [reflexivity|]. split; [reflexivity|].
  vm_compute. 
  repeat first [reflexivity | apply Permutation_swap | apply perm_skip
               | eapply perm_trans; [apply perm_swap|]].
Qed.

(** ** Jobs that cannot be converted *)

Lemma fs_updated id r w : fs (updated id r w) = fs w.
Proof. reflexivity. Qed.

Lemma run_attempt_without_name w job r t s startTime :
  healthy w ->
  store w !! JobService.jobKey (js_to_string (job !! "id")) = Some (r, t) ->
  job !! "imageData" = Some (VStr s) ->
  job !! "originalName" = None ->
  exists e w2,
    run (ConversionWorker.attempt job startTime) w = (Failed e, w2) /\
    forall path, path <> ConversionWorker.tempDir -> fs w2 !! path = fs w !! path.
Proof.
  intros H Hr Hi Hn. unfold ConversionWorker.attempt. rewrite run_bind.
  rewrite (run_updateJobStatus_healthy _ _ _ r t) by assumption.
  cbv beta iota. rewrite Hi, Hn.
  unfold ConversionWorker.bufferFrom, ConversionWorker.parseName. steps.
  unfold updated. world_simpl.
  destruct (fs w !! ConversionWorker.tempDir) as [[|?]|] eqn:E;
    [ rewrite bool_decide_eq_true_2 by (eexists; reflexivity)
    | rewrite bool_decide_eq_true_2 by (eexists; reflexivity)
    | rewrite bool_decide_eq_false_2 by (intros [? ?]; discriminate) ];
    steps; rewrite ?E; steps; do 2 eexists; (split; [reflexivity|]);
    intros path Hp; world_simpl; rewrite ?lookup_insert_ne by congruence; reflexivity.
Qed.

(** X16. A job without [imageData] fails before anything is written to
    disk: its record gets the status [failed] with the error of
    [Buffer.from], and the file system is as before, without even the
    directory of the temporary files.  A job with [imageData] but without
    [originalName] fails in the same way once that directory is there: no
    file is written. *)
Theorem job_without_its_fields_fails_early (w : world) (job r : obj) (t : option Z) :
  healthy w ->
  store w !! JobService.jobKey (js_to_string (job !! "id")) = Some (r, t) ->
  (job !! "imageData" = None ->
   fst (run (ConversionWorker.processJob job) w) = Done tt /\
   fs (snd (run (ConversionWorker.processJob job) w)) = fs w /\
   exists r' e,
     store (snd (run (ConversionWorker.processJob job) w))
       !! JobService.jobKey (js_to_string (job !! "id")) = Some (r', Some 86400) /\
     r' !! "status" = Some (VStr "failed") /\ r' !! "error" = Some (VStr e)) /\
  (forall s,
     job !! "imageData" = Some (VStr s) ->
     job !! "originalName" = None ->
     fst (run (ConversionWorker.processJob job) w) = Done tt /\
     (forall path,
        path <> ConversionWorker.tempDir ->
        fs (snd (run (ConversionWorker.processJob job) w)) !! path = fs w !! path) /\
     exists r' e,
       store (snd (run (ConversionWorker.processJob job) w))
         !! JobService.jobKey (js_to_string (job !! "id")) = Some (r', Some 86400) /\
       r' !! "status" = Some (VStr "failed") /\ r' !! "error" = Some (VStr e)).
Proof.
  intros H Hr. split.
  - intros Hi. rewrite (run_processJob_healthy w job r t H Hr).
    unfold ConversionWorker.attempt. steps.
    rewrite (run_updateJobStatus_healthy w _ _ r t H Hr). cbv beta iota.
    rewrite Hi. cbn [ConversionWorker.bufferFrom]. steps.
    split; [reflexivity|]. split; [reflexivity|].
    match goal with |- context [reported_failure ?i ?x ?e ?s ?v] =>
      destruct (lookup_reported_failure i x e s v) as (r' & L & S1 & S2 & _) end.
    eauto.
  - intros s Hi Hn. rewrite (run_processJob_healthy w job r t H Hr).
    destruct (run_attempt_without_name w job r t s (clock w) H Hr Hi Hn)
      as (e & w2 & -> & F).
    split; [reflexivity|]. split; [exact F|].
    destruct (lookup_reported_failure (js_to_string (job !! "id")) (started r w) e
                (clock w) w2) as (r' & L & S1 & S2 & _).
    eauto.
Qed.

Lemma job_without_its_fields_fails_early_witness :
  (delete "imageData" Sample.job !! "imageData" = None ->
   fst (run (ConversionWorker.processJob (delete "imageData" Sample.job)) Sample.submitted)
   = Done tt /\
   fs (snd (run (ConversionWorker.processJob (delete "imageData" Sample.job))
              Sample.submitted)) = fs Sample.submitted /\
   exists r' e,
     store (snd (run (ConversionWorker.processJob (delete "imageData" Sample.job))
                   Sample.submitted))
       !! JobService.jobKey (js_to_string (delete "imageData" Sample.job !! "id"))
     = Some (r', Some 86400) /\
     r' !! "status" = Some (VStr "failed") /\ r' !! "error" = Some (VStr e)) /\
  (forall s,
     delete "imageData" Sample.job !! "imageData" = Some (VStr s) ->
     delete "imageData" Sample.job !! "originalName" = None ->
     fst (run (ConversionWorker.processJob (delete "imageData" Sample.job)) Sample.submitted)
     = Done tt /\
     (forall path,
        path <> ConversionWorker.tempDir ->
        fs (snd (run (ConversionWorker.processJob (delete "imageData" Sample.job))
                   Sample.submitted)) !! path = fs Sample.submitted !! path) /\
     exists r' e,
       store (snd (run (ConversionWorker.processJob (delete "imageData" Sample.job))
                     Sample.submitted))
         !! JobService.jobKey (js_to_string (delete "imageData" Sample.job !! "id"))
       = Some (r', Some 86400) /\
       r' !! "status" = Some (VStr "failed") /\ r' !! "error" = Some (VStr e)).
Proof.
  apply (job_without_its_fields_fails_early Sample.submitted
           (delete "imageData" Sample.job) Sample.job (Some 86400)).
  - split; reflexivity.
  - vm_compute. reflexivity.
Defined.

(** The sample job when it has lost its image, and when it has lost its
    name: its status, and the files afterwards. *)
Example jobs_without_their_fields :
  fst (fst (Sample.outcome_of
              (snd (run (ConversionWorker.processJob (delete "imageData" Sample.job))
                      Sample.submitted))))
  = Some (VStr "failed") /\
  map_to_list (fs (snd (run (ConversionWorker.processJob (delete "imageData" Sample.job))
                          Sample.submitted)))
  = [] /\
  fst (fst (Sample.outcome_of
              (snd (run (ConversionWorker.processJob (delete "originalName" Sample.job))
                      Sample.submitted))))
  = Some (VStr "failed") /\
  map_to_list (fs (snd (run (ConversionWorker.processJob (delete "originalName" Sample.job))
                          Sample.submitted)))
  = [("temp", Dir)].
Proof. repeat split; vm_compute; reflexivity. Qed.

(** ** The files a job touches *)

Lemma same_files_outside_refl S w : same_files_outside S w w.
Proof. intros path _. reflexivity. Qed.

Lemma same_files_outside_trans S w0 w1 w2 :
  same_files_outside S w0 w1 -> same_files_outside S w1 w2 ->
  same_files_outside S w0 w2.
Proof. intros H01 H12 path Hp. rewrite (H12 path Hp). apply H01, Hp. Qed.

Lemma touches_handle S {X} (c : cmd X) w x w' :
  touches S X c = true -> handle c w = Some (x, w') -> same_files_outside S w w'.
Proof.
  intros Hc H path Hp.
  destruct c; cbn [handle touches] in *;
    try (apply bool_decide_eq_true in Hc);
    try (unfold client, next_fault in H; destruct (faults w) as [|[?|] ?]; cbn in H);
    repeat match type of H with
           | context [match ?t with _ => _ end] => destruct t eqn:?
           end;
    try discriminate; injection H as <- <-; world_simpl; try reflexivity.
  all: try (rewrite lookup_insert_ne by congruence; reflexivity).
  all: try (rewrite lookup_delete_ne by congruence; reflexivity).
  all: match goal with
       | H : match rev ?l with _ => _ end = _ |- _ =>
           destruct (rev l); inversion H; subst; reflexivity
       end.
Qed.

Lemma touches_run S {A} (p : prog A) w :
  within (touches S) p -> same_files_outside S w (snd (run p w)).
Proof.
  intros Hp.
  apply (within_run (touches S) (same_files_outside S w));
    [|exact Hp|apply same_files_outside_refl].
  intros X c w1 x w2 Hc Hw H. eapply same_files_outside_trans; [exact Hw|].
  eapply touches_handle; eassumption.
Qed.

Lemma frame_bind S {A B} (p : prog A) (f : A -> prog B) w0 w :
  within (touches S) p ->
  same_files_outside S w0 w ->
  (forall a w1,
      run p w = (Done a, w1) -> same_files_outside S w0 w1 ->
      same_files_outside S w0 (snd (run (f a) w1))) ->
  same_files_outside S w0 (snd (run (bind p f) w)).
Proof.
  intros Hp H0 Hf. rewrite run_bind.
  pose proof (touches_run S p w Hp) as T.
  destruct (run p w) as [[a|e|] w1] eqn:E; cbn [snd] in *.
  - apply Hf; [reflexivity|]. eapply same_files_outside_trans; eassumption.
  - eapply same_files_outside_trans; eassumption.
  - eapply same_files_outside_trans; eassumption.
Qed.

Lemma frame_try_catch S {A} (p : prog A) (h : string -> prog A) w0 w :
  same_files_outside S w0 (snd (run p w)) ->
  (forall e, within (touches S) (h e)) ->
  same_files_outside S w0 (snd (run (try_catch p h) w)).
Proof.
  intros Hp Hh. rewrite run_try_catch.
  destruct (run p w) as [[a|e|] w1]; cbn [snd] in *; try exact Hp.
  eapply same_files_outside_trans; [exact Hp|]. apply touches_run, Hh.
Qed.

Lemma updateJobStatus_touches S id updates :
  within (touches S) (JobService.updateJobStatus id updates).
Proof. unfold_services. footprint. Qed.

Lemma cleanupTempFiles_touches S files :
  (forall file, file ∈ files -> file ∈ S) ->
  within (touches S) (ConversionWorker.cleanupTempFiles files).
Proof.
  unfold ConversionWorker.cleanupTempFiles.
  induction files as [|file files IH]; intros HS; cbn [forEach].
  - constructor.
  - apply within_bind.
    + apply within_try_catch.
      * apply within_bind; [apply within_perform; reflexivity|].
        intros [|]; [|constructor].
        apply within_call. cbn [touches]. apply bool_decide_eq_true, HS.
        apply list_elem_of_here.
      * intros e. apply within_perform. reflexivity.
    + intros _. apply IH. intros f Hf. apply HS. apply list_elem_of_further, Hf.
Qed.

Lemma stages_touches S id inputBuffer originalName :
  (forall file, file ∈ ConversionWorker.tempFiles id originalName -> file ∈ S) ->
  within (touches S) (ConversionWorker.stages id inputBuffer originalName).
Proof.
  intros HS.
  unfold ConversionWorker.stages, ConversionWorker.extract, ConversionWorker.decode,
    ConversionWorker.derive, ConversionWorker.thumbnailTask, await.
  footprint;
    apply within_call || apply within_perform;
    cbn [touches]; apply bool_decide_eq_true, HS;
    unfold ConversionWorker.tempFiles; rewrite !elem_of_cons; auto.
Qed.

Lemma convert_touches S id startTime inputBuffer originalName :
  (forall file, file ∈ ConversionWorker.tempFiles id originalName -> file ∈ S) ->
  within (touches S)
    (try_catch
       (ConversionWorker.convert id startTime inputBuffer originalName)
       (fun conversionError =>
          let* _ := ConversionWorker.cleanupTempFiles
                      [ConversionWorker.tempOriginal id;
                       ConversionWorker.tempThumb id originalName;
                       ConversionWorker.tempFull id originalName] in
          Throw conversionError)).
Proof.
  intros HS. apply within_try_catch.
  - unfold ConversionWorker.convert, ConversionWorker.assemble.
    apply within_bind; [apply stages_touches, HS|]. intros st.
    apply within_bind; [apply cleanupTempFiles_touches, HS|]. intros _.
    apply within_bind; [apply within_perform; reflexivity|]. intros now.
    apply within_bind; [apply within_perform; reflexivity|]. intros thumbData.
    apply within_bind; [apply within_perform; reflexivity|]. intros fullData.
    apply within_bind; [apply updateJobStatus_touches|]. intros _.
    apply within_perform. reflexivity.
  - intros e. apply within_bind; [apply cleanupTempFiles_touches, HS|].
    intros _. constructor.
Qed.

Lemma run_lib_eq {A} (p : prog A) w o w' : run p w = (o, w') -> lib w' = lib w.
Proof. intros E. rewrite <- (run_lib p w), E. reflexivity. Qed.

(** X17. Whatever the store, the libraries and the job are, [processJob]
    creates, changes and removes nothing in the file system but the
    directory of the temporary files and the three temporary files of the
    job: every other path holds afterwards what it held before. *)
Theorem processJob_touches_only_its_own_files (w : world) (job : obj) :
  same_files_outside (paths job w) w (snd (run (ConversionWorker.processJob job) w)).
Proof.
  unfold ConversionWorker.processJob.
  apply frame_bind; [footprint | apply same_files_outside_refl |]. intros startTime w1 E1 F1.
  apply frame_bind; [footprint | exact F1 |]. intros u2 w2 E2 F2.
  assert (L2 : lib w2 = lib w)
    by (rewrite (run_lib_eq _ _ _ _ E2); apply (run_lib_eq _ _ _ _ E1)).
  apply frame_try_catch.
  2:{ intros e. apply within_bind; [footprint|]. intros _.
      apply within_bind; [footprint|]. intros now.
      apply within_bind; [apply updateJobStatus_touches|]. intros _. constructor. }
  unfold ConversionWorker.attempt.
  apply frame_bind; [apply updateJobStatus_touches | exact F2 |]. intros r' w3 E3 F3.
  apply frame_bind;
    [unfold ConversionWorker.bufferFrom; footprint | exact F3 |].
  intros inputBuffer w4 E4 F4.
  apply frame_bind; [footprint | exact F4 |]. intros e w5 E5 F5.
  apply frame_bind.
  { destruct (negb e); [|constructor]. apply within_call. cbn [touches].
    apply bool_decide_eq_true. unfold paths. apply list_elem_of_here. }
  { exact F5. }
  intros u6 w6 E6 F6.
  assert (L6 : lib w6 = lib w).
  { rewrite (run_lib_eq _ _ _ _ E6), (run_lib_eq _ _ _ _ E5), (run_lib_eq _ _ _ _ E4),
      (run_lib_eq _ _ _ _ E3). exact L2. }
  unfold paths in *. unfold ConversionWorker.parseName.
  destruct (job !! "originalName") as [[| | |name|]|];
    try (cbn [bind run snd]; exact F6).
  rewrite run_bind, run_perform. cbn [handle]. cbv beta iota. rewrite L6.
  eapply same_files_outside_trans; [exact F6|].
  apply touches_run, convert_touches.
  intros file Hf. apply list_elem_of_further, Hf.
Qed.

(** ** What [cleanupTempFiles] does to the files *)

Lemma run_unlink_if_exists file w :
  run (try_catch
         (let* e := perform (ExistsSync file) in
          if e then call (UnlinkSync file) else Ret tt)
         (fun cleanupError => perform (Log "warn" "Failed to cleanup temp file"))) w
  = (Done tt, match fs w !! file with
              | Some (File _) => set_fs (delete file) w
              | _ => w
              end).
Proof.
  steps. destruct (fs w !! file) as [[|data]|] eqn:E.
  - rewrite bool_decide_eq_true_2 by (eexists; reflexivity). steps. rewrite E. steps.
    reflexivity.
  - rewrite bool_decide_eq_true_2 by (eexists; reflexivity). steps. rewrite E. steps.
    reflexivity.
  - rewrite bool_decide_eq_false_2 by (intros [? ?]; discriminate). steps.
    reflexivity.
Qed.


(** X18. [cleanupTempFiles] never throws, and it removes the regular files
    at the paths it is given and nothing else: a directory at one of them
    stays (its [unlink] throws and the error is logged), so does every path
    it is not given, and the cleanup goes on with the paths that follow. *)
Theorem cleanupTempFiles_unlinks_the_files (files : list string) (w : world) :
  fst (run (ConversionWorker.cleanupTempFiles files) w) = Done tt /\
  (forall path,
     fs (snd (run (ConversionWorker.cleanupTempFiles files) w)) !! path
     = match fs w !! path with
       | Some (File data) => if bool_decide (path ∈ files) then None else Some (File data)
       | n => n
       end).
Proof.
  unfold ConversionWorker.cleanupTempFiles. revert w.
  induction files as [|file files IH]; intros w; cbn [forEach].
  - split; [reflexivity|]. intros path. cbn [run snd].
    destruct (fs w !! path) as [[|data]|]; reflexivity.
  - rewrite run_bind, run_unlink_if_exists. cbv beta iota.
    match goal with |- context [run _ ?w1] => destruct (IH w1) as [IH1 IH2] end.
    split; [exact IH1|].
    intros path. rewrite IH2. clear IH1 IH2.
    destruct (decide (path = file)) as [->|Hne].
    + destruct (fs w !! file) as [[|data]|] eqn:E; world_simpl;
        rewrite ?E, ?lookup_delete_eq; try reflexivity.
      rewrite bool_decide_eq_true_2 by apply list_elem_of_here. reflexivity.
    + assert (B : bool_decide (path ∈ file :: files) = bool_decide (path ∈ files)).
      { apply bool_decide_ext. rewrite elem_of_cons. tauto. }
      rewrite B.
      destruct (fs w !! file) as [[|data]|]; world_simpl;
        rewrite ?lookup_delete_ne by congruence; reflexivity.
Qed.

(** A directory in the way of the second file: the first and the third are
    removed all the same. *)
Example cleanup_with_a_directory_in_the_way :
  map_to_list
    (fs (snd (run (ConversionWorker.cleanupTempFiles ["a"; "b"; "c"])
                (set_fs (fun _ => <["a" := File "1"]> (<["b" := Dir]> (<["c" := File "3"]>
                           (<["d" := File "4"]> ∅)))) Sample.empty))))
  ≡ₚ [("b", Dir); ("d", File "4")].
Proof.
  vm_compute.
  repeat first [reflexivity | apply perm_skip | eapply perm_trans; [apply perm_swap|]].
Qed.

(** ** A conversion that succeeds *)







(** The temporary files are the temporary names, in the directory of the
    temporary files; an [id] with a slash in it does not give valid
    names. *)
Example names_of_the_temporary_files :
  (forall id originalName,
     ConversionWorker.tempFiles id originalName
     = ConversionWorker.path_join ConversionWorker.tempDir <$> tempNames id originalName) /\
  forallb valid_file_name (tempNames "job-0" "photo") = true /\
  forallb valid_file_name (tempNames "a/b" "photo") = false.
Proof. repeat split. Qed.

(** The record of the sample job after its conversion. *)
Example sample_result :
  (fun x => (fst x !! "status", fst x !! "processingTime", fst x !! "results")) <$>
    (store (snd (run (ConversionWorker.processJob Sample.job) Sample.submitted))
       !! JobService.jobKey "job-0")
  = Some (Some (VStr "completed"), Some (VNum 1935),
          Some (VObj [("thumbnail",
                       VObj [("filename", VStr "photo_thumb.avif");
                             ("data", VStr "avif80:abc");
                             ("size", VNum 10); ("format", VStr "avif")]);
                      ("fullSize",
                       VObj [("filename", VStr "photo.avif");
                             ("data", VStr "avif85:abc");
                             ("size", VNum 10); ("format", VStr "avif")]);
                      ("originalSize", VNum 3);
                      ("metadataPreserved", VBool true);
                      ("preservedMetadata",
                       VObj [("hasGPS", VBool false);
                             ("hasTimestamp", VBool true);
                             ("dimensions", VStr "4000x3000")])])).
Proof. vm_compute. reflexivity. Qed.

(** ** The HTTP handlers *)

Lemma createJob_prompt jobData : within prompt (JobService.createJob jobData).
Proof. unfold_services. footprint. Qed.

Lemma getJobStatus_prompt id : within prompt (JobService.getJobStatus id).
Proof. unfold_services. footprint. Qed.

Lemma run_postConvert_connected w f random :
  connected w = true ->
  run (Server.postConvert (Some f) random) w
  = match run (JobService.createJob
                 (request (Server.originalname f) (base64_encode (lib w) (Server.buffer f))
                    (Server.size f) (Server.requestId (clock w) random))) w with
    | (Done job, w1) =>
        (Done {| Server.statusCode := 200;
                 Server.body :=
                   Server.json
                     [("success", Some (VBool true));
                      ("jobId", job !! "id");
                      ("status", Some (VStr "queued"));
                      ("message", Some (VStr "Image queued for conversion"));
                      ("processingTime", Some (VNum (clock w1 - clock w)));
                      ("statusUrl",
                       Some (VStr ("/status/" +:+ js_to_string (job !! "id"))))] |}, w1)
    | (Failed e, w1) =>
        (Done {| Server.statusCode := 500;
                 Server.body :=
                   Server.json [("success", Some (VBool false));
                                ("error", Some (VStr e));
                                ("processingTime", Some (VNum (clock w1 - clock w)))] |}, w1)
    | (Stuck, w1) => (Stuck, w1)
    end.
Proof.
  intros Hc. unfold Server.postConvert. steps. rewrite Hc. cbn [negb]. steps.
  destruct (run (JobService.createJob _) w) as [[job|e|] w1]; steps; reflexivity.
Qed.

Lemma createJob_rejected jobData w e :
  connected w = true ->
  fst (run (JobService.createJob jobData) w) = Failed e ->
  exists c rest,
    e = "Failed to create job: " +:+ c /\
    (faults w = Some c :: rest \/ faults w = None :: Some c :: rest).
Proof.
  intros Hc. unfold_services. steps. rewrite Hc. cbn [negb Z.eqb]. steps.
  rewrite Hc. cbn [negb]. steps. cbn [handle]. unfold client, next_fault.
  world_simpl.
  destruct (faults w) as [|[c|] rest] eqn:Hf; world_simpl; cbv beta iota; steps.
  - rewrite Hc. cbn [negb]. steps. cbn [handle]. unfold client, next_fault.
    world_simpl. rewrite Hf. steps. cbn [fst]. discriminate.
  - cbn [fst]. intros H. injection H as <-. exists c, rest. auto.
  - rewrite Hc. cbn [negb]. steps. cbn [handle]. unfold client, next_fault.
    world_simpl. destruct rest as [|[c|] rest]; steps; cbn [fst]; try discriminate.
    intros H. injection H as <-. exists c, rest. auto.
Qed.

(** X20. [POST /convert] always answers.  Without a file it answers 400
    and without a connection 503, and has then changed nothing, not even
    drawn an identifier.  Otherwise it answers 200 exactly when [createJob]
    has returned: the record is stored and its entry is the newest of the
    queue, and the answer carries the [id] of the record and the URL of its
    status; and 500 when [createJob] has thrown, which it does when the
    store rejects the write of the record or the push of the entry: the
    answer then carries the error 'Failed to create job: ...' with the
    error of the rejected command, and neither a [jobId] nor a
    [statusUrl]. *)
Theorem postConvert_answers (w : world) (reqFile : option Server.file)
    (random : string) :
  exists resp,
    fst (run (Server.postConvert reqFile random) w) = Done resp /\
    ((reqFile = None /\ Server.statusCode resp = 400 /\
      snd (run (Server.postConvert reqFile random) w) = w) \/
     (is_Some reqFile /\ connected w = false /\ Server.statusCode resp = 503 /\
      snd (run (Server.postConvert reqFile random) w) = w) \/
     (exists f job,
        reqFile = Some f /\ connected w = true /\ Server.statusCode resp = 200 /\
        job = created (request (Server.originalname f)
                         (base64_encode (lib w) (Server.buffer f))
                         (Server.size f) (Server.requestId (clock w) random)) w /\
        Server.body resp !! "jobId" = Some (VStr (uuid_of (lib w) (uuid_count w))) /\
        Server.body resp !! "status" = Some (VStr "queued") /\
        Server.body resp !! "statusUrl"
        = Some (VStr ("/status/" +:+ uuid_of (lib w) (uuid_count w))) /\
        store (snd (run (Server.postConvert reqFile random) w))
          !! JobService.jobKey (uuid_of (lib w) (uuid_count w)) = Some (job, Some 86400) /\
        queue (snd (run (Server.postConvert reqFile random) w))
        = {| jobId := uuid_of (lib w) (uuid_count w) |} :: queue w) \/
     (exists c rest,
        is_Some reqFile /\ connected w = true /\ Server.statusCode resp = 500 /\
        (faults w = Some c :: rest \/ faults w = None :: Some c :: rest) /\
        Server.body resp !! "success" = Some (VBool false) /\
        Server.body resp !! "error" = Some (VStr ("Failed to create job: " +:+ c)) /\
        Server.body resp !! "jobId" = None /\
        Server.body resp !! "statusUrl" = None)).
Proof.
  destruct reqFile as [f|].
  2:{ eexists. split; [reflexivity|]. left. repeat split. }
  destruct (connected w) eqn:Hc.
  2:{ unfold Server.postConvert. steps. rewrite Hc. cbn [negb]. steps.
      eexists. split; [reflexivity|]. right. left. repeat split. eauto. }
  rewrite (run_postConvert_connected w f random Hc).
  pose proof (prompt_run _ (createJob_prompt
                (request (Server.originalname f) (base64_encode (lib w) (Server.buffer f))
                   (Server.size f) (Server.requestId (clock w) random))) w) as P.
  pose proof (createJob_rejected
                (request (Server.originalname f) (base64_encode (lib w) (Server.buffer f))
                   (Server.size f) (Server.requestId (clock w) random)) w) as M.
  destruct (run (JobService.createJob _) w) as [[job|e|] w1] eqn:E;
    cbn [fst snd] in *; [| |contradiction].
  - eexists. split; [reflexivity|]. right. right. left.
    apply createJob_spec in E. cbv zeta in E.
    destruct E as (_ & _ & [(e & He & _) | [(e & He & _) | (Hj & Hs & Hl & _)]]);
      try discriminate.
    injection Hj as ->.
    destruct (created_request (Server.originalname f)
                (base64_encode (lib w) (Server.buffer f)) (Server.size f)
                (Server.requestId (clock w) random) w) as [Hid _].
    exists f. eexists. split; [reflexivity|]. split; [reflexivity|].
    split; [reflexivity|]. split; [reflexivity|].
    cbn [Server.body Server.json]. rewrite Hid. cbn [js_to_string].
    split; [rewrite lookup_insert_ne by discriminate; apply lookup_insert_eq|].
    split; [rewrite !lookup_insert_ne by discriminate; apply lookup_insert_eq|].
    split; [rewrite !lookup_insert_ne by discriminate; apply lookup_insert_eq|].
    split; [rewrite Hs; apply lookup_insert_eq|].
    unfold queue, list_at. rewrite Hl, lookup_insert_eq. reflexivity.
  - destruct (M e Hc eq_refl) as (c & rest & -> & Hf).
    eexists. split; [reflexivity|]. right. right. right. exists c, rest.
    split; [eauto|]. split; [reflexivity|]. split; [reflexivity|].
    split; [exact Hf|].
    cbn [Server.body Server.json].
    split; [apply lookup_insert_eq|].
    split; [rewrite lookup_insert_ne by discriminate; apply lookup_insert_eq|].
    split; rewrite !lookup_insert_ne by discriminate; apply lookup_empty.
Qed.

(** The store rejects the write of the record: the request is answered
    with 500 and the error of the write. *)
Example rejected_request :
  (fun resp => (Server.statusCode resp, map_to_list (Server.body resp))) <$>
    match fst (run (Server.postConvert
                      (Some {| Server.originalname := "photo.jpg";
                               Server.buffer := "abc"; Server.size := 3 |}) "k3j2h1g0f")
                 (set_faults (fun _ => [Some "ECONNRESET"]) Sample.empty)) with
    | Done resp => Some resp
    | _ => None
    end
  = Some (500, [("success", VBool false);
                ("error", VStr "Failed to create job: ECONNRESET");
                ("processingTime", VNum 0)]).
Proof. vm_compute. reflexivity. Qed.

Lemma lookup_json_None fields k : k ∉ fields.*1 -> Server.json fields !! k = None.
Proof.
  induction fields as [|[k' [v|]] l IH]; cbn [Server.json fmap list_fmap fst]; intros H.
  - apply lookup_empty.
  - rewrite not_elem_of_cons in H. destruct H as [H1 H2].
    rewrite lookup_insert_ne by congruence. apply IH, H2.
  - rewrite not_elem_of_cons in H. destruct H as [H1 H2]. apply IH, H2.
Qed.

Lemma lookup_json fields k :
  NoDup fields.*1 -> Server.json fields !! k = field k fields.
Proof.
  induction fields as [|[k' [v|]] l IH]; cbn [Server.json field fmap list_fmap fst];
    intros H.
  - apply lookup_empty.
  - apply NoDup_cons in H. destruct H as [H1 H2].
    destruct (String.eqb_spec k' k) as [->|Hne].
    + apply lookup_insert_eq.
    + rewrite lookup_insert_ne by exact Hne. apply IH, H2.
  - apply NoDup_cons in H. destruct H as [H1 H2].
    destruct (String.eqb_spec k' k) as [->|Hne].
    + apply lookup_json_None, H1.
    + apply IH, H2.
Qed.

Lemma run_getStatus_connected w jobId :
  connected w = true ->
  run (Server.getStatus jobId) w
  = match run (JobService.getJobStatus jobId) w with
    | (Done None, w1) =>
        (Done {| Server.statusCode := 404;
                 Server.body := Server.json [("success", Some (VBool false));
                                             ("error", Some (VStr "Job not found"))] |}, w1)
    | (Done (Some job), w1) =>
        (Done {| Server.statusCode := 200;
                 Server.body :=
                   Server.json [("success", Some (VBool true));
                                ("jobId", job !! "id");
                                ("status", job !! "status");
                                ("createdAt", job !! "createdAt");
                                ("updatedAt", job !! "updatedAt");
                                ("processingTime", job !! "processingTime");
                                ("results", job !! "results");
                                ("error", job !! "error")] |}, w1)
    | (Failed e, w1) =>
        (Done {| Server.statusCode := 500;
                 Server.body := Server.json [("success", Some (VBool false));
                                             ("error", Some (VStr e))] |}, w1)
    | (Stuck, w1) => (Stuck, w1)
    end.
Proof.
  intros Hc. unfold Server.getStatus.
  rewrite run_try_catch, run_bind, run_isConnected. cbv beta iota. rewrite Hc.
  cbn [negb]. rewrite run_bind.
  destruct (run (JobService.getJobStatus jobId) w) as [[[job|]|e|] w1]; steps; reflexivity.
Qed.

Lemma NoDup_statusFields : NoDup statusFields.
Proof.
  unfold statusFields.
  repeat (apply NoDup_cons; split;
          [rewrite ?not_elem_of_cons; repeat split; try discriminate;
           apply not_elem_of_nil|]).
  apply NoDup_nil. exact I.
Qed.

Lemma run_getStatus_found w jobId r t :
  healthy w ->
  store w !! JobService.jobKey jobId = Some (r, t) ->
  exists resp,
    run (Server.getStatus jobId) w = (Done resp, w) /\
    Server.statusCode resp = 200 /\
    forall k, Server.body resp !! k
              = field k [("success", Some (VBool true));
                         ("jobId", r !! "id");
                         ("status", r !! "status");
                         ("createdAt", r !! "createdAt");
                         ("updatedAt", r !! "updatedAt");
                         ("processingTime", r !! "processingTime");
                         ("results", r !! "results");
                         ("error", r !! "error")].
Proof.
  intros H Hr. pose proof H as [Hc _].
  rewrite (run_getStatus_connected w jobId Hc), (run_getJobStatus_healthy w jobId H), Hr.
  cbn [fmap option_fmap option_map fst]. eexists.
  split; [reflexivity|]. split; [reflexivity|]. intros k. cbn [Server.body].
  apply lookup_json. exact NoDup_statusFields.
Qed.

(** X21. [GET /status/:jobId] always answers, and it only reads: the Redis
    server is afterwards as before.  It answers 503 without a connection.
    Whatever it answers, the body has none but the eight fields of a status
    (and so never the image data of the record). *)
Theorem getStatus_answers (w : world) (jobId : string) :
  exists resp,
    fst (run (Server.getStatus jobId) w) = Done resp /\
    same_server w (snd (run (Server.getStatus jobId) w)) /\
    Server.statusCode resp ∈ [200; 404; 500; 503] /\
    (connected w = false -> Server.statusCode resp = 503) /\
    (forall k, k ∉ statusFields -> Server.body resp !! k = None).
Proof.
  destruct (connected w) eqn:Hc.
  - rewrite (run_getStatus_connected w jobId Hc).
    pose proof (prompt_run _ (getJobStatus_prompt jobId) w) as P.
    destruct (run (JobService.getJobStatus jobId) w) as [[[job|]|e|] w1] eqn:E;
      cbn [fst snd] in *; [| | |contradiction];
      apply getJobStatus_spec in E; destruct E as [Hs _];
      (eexists; split; [reflexivity|]; split; [exact Hs|];
       split; [cbn [Server.statusCode]; rewrite !elem_of_cons; auto|];
       split; [discriminate|]);
      intros k Hk; cbn [Server.body]; apply lookup_json_None;
      cbn [fmap list_fmap fst]; unfold statusFields in Hk;
      rewrite !not_elem_of_cons in *; intuition.
  - unfold Server.getStatus. steps. rewrite Hc. cbn [negb]. steps.
    eexists. split; [reflexivity|]. split; [apply same_server_refl|].
    split; [cbn [Server.statusCode]; rewrite !elem_of_cons; auto|].
    split; [reflexivity|].
    intros k Hk; cbn [Server.body]; apply lookup_json_None;
      cbn [fmap list_fmap fst]; unfold statusFields in Hk;
      rewrite !not_elem_of_cons in *; intuition.
Qed.

(** X22. On a store that answers, [GET /status/:jobId] answers 404 when
    there is no record under the key of [jobId], and otherwise 200 with the
    [id] of the record as [jobId] and its status, timestamps, processing
    time, results and error as they are in the record, a field the record
    does not have being left out. *)
Theorem getStatus_reports_the_record (w : world) (jobId : string) :
  healthy w ->
  (store w !! JobService.jobKey jobId = None ->
   exists resp,
     run (Server.getStatus jobId) w = (Done resp, w) /\
     Server.statusCode resp = 404 /\
     Server.body resp !! "success" = Some (VBool false)) /\
  (forall r t,
     store w !! JobService.jobKey jobId = Some (r, t) ->
     exists resp,
       run (Server.getStatus jobId) w = (Done resp, w) /\
       Server.statusCode resp = 200 /\
       Server.body resp !! "success" = Some (VBool true) /\
       Server.body resp !! "jobId" = r !! "id" /\
       (forall k,
          k ∈ ["status"; "createdAt"; "updatedAt"; "processingTime"; "results"; "error"] ->
          Server.body resp !! k = r !! k)).
Proof.
  intros H. pose proof H as [Hc _].
  rewrite (run_getStatus_connected w jobId Hc), (run_getJobStatus_healthy w jobId H).
  split.
  - intros ->. cbn [fmap option_fmap option_map]. eexists. split; [reflexivity|].
    split; [reflexivity|]. cbn [Server.body Server.json]. apply lookup_insert_eq.
  - intros r t ->. cbn [fmap option_fmap option_map fst]. eexists.
    split; [reflexivity|]. split; [reflexivity|]. cbn [Server.body].
    split; [rewrite lookup_json by exact NoDup_statusFields; reflexivity|].
    split; [rewrite lookup_json by exact NoDup_statusFields; reflexivity|].
    intros k Hk. rewrite lookup_json by exact NoDup_statusFields.
    rewrite !elem_of_cons, elem_of_nil in Hk.
    destruct Hk as [-> | [-> | [-> | [-> | [-> | [-> | []]]]]]]; reflexivity.
Qed.

Lemma getStatus_reports_the_record_witness :
  (store Sample.finished !! JobService.jobKey "job-0" = None ->
   exists resp,
     run (Server.getStatus "job-0") Sample.finished = (Done resp, Sample.finished) /\
     Server.statusCode resp = 404 /\
     Server.body resp !! "success" = Some (VBool false)) /\
  (forall r t,
     store Sample.finished !! JobService.jobKey "job-0" = Some (r, t) ->
     exists resp,
       run (Server.getStatus "job-0") Sample.finished = (Done resp, Sample.finished) /\
       Server.statusCode resp = 200 /\
       Server.body resp !! "success" = Some (VBool true) /\
       Server.body resp !! "jobId" = r !! "id" /\
       (forall k,
          k ∈ ["status"; "createdAt"; "updatedAt"; "processingTime"; "results"; "error"] ->
          Server.body resp !! k = r !! k)).
Proof.
  apply (getStatus_reports_the_record Sample.finished "job-0").
  split; reflexivity.
Defined.

Lemma lookup_created_request name data size rid w k :
  k ∉ ["originalName"; "imageData"; "fileSize"; "requestId"] ->
  created (request name data size rid) w !! k
  = JobService.defaults (uuid_of (lib w) (uuid_count w))
      (toISOString (lib w) (clock w)) (toISOString (lib w) (clock w)) !! k.
Proof.
  intros Hk. rewrite !not_elem_of_cons in Hk. destruct Hk as (H1 & H2 & H3 & H4 & _).
  apply lookup_created_None. unfold request.
  rewrite !lookup_insert_ne by congruence. apply lookup_empty.
Qed.

Lemma run_postConvert_healthy w f random :
  healthy w ->
  exists resp,
    run (Server.postConvert (Some f) random) w
    = (Done resp,
       enqueued (request (Server.originalname f) (base64_encode (lib w) (Server.buffer f))
                   (Server.size f) (Server.requestId (clock w) random)) w) /\
    Server.statusCode resp = 200 /\
    Server.body resp !! "jobId" = Some (VStr (uuid_of (lib w) (uuid_count w))).
Proof.
  intros H. pose proof H as [Hc _].
  rewrite (run_postConvert_connected w f random Hc), run_createJob_healthy by exact H.
  eexists. split; [reflexivity|]. split; [reflexivity|].
  cbn [Server.body Server.json].
  destruct (created_request (Server.originalname f)
              (base64_encode (lib w) (Server.buffer f)) (Server.size f)
              (Server.requestId (clock w) random) w) as [-> _].
  rewrite lookup_insert_ne by discriminate. apply lookup_insert_eq.
Qed.

(** X23. On a store that answers, the [jobId] that [POST /convert] answers
    with is one [GET /status/:jobId] knows: asked right away, it answers 200
    with that [jobId], the status [queued], the time of the submission as
    [createdAt] and [updatedAt], and neither results, error nor processing
    time. *)
Theorem status_after_submission (w : world) (f : Server.file) (random : string) :
  healthy w ->
  exists resp,
    fst (run (let* posted := Server.postConvert (Some f) random in
              Server.getStatus (js_to_string (Server.body posted !! "jobId"))) w)
    = Done resp /\
    Server.statusCode resp = 200 /\
    Server.body resp
    = Server.json [("success", Some (VBool true));
                   ("jobId", Some (VStr (uuid_of (lib w) (uuid_count w))));
                   ("status", Some (VStr "queued"));
                   ("createdAt", Some (VStr (toISOString (lib w) (clock w))));
                   ("updatedAt", Some (VStr (toISOString (lib w) (clock w))))].
Proof.
  intros H. rewrite run_bind.
  destruct (run_postConvert_healthy w f random H) as (posted & -> & _ & Hj).
  cbv beta iota. rewrite Hj. cbn [js_to_string].
  match goal with |- context [run _ ?w1] => set (W := w1) end.
  assert (HW : healthy W) by (apply healthy_enqueued, H).
  pose proof HW as [Hc _].
  rewrite (run_getStatus_connected W _ Hc), (run_getJobStatus_healthy W _ HW).
  subst W. rewrite store_enqueued, lookup_insert_eq.
  cbn [fmap option_fmap option_map fst]. eexists. split; [reflexivity|].
  split; [reflexivity|]. cbn [Server.body].
  rewrite !lookup_created_request
    by (rewrite !not_elem_of_cons; repeat split; try discriminate; apply not_elem_of_nil).
  reflexivity.
Qed.

Lemma status_after_submission_witness :
  exists resp,
    fst (run (let* posted := Server.postConvert
                               (Some {| Server.originalname := "photo.jpg";
                                        Server.buffer := "abc"; Server.size := 3 |}) "x1" in
              Server.getStatus (js_to_string (Server.body posted !! "jobId")))
           Sample.empty)
    = Done resp /\
    Server.statusCode resp = 200 /\
    Server.body resp
    = Server.json [("success", Some (VBool true));
                   ("jobId", Some (VStr (uuid_of (lib Sample.empty)
                                           (uuid_count Sample.empty))));
                   ("status", Some (VStr "queued"));
                   ("createdAt", Some (VStr (toISOString (lib Sample.empty)
                                               (clock Sample.empty))));
                   ("updatedAt", Some (VStr (toISOString (lib Sample.empty)
                                               (clock Sample.empty))))].
Proof.
  apply (status_after_submission Sample.empty
           {| Server.originalname := "photo.jpg"; Server.buffer := "abc";
              Server.size := 3 |} "x1").
  split; reflexivity.
Defined.

(** ** From the submission to the result *)

Lemma healthy_reported_failure id r e startTime w :
  healthy w -> healthy (reported_failure id r e startTime w).
Proof. unfold reported_failure. apply healthy_updated. Qed.

Lemma healthy_reported_success id r ib on st startTime w :
  healthy w -> healthy (reported_success id r ib on st startTime w).
Proof. unfold reported_success. apply healthy_updated. Qed.

(** How [processJob] ends on a healthy store with responsive libraries:
    it returns, and the record of the job is terminal. *)
Lemma processJob_ends w job r t :
  healthy w -> responsive (lib w) ->
  store w !! JobService.jobKey (js_to_string (job !! "id")) = Some (r, t) ->
  exists w2 x w',
    run (ConversionWorker.processJob job) w = (Done tt, w') /\
    same_redis (updated (js_to_string (job !! "id")) (started r w) w) w2 /\
    w' = updated (js_to_string (job !! "id")) x w2 /\
    x !! "id" = r !! "id" /\
    (x !! "status" = Some (VStr "completed") /\ is_Some (x !! "results") /\
     x !! "error" = r !! "error" \/
     x !! "status" = Some (VStr "failed") /\ is_Some (x !! "error") /\
     x !! "results" = r !! "results").
Proof.
  intros H R Hr.
  pose proof (processJob_settles job w R) as NS.
  destruct (processJob_healthy w job r t H Hr)
    as (w2 & Q & [(ib & on & st & E) | [(e & _ & E) | E]]);
    rewrite E in *; cbn [fst] in NS; [| |contradiction].
  - exists w2. eexists. eexists. split; [reflexivity|]. split; [exact Q|].
    split; [reflexivity|].
    split; [rewrite lookup_merged by discriminate; cbn; apply id_processing|].
    left. rewrite !lookup_merged by discriminate.
    unfold ConversionWorker.success, ConversionWorker.completed.
    split; [reflexivity|]. split; [cbn; eauto|].
    cbn. unfold started. apply lookup_merged. discriminate.
  - exists w2. eexists. eexists. split; [reflexivity|]. split; [exact Q|].
    split; [reflexivity|].
    split; [rewrite lookup_merged by discriminate; cbn; apply id_processing|].
    right. rewrite !lookup_merged by discriminate.
    unfold ConversionWorker.failed.
    split; [reflexivity|]. split; [cbn; eauto|].
    cbn. apply results_started.
Qed.

(** X24. On a store that answers, with libraries that respond and an empty
    queue, a submission followed by one turn of the worker has a final
    answer: [GET /status/:jobId] of the [jobId] that [POST /convert] answered
    with then answers 200 with the status [completed], with results and no
    error, or with the status [failed], with an error and no results. *)
Theorem submitted_job_is_settled_by_the_worker (w : world) (f : Server.file)
    (random : string) :
  healthy w ->
  responsive (lib w) ->
  queue w = [] ->
  exists resp,
    fst (run (let* posted := Server.postConvert (Some f) random in
              let* _ := ConversionWorker.iteration in
              Server.getStatus (js_to_string (Server.body posted !! "jobId"))) w)
    = Done resp /\
    Server.statusCode resp = 200 /\
    Server.body resp !! "jobId" = Some (VStr (uuid_of (lib w) (uuid_count w))) /\
    (Server.body resp !! "status" = Some (VStr "completed") /\
     is_Some (Server.body resp !! "results") /\ Server.body resp !! "error" = None \/
     Server.body resp !! "status" = Some (VStr "failed") /\
     is_Some (Server.body resp !! "error") /\ Server.body resp !! "results" = None).
Proof.
  intros H R Hq. rewrite run_bind.
  destruct (run_postConvert_healthy w f random H) as (posted & -> & _ & Hj).
  cbv beta iota. rewrite Hj. cbn [js_to_string].
  set (jd := request (Server.originalname f) (base64_encode (lib w) (Server.buffer f))
               (Server.size f) (Server.requestId (clock w) random)).
  set (id := uuid_of (lib w) (uuid_count w)).
  destruct (created_request (Server.originalname f)
              (base64_encode (lib w) (Server.buffer f)) (Server.size f)
              (Server.requestId (clock w) random) w) as [Hid (Hres & Herr & _)].
  fold jd id in Hid, Hres, Herr.
  rewrite run_bind. unfold ConversionWorker.iteration.
  rewrite run_try_catch, run_bind.
  rewrite (run_getNextJob_oldest (enqueued jd w) [] {| jobId := id |})
    by (try apply healthy_enqueued; try assumption;
        fold (queue (enqueued jd w)); rewrite queue_enqueued, Hq; reflexivity).
  rewrite store_enqueued. cbn [jobId]. fold id. rewrite lookup_insert_eq.
  cbn [fmap option_fmap option_map fst]. cbv beta iota.
  match goal with |- context [run (ConversionWorker.processJob _) ?w1] => set (Wp := w1) end.
  assert (HWp : healthy Wp) by (unfold Wp, enqueued; solve_healthy).
  assert (Lp : lib Wp = lib w) by reflexivity.
  destruct (processJob_ends Wp (created jd w) (created jd w) (Some 86400))
    as (w2 & x & w' & -> & Q & -> & Hx & Hcase).
  { exact HWp. }
  { rewrite Lp. exact R. }
  { rewrite Hid. cbn [js_to_string]. unfold Wp, enqueued. world_simpl.
    apply lookup_insert_eq. }
  cbv beta iota. rewrite Hid in *. cbn [js_to_string] in *.
  assert (HW : healthy (updated id x w2)).
  { apply healthy_updated. eapply healthy_same_redis; [exact Q|].
    apply healthy_updated, HWp. }
  destruct (run_getStatus_found (updated id x w2) id x (Some 86400) HW
              (lookup_updated id x w2)) as (resp & -> & Hcode & Hbody).
  exists resp. split; [reflexivity|]. split; [exact Hcode|].
  rewrite !Hbody. cbn [field String.eqb Ascii.eqb Bool.eqb].
  split; [congruence|].
  destruct Hcase as [(S1 & S2 & S3) | (S1 & S2 & S3)]; [left | right];
    (split; [exact S1|]); (split; [exact S2|]); congruence.
Qed.

Lemma submitted_job_is_settled_by_the_worker_witness :
  exists resp,
    fst (run (let* posted := Server.postConvert
                               (Some {| Server.originalname := "photo.jpg";
                                        Server.buffer := "abc"; Server.size := 3 |}) "x1" in
              let* _ := ConversionWorker.iteration in
              Server.getStatus (js_to_string (Server.body posted !! "jobId")))
           Sample.empty)
    = Done resp /\
    Server.statusCode resp = 200 /\
    Server.body resp !! "jobId"
    = Some (VStr (uuid_of (lib Sample.empty) (uuid_count Sample.empty))) /\
    (Server.body resp !! "status" = Some (VStr "completed") /\
     is_Some (Server.body resp !! "results") /\ Server.body resp !! "error" = None \/
     Server.body resp !! "status" = Some (VStr "failed") /\
     is_Some (Server.body resp !! "error") /\ Server.body resp !! "results" = None).
Proof.
  apply (submitted_job_is_settled_by_the_worker Sample.empty
           {| Server.originalname := "photo.jpg"; Server.buffer := "abc";
              Server.size := 3 |} "x1").
  - split; reflexivity.
  - intros input. split; discriminate.
  - reflexivity.
Defined.

(** The sample photograph, from its submission to the answer of the status
    request after the turn of the worker. *)
Example sample_request :
  (fun resp => (Server.statusCode resp, Server.body resp !! "status",
                Server.body resp !! "processingTime", Server.body resp !! "error"))
    <$> (match fst (run (let* posted :=
                           Server.postConvert
                             (Some {| Server.originalname := "photo.jpg";
                                      Server.buffer := "abc"; Server.size := 3 |}) "x1" in
                         let* _ := ConversionWorker.iteration in
                         Server.getStatus (js_to_string (Server.body posted !! "jobId")))
                      Sample.empty) with
         | Done resp => Some resp
         | _ => None
         end)
  = Some (200, Some (VStr "completed"), Some (VNum 1935), None).
Proof. vm_compute. reflexivity. Qed.

(** ** The worker and its queue *)

Lemma keeps_flag_handle {X} (c : cmd X) w x w' :
  keeps_flag X c = true -> handle c w = Some (x, w') -> isRunning w' = isRunning w.
Proof.
  destruct c; cbn [handle keeps_flag]; intros Hc H; try discriminate;
    try (unfold client, next_fault in H; destruct (faults w) as [|[?|] ?]; cbn in H);
    repeat match type of H with
           | context [match ?t with _ => _ end] => destruct t eqn:?
           end;
    try discriminate; injection H as <- <-; try reflexivity.
  all: match goal with
       | H : match rev ?l with _ => _ end = _ |- _ =>
           destruct (rev l); inversion H; subst; reflexivity
       end.
Qed.

Lemma keeps_flag_run {A} (p : prog A) w :
  within keeps_flag p -> isRunning (snd (run p w)) = isRunning w.
Proof.
  intros Hp.
  apply (within_run keeps_flag (fun w' => isRunning w' = isRunning w));
    [|exact Hp|reflexivity].
  intros X c w1 x w2 Hc Hw H. rewrite <- Hw. eapply keeps_flag_handle; eassumption.
Qed.

Lemma iteration_keeps_flag : within keeps_flag ConversionWorker.iteration.
Proof.
  unfold ConversionWorker.iteration, ConversionWorker.processJob,
    ConversionWorker.attempt, ConversionWorker.convert, ConversionWorker.assemble,
    ConversionWorker.stages, ConversionWorker.extract, ConversionWorker.decode,
    ConversionWorker.derive, ConversionWorker.thumbnailTask,
    ConversionWorker.cleanupTempFiles, ConversionWorker.bufferFrom,
    ConversionWorker.parseName, await.
  unfold_services. footprint.
Qed.

(** One turn of the worker on a queue whose oldest entry has its record. *)
Lemma iteration_takes_the_oldest w newer oldest r t :
  healthy w -> responsive (lib w) ->
  queue w = newer ++ [oldest] ->
  store w !! JobService.jobKey (jobId oldest) = Some (r, t) ->
  r !! "id" = Some (VStr (jobId oldest)) ->
  exists x y t' w',
    run ConversionWorker.iteration w = (Done tt, w') /\
    healthy w' /\ queue w' = newer /\
    store w' = <[JobService.jobKey (jobId oldest) := (x, Some 86400)]>
                 (<[JobService.jobKey (jobId oldest) := (y, t')]> (store w)) /\
    x !! "id" = Some (VStr (jobId oldest)) /\ terminal (x !! "status").
Proof.
  intros H R Hq Hr Hid. unfold ConversionWorker.iteration.
  rewrite run_try_catch, run_bind, (run_getNextJob_oldest w newer oldest H Hq), Hr.
  cbn [fmap option_fmap option_map fst]. cbv beta iota.
  match goal with |- context [run (ConversionWorker.processJob _) ?w1] => set (Wp := w1) end.
  assert (HWp : healthy Wp) by (unfold Wp; solve_healthy).
  destruct (processJob_ends Wp r r t) as (w2 & x & w' & -> & Q & -> & Hx & Hcase).
  { exact HWp. }
  { exact R. }
  { rewrite Hid. cbn [js_to_string]. exact Hr. }
  rewrite Hid in *. cbn [js_to_string] in *.
  exists x. do 3 eexists. split; [reflexivity|].
  split; [apply healthy_updated; eapply healthy_same_redis;
          [exact Q | apply healthy_updated, HWp]|].
  destruct Q as ((Qs & Ql & _) & _).
  split; [|split; [|split]].
  - unfold queue, list_at, updated in *. world_simpl. rewrite Ql.
    unfold Wp. world_simpl. rewrite lookup_insert_eq. reflexivity.
  - unfold updated in *. world_simpl. rewrite Qs. reflexivity.
  - congruence.
  - destruct Hcase as [(S1 & _) | (S1 & _)]; [left | right]; exact S1.
Qed.

Lemma drained n : forall w,
  length (queue w) = n ->
  healthy w -> isRunning w = true -> responsive (lib w) -> queue_has_records w ->
  fst (run (ConversionWorker.loop n) w) = Done tt /\
  queue (snd (run (ConversionWorker.loop n) w)) = [] /\
  (forall e, e ∈ queue w ->
     exists r' t',
       store (snd (run (ConversionWorker.loop n) w)) !! JobService.jobKey (jobId e)
       = Some (r', t') /\
       terminal (r' !! "status")) /\
  (forall id, (forall e, e ∈ queue w -> jobId e <> id) ->
     store (snd (run (ConversionWorker.loop n) w)) !! JobService.jobKey id
     = store w !! JobService.jobKey id).
Proof.
  induction n as [|n IH]; intros w Hn H Hrun R Hrec.
  - apply nil_length_inv in Hn. cbn [ConversionWorker.loop run fst snd].
    split; [reflexivity|]. split; [exact Hn|]. split; [|reflexivity].
    intros e He. rewrite Hn in He. apply elem_of_nil in He. destruct He.
  - assert (Hne : queue w <> []) by (intros K; rewrite K in Hn; discriminate).
    destruct (exists_last Hne) as (newer & oldest & Hq).
    rewrite Hq, length_app in Hn. cbn [length] in Hn.
    assert (Hlen : length newer = n) by lia.
    destruct (Hrec oldest) as (r & t & Hr & Hid);
      [rewrite Hq; rewrite elem_of_app, list_elem_of_singleton; auto|].
    destruct (iteration_takes_the_oldest w newer oldest r t H R Hq Hr Hid)
      as (x & y & t' & w' & E & Hw' & Hq' & Hs' & Hx & Tx).
    pose proof (keeps_flag_run _ w iteration_keeps_flag) as Flag.
    pose proof (run_lib ConversionWorker.iteration w) as Lib.
    rewrite E in Flag, Lib. cbn [snd] in Flag, Lib.
    assert (Hrec' : queue_has_records w').
    { intros e He. rewrite Hq' in He.
      destruct (decide (jobId e = jobId oldest)) as [Eq|Ne].
      - exists x, (Some 86400). rewrite Hs', Eq, lookup_insert_eq. auto.
      - destruct (Hrec e) as (re & te & Hre & Hide);
          [rewrite Hq; apply elem_of_app; auto|].
        exists re, te. rewrite Hs'.
        rewrite !lookup_insert_ne
          by (intros K; apply jobKey_inj in K; congruence).
        auto. }
    destruct (IH w') as (D1 & D2 & D3 & D4);
      [rewrite Hq'; exact Hlen | exact Hw' | congruence | rewrite Lib; exact R
      | exact Hrec' |].
    cbn [ConversionWorker.loop]. rewrite run_bind, run_perform. cbn [handle].
    cbv beta iota. rewrite Hrun, run_bind, E. cbv beta iota.
    split; [exact D1|]. split; [exact D2|]. split.
    + intros e He. rewrite Hq, elem_of_app, list_elem_of_singleton in He.
      destruct He as [He | ->].
      * apply D3. rewrite Hq'. exact He.
      * destruct (decide (Exists (fun e => jobId e = jobId oldest) newer)) as [Ex|Nex].
        -- apply Exists_exists in Ex. destruct Ex as (e & He & Eq).
           rewrite <- Eq. apply D3. rewrite Hq'. exact He.
        -- rewrite D4.
           ++ exists x, (Some 86400). rewrite Hs', lookup_insert_eq. auto.
           ++ intros e He Eq. apply Nex, Exists_exists. exists e.
              rewrite Hq' in He. split; [exact He | exact Eq].
    + intros id Hid'. rewrite D4.
      * rewrite Hs'.
        assert (jobId oldest <> id)
          by (apply Hid'; rewrite Hq, elem_of_app, list_elem_of_singleton; auto).
        rewrite !lookup_insert_ne
          by (intros K; apply jobKey_inj in K; congruence).
        reflexivity.
      * intros e He. apply Hid'. rewrite Hq, elem_of_app. left.
        rewrite Hq' in He. exact He.
Qed.

(** X25. On a store that answers, with libraries that respond, a running
    worker whose queue holds entries that all have their record works the
    queue off in as many turns as it has entries: the loop goes on to the
    end, the queue is empty afterwards, the record of every job that was
    queued is [completed] or [failed], and the records of the other jobs
    are as before. *)
Theorem worker_drains_the_queue (w : world) :
  healthy w ->
  isRunning w = true ->
  responsive (lib w) ->
  queue_has_records w ->
  fst (run (ConversionWorker.loop (length (queue w))) w) = Done tt /\
  queue (snd (run (ConversionWorker.loop (length (queue w))) w)) = [] /\
  (forall e, e ∈ queue w ->
     exists r' t',
       store (snd (run (ConversionWorker.loop (length (queue w))) w))
         !! JobService.jobKey (jobId e) = Some (r', t') /\
       terminal (r' !! "status")) /\
  (forall id, (forall e, e ∈ queue w -> jobId e <> id) ->
     store (snd (run (ConversionWorker.loop (length (queue w))) w)) !! JobService.jobKey id
     = store w !! JobService.jobKey id).
Proof. intros H Hrun R Hrec. apply drained; auto. Qed.

Lemma worker_drains_the_queue_witness :
  fst (run (ConversionWorker.loop (length (queue (set_isRunning true Sample.submitted))))
         (set_isRunning true Sample.submitted)) = Done tt /\
  queue (snd (run (ConversionWorker.loop
                     (length (queue (set_isRunning true Sample.submitted))))
                (set_isRunning true Sample.submitted))) = [] /\
  (forall e, e ∈ queue (set_isRunning true Sample.submitted) ->
     exists r' t',
       store (snd (run (ConversionWorker.loop
                          (length (queue (set_isRunning true Sample.submitted))))
                     (set_isRunning true Sample.submitted)))
         !! JobService.jobKey (jobId e) = Some (r', t') /\
       terminal (r' !! "status")) /\
  (forall id, (forall e, e ∈ queue (set_isRunning true Sample.submitted) -> jobId e <> id) ->
     store (snd (run (ConversionWorker.loop
                        (length (queue (set_isRunning true Sample.submitted))))
                   (set_isRunning true Sample.submitted))) !! JobService.jobKey id
     = store (set_isRunning true Sample.submitted) !! JobService.jobKey id).
Proof.
  apply (worker_drains_the_queue (set_isRunning true Sample.submitted)).
  - split; reflexivity.
  - reflexivity.
  - intros input. split; discriminate.
  - intros e He.
    assert (Q : queue (set_isRunning true Sample.submitted) = [{| jobId := "job-0" |}])
      by reflexivity.
    rewrite Q in He. apply list_elem_of_singleton in He. subst e.
    exists Sample.job, (Some 86400). split; vm_compute; reflexivity.
Defined.

(** Three photographs are submitted, the second one cannot be read by
    exiftool; the worker is started for three turns. *)
Example three_jobs :
  (fun w => (fst w,
             (fun id => match store (snd w) !! JobService.jobKey id with
                        | Some (r, _) => (r !! "status", r !! "error")
                        | None => (None, None)
                        end) <$> ["job-0"; "job-1"; "job-2"],
             queue (snd w)))
    (run (let* _ := JobService.createJob (request "a.jpg" "abc" 3 "req_1") in
          let* _ := JobService.createJob (request "b.jpg" "bad" 3 "req_2") in
          let* _ := JobService.createJob (request "c.jpg" "xyz" 3 "req_3") in
          ConversionWorker.start 3)
       (set_lib (Sample.with_exiftool_read
                   (fun data => if String.eqb data "bad"
                                then Settles 5 (inl "File format error")
                                else Settles 5 (inr Sample.tags)))
          Sample.empty))
  = (Done tt,
     [(Some (VStr "completed"), None);
      (Some (VStr "failed"), Some (VStr "Metadata extraction failed: File format error"));
      (Some (VStr "completed"), None)],
     []).
Proof. vm_compute. reflexivity. Qed.

Lemma idle n : forall w,
  healthy w -> isRunning w = true -> queue w = [] ->
  fst (run (ConversionWorker.loop n) w) = Done tt /\
  same_redis w (snd (run (ConversionWorker.loop n) w)) /\
  fs (snd (run (ConversionWorker.loop n) w)) = fs w /\
  clock (snd (run (ConversionWorker.loop n) w)) = clock w + 30000 * Z.of_nat n.
Proof.
  induction n as [|n IH]; intros w H Hrun Hq.
  - cbn [ConversionWorker.loop run fst snd]. repeat split; lia.
  - cbn [ConversionWorker.loop]. rewrite run_bind, run_perform. cbn [handle].
    cbv beta iota. rewrite Hrun, run_bind. unfold ConversionWorker.iteration.
    rewrite run_try_catch, run_bind, (run_getNextJob_empty w H Hq).
    cbn [run]. cbv beta iota.
    destruct (IH (set_clock (fun t => t + 1000 * 30) w)) as (I1 & I2 & I3 & I4);
      [solve_healthy | exact Hrun | exact Hq |].
    split; [exact I1|]. split; [|split].
    + eapply same_redis_trans; [|exact I2]. repeat split.
    + rewrite I3. reflexivity.
    + rewrite I4. world_simpl. lia.
Qed.

(** X26. With an empty queue a turn of the worker is a wait of 30 seconds
    for an entry, after which [getNextJob] returns [null] and the loop goes
    on: [n] idle turns leave the Redis server and the files as they are and
    take [n] times 30 seconds. *)
Theorem idle_worker_only_waits (w : world) (n : nat) :
  healthy w ->
  isRunning w = true ->
  queue w = [] ->
  run JobService.getNextJob w = (Done None, set_clock (fun t => t + 1000 * 30) w) /\
  fst (run (ConversionWorker.loop n) w) = Done tt /\
  same_redis w (snd (run (ConversionWorker.loop n) w)) /\
  fs (snd (run (ConversionWorker.loop n) w)) = fs w /\
  clock (snd (run (ConversionWorker.loop n) w)) = clock w + 30000 * Z.of_nat n.
Proof.
  intros H Hrun Hq. split; [apply run_getNextJob_empty; assumption|].
  apply idle; assumption.
Qed.

Lemma idle_worker_only_waits_witness :
  run JobService.getNextJob (set_isRunning true Sample.empty)
  = (Done None, set_clock (fun t => t + 1000 * 30) (set_isRunning true Sample.empty)) /\
  fst (run (ConversionWorker.loop 4) (set_isRunning true Sample.empty)) = Done tt /\
  same_redis (set_isRunning true Sample.empty)
    (snd (run (ConversionWorker.loop 4) (set_isRunning true Sample.empty))) /\
  fs (snd (run (ConversionWorker.loop 4) (set_isRunning true Sample.empty)))
  = fs (set_isRunning true Sample.empty) /\
  clock (snd (run (ConversionWorker.loop 4) (set_isRunning true Sample.empty)))
  = clock (set_isRunning true Sample.empty) + 30000 * Z.of_nat 4.
Proof.
  apply (idle_worker_only_waits (set_isRunning true Sample.empty) 4).
  - split; reflexivity.
  - reflexivity.
  - reflexivity.
Defined.

(** ** Stopping, and a worker without a connection *)

Lemma run_env_nil {A} (p : prog A) : forall w, run_env [] p w = run p w.
Proof.
  induction p as [a|e|X c k IH]; intros w; cbn [run_env run]; try reflexivity.
  destruct (suspends c); destruct (handle c w) as [[x w']|]; auto.
Qed.

Lemma run_loop_stopped n w :
  isRunning w = false -> run (ConversionWorker.loop n) w = (Done tt, w).
Proof.
  intros H. destruct n as [|n]; cbn [ConversionWorker.loop]; [reflexivity|].
  rewrite run_bind, run_perform. cbn [handle]. cbv beta iota. rewrite H. reflexivity.
Qed.

Lemma run_turn_then_stopped n w :
  isRunning w = false ->
  run (let* _ := ConversionWorker.iteration in ConversionWorker.loop n) w
  = run ConversionWorker.iteration w.
Proof.
  intros H. rewrite run_bind.
  pose proof (catches_run _ iteration_catches w) as C.
  pose proof (keeps_flag_run _ w iteration_keeps_flag) as F.
  destruct (run ConversionWorker.iteration w) as [[[]|e|] w']; cbn [fst snd] in *.
  - apply run_loop_stopped. congruence.
  - destruct (C e). reflexivity.
  - reflexivity.
Qed.

(** X27. [stop] only clears the flag that the loop tests between two
    turns.  Called while the worker waits for an entry, it does not end the
    wait: the worker takes the turn it has begun to its end, with the job
    that arrives if one does, and leaves the loop afterwards, whatever
    number of turns was left. *)
Theorem stop_lets_the_turn_finish (w : world) (n : nat) :
  isRunning w = true ->
  connected w = true ->
  run_env [meanwhile ConversionWorker.stop] (ConversionWorker.loop (S n)) w
  = run ConversionWorker.iteration (set_isRunning false w).
Proof.
  intros Hrun Hc. rewrite <- (run_turn_then_stopped n) by reflexivity.
  cbn [ConversionWorker.loop].
  unfold ConversionWorker.iteration at 1 2, JobService.getNextJob, RedisService.brpop,
    RedisService.getClient, RedisService.isConnected, perform, call.
  cbn [bind try_catch run_env run suspends handle]. rewrite Hrun.
  cbn [bind try_catch run_env run suspends handle connected set_isRunning]. rewrite Hc.
  cbn [bind try_catch run_env run suspends handle negb connected set_isRunning].
  rewrite Hc.
  cbn [bind try_catch run_env run suspends handle negb].
  replace (meanwhile ConversionWorker.stop w) with (set_isRunning false w) by reflexivity.
  destruct (client (set_isRunning false w) _) as [[x w']|]; [|reflexivity].
  apply run_env_nil.
Qed.

Lemma stop_lets_the_turn_finish_witness :
  run_env [meanwhile ConversionWorker.stop] (ConversionWorker.loop (S 4))
    (set_isRunning true Sample.submitted)
  = run ConversionWorker.iteration (set_isRunning false (set_isRunning true Sample.submitted)).
Proof.
  apply (stop_lets_the_turn_finish (set_isRunning true Sample.submitted) 4); reflexivity.
Defined.

(** The worker is stopped while it waits; the job that is in the queue is
    converted all the same, and nothing is left to do for the four turns
    that remain. *)
Example stopped_worker_finishes_the_job :
  (fun x => (fst x, Sample.outcome_of (snd x), isRunning (snd x)))
    (run_env [meanwhile ConversionWorker.stop] (ConversionWorker.loop 5)
       (set_isRunning true Sample.submitted))
  = (Done tt,
     (Some (VStr "completed"), None,
      Some (ConversionWorker.results "photo" "avif80:abc" "avif85:abc" 10 10 3 4000 3000
              Sample.tags)),
     false).
Proof. vm_compute. reflexivity. Qed.

(** X28. Without a connection [getNextJob] throws before it awaits
    anything, and the loop catches the error and goes on at once: the turns
    of a running worker follow each other without a wait, and any number of
    them leaves the world, its clock included, exactly as it is. *)
Theorem disconnected_worker_spins (w : world) (n : nat) :
  isRunning w = true ->
  connected w = false ->
  run ConversionWorker.iteration w = (Done tt, w) /\
  run (ConversionWorker.loop n) w = (Done tt, w).
Proof.
  intros Hrun Hc.
  assert (E : run ConversionWorker.iteration w = (Done tt, w)).
  { unfold ConversionWorker.iteration, JobService.getNextJob. steps.
    rewrite Hc. reflexivity. }
  split; [exact E|].
  induction n as [|n IH]; cbn [ConversionWorker.loop]; [reflexivity|].
  rewrite run_bind, run_perform. cbn [handle]. cbv beta iota.
  rewrite Hrun, run_bind, E. exact IH.
Qed.

Lemma disconnected_worker_spins_witness :
  run ConversionWorker.iteration (set_connected false (set_isRunning true Sample.submitted))
  = (Done tt, set_connected false (set_isRunning true Sample.submitted)) /\
  run (ConversionWorker.loop 1000)
    (set_connected false (set_isRunning true Sample.submitted))
  = (Done tt, set_connected false (set_isRunning true Sample.submitted)).
Proof.
  apply (disconnected_worker_spins
           (set_connected false (set_isRunning true Sample.submitted)) 1000);
    reflexivity.
Defined.
